(** * deep-research: the recursive research orchestrator and its request layer

    A shallow embedding of [src/ai/providers.ts] and [src/deep-research.ts],
    with [src/utils/logging.ts] and [src/feedback.ts].

    - Strings are sequences of code units; an [ascii] stands for a code unit
      below 256.  Numbers that the program only uses as integers are [Z] (or
      [nat] for counters that start at 0 and are incremented); delays in
      milliseconds are [Q].  The numbers of the source are doubles: where an
      integer result may not be one, as in [depth - 1], it is rounded as the
      source rounds it ([JS.to_double]).
    - The source reads [JSON.parse(...) as T] without a check of the shape:
      the oracles of [JSON.parse] give the value as the caller reads it,
      whatever its shape, and the embedding goes on with it as the source
      does (a plan that is a string or holds [null] makes [deepResearch]
      reject).
    - Asynchronous functions are computations in the monad [M]: a trace of
      the calls made to the outside world, and either a returned value or a
      thrown error; [None] stands for a computation that does not finish.
    - The outside world (the generative model, [Math.random], the search
      provider, [JSON.parse], the tokenizer, the text splitter) is a family of
      oracles.  An oracle is indexed by the place of the call in the research
      tree, so every run of the program, whatever the order in which
      concurrent branches are served, is the run of some oracle. *)

From Stdlib Require Import String Ascii List ZArith QArith Qround Lia Bool Arith.
From Stdlib Require Import DecimalString Lqa.
Import ListNotations.

Local Open Scope string_scope.
Local Open Scope list_scope.
Local Open Scope nat_scope.

(* ====================================================================== *)
(** ** JavaScript primitives used by the program *)
(* ====================================================================== *)

Module JS.

(** The line feed, written [\n] in the source. *)
Definition LF : ascii := ascii_of_nat 10.
Definition nl : string := String LF EmptyString.
(** The double quote. *)
Definition dq : string := String (ascii_of_nat 34) EmptyString.

(** A template literal that spans several lines. *)
Definition lines (ls : list string) : string := String.concat nl ls.

(** [!s] for a string [s]. *)
Definition falsy (s : string) : bool :=
  match s with EmptyString => true | String _ _ => false end.

Fixpoint take (n : nat) (s : string) : string :=
  match n, s with
  | S n', String c s' => String c (take n' s')
  | _, _ => EmptyString
  end.

(** [s.slice(0, e)]; a negative [e] counts from the end. *)
Definition slice0 (s : string) (e : Z) : string :=
  if (e <? 0)%Z then take (Z.to_nat (Z.of_nat (String.length s) + e)) s
  else take (Z.to_nat e) s.

(** [a.slice(0, e)] on arrays. *)
Definition aslice0 {A : Type} (a : list A) (e : Z) : list A :=
  if (e <? 0)%Z then firstn (Z.to_nat (Z.of_nat (List.length a) + e)) a
  else firstn (Z.to_nat e) a.

(** [a.join(sep)]. *)
Definition join (sep : string) (a : list string) : string := String.concat sep a.

(** [s.includes(pat)]. *)
Fixpoint includes (pat s : string) : bool :=
  if String.prefix pat s then true
  else match s with
       | EmptyString => false
       | String _ s' => includes pat s'
       end.

(** White space of [String.prototype.trim] and of the regular expression
    class [\s], among the code units below 256. *)
Definition is_space (c : ascii) : bool :=
  let n := nat_of_ascii c in
  (n =? 9) || (n =? 10) || (n =? 11) || (n =? 12) || (n =? 13) || (n =? 32)
  || (n =? 160).

Definition is_newline (c : ascii) : bool := nat_of_ascii c =? 10.

Fixpoint trimStart (s : string) : string :=
  match s with
  | EmptyString => EmptyString
  | String c s' => if is_space c then trimStart s' else s
  end.

Fixpoint trimEnd (s : string) : string :=
  match s with
  | EmptyString => EmptyString
  | String c s' =>
      let r := trimEnd s' in
      if is_space c && falsy r then EmptyString else String c r
  end.

(** [s.trim()]. *)
Definition trim (s : string) : string := trimEnd (trimStart s).

(** [s.replace(/pat/g, '')] for a literal, non-empty [pat]: the matches are
    found from left to right and do not overlap.  [skip] counts the code
    units of the current match that are still to be dropped. *)
Fixpoint remove_all_from (pat : string) (skip : nat) (s : string) : string :=
  match s with
  | EmptyString => EmptyString
  | String c s' =>
      match skip with
      | S k => remove_all_from pat k s'
      | O =>
          if String.prefix pat s
          then remove_all_from pat (String.length pat - 1) s'
          else String c (remove_all_from pat 0 s')
      end
  end.

Definition remove_all (pat s : string) : string := remove_all_from pat 0 s.

(** [s.replace(/C+/g, ' ')] for a character class [C]: every maximal run of
    code units of the class becomes one space. *)
Fixpoint collapse_from (cls : ascii -> bool) (in_run : bool) (s : string) : string :=
  match s with
  | EmptyString => EmptyString
  | String c s' =>
      if cls c
      then if in_run then collapse_from cls true s'
           else String " "%char (collapse_from cls true s')
      else String c (collapse_from cls false s')
  end.

Definition collapse (cls : ascii -> bool) (s : string) : string :=
  collapse_from cls false s.

(** lodash's [compact] on an array of optional strings: [undefined] and the
    empty string are dropped. *)
Fixpoint compact (a : list (option string)) : list string :=
  match a with
  | [] => []
  | None :: a' => compact a'
  | Some s :: a' => if falsy s then compact a' else s :: compact a'
  end.

(** [set.has(x)] on the insertion-ordered elements of a [Set] of strings:
    two strings are the same element exactly when they are equal. *)
Definition Set_has (elems : list string) (x : string) : bool :=
  existsb (String.eqb x) elems.

(** [set.add(x)]: a new element goes to the end, an old one is left where it
    is. *)
Definition Set_add (elems : list string) (x : string) : list string :=
  if Set_has elems x then elems else elems ++ [x].

(** [[...new Set(a)]]. *)
Definition Set_spread (a : list string) : list string :=
  fold_left Set_add a [].

(** [`${n}`] for an integer [n]. *)
Definition of_int (n : Z) : string := NilZero.string_of_int (Z.to_int n).

(** [Math.ceil(n / d)] for integers [n] and [d]: the quotient is taken in the
    rationals, as the division of two integers that a double holds exactly. *)
Definition Math_ceil_div (n d : Z) : Z := Qceiling (inject_Z n / inject_Z d).

(** The double nearest to the integer [n], the one with the even mantissa
    when two are as near: what an arithmetic operation of the source gives
    when its exact result is [n].  Every integer up to [2 ^ 53] in absolute
    value is a double; above, only the multiples of the spacing [ulp] are.
    As in the source for the integers below [2 ^ 1024]. *)
Definition to_double (n : Z) : Z :=
  let a := Z.abs n in
  if (a <=? 2 ^ 53)%Z then n
  else
    let ulp := (2 ^ (Z.log2 a - 52))%Z in
    let q := (a / ulp)%Z in
    let r := (a mod ulp)%Z in
    let up := (ulp <? 2 * r)%Z || ((2 * r =? ulp)%Z && Z.odd q) in
    (Z.sgn n * ((if up then q + 1 else q) * ulp))%Z.

(** What a [throw] carries.  The errors of the generative-model client have
    a [status], those of the search client a [statusCode]; both are [Error]
    objects and have a [message]. *)
Record Error : Type := mkError {
  status : option Z;
  statusCode : option Z;
  message : string
}.

Definition new_Error (msg : string) : Error := mkError None None msg.

(** A [TypeError] of the runtime: a property of [undefined] or of [null] is
    read, or a value that is no function is called.  The messages are not
    told apart: one value stands for all of them. *)
Definition TypeError : Error :=
  new_Error "Cannot read properties of undefined".

End JS.

(* ====================================================================== *)
(** ** Computations: trace, exceptions, divergence *)
(* ====================================================================== *)

(** Settings of a model, [ModelConfig] in the source. *)
Inductive HarmCategory := HARM_CATEGORY_HARASSMENT.
Inductive HarmBlockThreshold := BLOCK_MEDIUM_AND_ABOVE.

Record GenerationConfig : Type := mkGenerationConfig {
  temperature : Q;
  maxOutputTokens : Z;
  topK : option Z;
  topP : option Q;
  candidateCount : option Z
}.

Record ModelConfig : Type := mkModelConfig {
  generationConfig : GenerationConfig;
  safetySettings : list (HarmCategory * HarmBlockThreshold)
}.

(** The calls to the outside world that a computation makes, and the log
    line that announces a recursive call of [deepResearch]. *)
Inductive event : Type :=
| EvSend (model : string) (config : ModelConfig) (text : string)
    (** [genAI.getGenerativeModel({model, ...config}).startChat().sendMessage(text)] *)
| EvSleep (ms : Q)
    (** [setTimeout(resolve, ms)] *)
| EvSearch (query : string)
    (** [firecrawl.search(query, ...)] *)
| EvDeeper (breadth depth : Z).
    (** [console.log(`Researching deeper, breadth: ..., depth: ...`)] *)

Inductive outcome (A : Type) : Type :=
| Returned (a : A)
| Thrown (e : JS.Error).
Arguments Returned {A} a.
Arguments Thrown {A} e.

Definition M (A : Type) : Type := option (list event * outcome A).

Definition ret {A} (a : A) : M A := Some ([], Returned a).
Definition throw {A} (e : JS.Error) : M A := Some ([], Thrown e).
Definition emit (ev : event) : M unit := Some ([ev], Returned tt).
Definition diverge {A} : M A := None.

Definition bind {A B} (c : M A) (k : A -> M B) : M B :=
  match c with
  | None => None
  | Some (t, Thrown e) => Some (t, Thrown e)
  | Some (t, Returned a) =>
      match k a with
      | None => None
      | Some (t', o) => Some (t ++ t', o)
      end
  end.

(** [try { c } catch (e) { h e }]. *)
Definition try_catch {A} (c : M A) (h : JS.Error -> M A) : M A :=
  match c with
  | None => None
  | Some (t, Returned a) => Some (t, Returned a)
  | Some (t, Thrown e) =>
      match h e with
      | None => None
      | Some (t', o) => Some (t ++ t', o)
      end
  end.

(** A computation that finishes and does not throw. *)
Definition returns {A} (c : M A) : Prop := exists t a, c = Some (t, Returned a).

(** A computation that finishes, with a value or an error. *)
Definition finishes {A} (c : M A) : Prop := exists t o, c = Some (t, o).

(** The value that a computation returns, if it returns one, satisfies [P]. *)
Definition yields {A} (P : A -> Prop) (c : M A) : Prop :=
  forall t a, c = Some (t, Returned a) -> P a.

(** Every event of a computation that finishes satisfies [P]. *)
Definition traces {A} (P : event -> Prop) (c : M A) : Prop :=
  forall t o, c = Some (t, o) -> Forall P t.

(** A computation that finishes has [ev] for its first event. *)
Definition starts_with {A} (ev : event) (c : M A) : Prop :=
  forall t o, c = Some (t, o) -> exists t', t = ev :: t'.

(** The events of a request to the model: the attempts and the waits. *)
Definition model_event (ev : event) : Prop :=
  match ev with
  | EvSend _ _ _ | EvSleep _ => True
  | EvSearch _ | EvDeeper _ _ => False
  end.

(** Not a call to the search provider. *)
Definition no_search (ev : event) : Prop :=
  match ev with
  | EvSearch _ => False
  | _ => True
  end.

(** The queries sent to the search provider, in the order of the trace. *)
Definition searched (t : list event) : list string :=
  flat_map (fun ev => match ev with EvSearch query => [query] | _ => [] end) t.

(** Not the announcement of a recursive call. *)
Definition no_deeper (ev : event) : Prop :=
  match ev with
  | EvDeeper _ _ => False
  | _ => True
  end.

(** A recursive call, if the event announces one, is made with a positive
    depth below [depth]. *)
Definition deeper_below (depth : Z) (ev : event) : Prop :=
  match ev with
  | EvDeeper _ newDepth => (0 < newDepth < depth)%Z
  | _ => True
  end.

Declare Scope comp_scope.
Delimit Scope comp_scope with comp.
Notation "x <- c ;; k" := (bind c (fun x => k))
  (at level 61, c at next level, right associativity) : comp_scope.
Notation "c ;;; k" := (bind c (fun _ => k))
  (at level 61, right associativity) : comp_scope.
Local Open Scope comp_scope.

(** How [Promise.all] settles: with the results when every promise is
    fulfilled, with the reason of a rejection when one is rejected. *)
Definition settle {B} (o : outcome B) (os : outcome (list B)) : outcome (list B) :=
  match o, os with
  | Returned r, Returned rs => Returned (r :: rs)
  | Thrown e, _ => Thrown e
  | Returned _, Thrown e => Thrown e
  end.

(** [await Promise.all(a.map((x, i) => f i x))]: the results are in the
    order of [a], whatever the order in which the promises settle; the trace
    lists the calls of one element after those of the element before it.
    Every promise of the array is started by [map], and a rejection of one
    of them does not stop the others: [Promise.all] rejects at once, and
    the others run on.  So the trace lists the calls of all the elements.
    When several promises reject, the source reports the rejection that
    comes first in time; the model reports that of the first element that
    rejects.  [None]: some element does not end. *)
Fixpoint Promise_all_from {A B} (f : nat -> A -> M B) (i : nat) (a : list A)
  : M (list B) :=
  match a with
  | [] => ret []
  | x :: a' =>
      match f i x, Promise_all_from f (S i) a' with
      | Some (t, o), Some (t', os) => Some (t ++ t', settle o os)
      | _, _ => None
      end
  end.

Definition Promise_all_map {A B} (f : nat -> A -> M B) (a : list A) : M (list B) :=
  Promise_all_from f 0 a.

(* ====================================================================== *)
(** ** [src/ai/providers.ts] *)
(* ====================================================================== *)

Module Providers.

Definition DEFAULT_MODEL : string := "gemini-1.5-pro".

Definition MAX_RETRIES : nat := 5.
Definition INITIAL_RETRY_DELAY : Z := 3000.
Definition MAX_RETRY_DELAY : Z := 15000.

(** An AI SDK message. *)
Inductive Role := system | user | assistant.

Record Message : Type := mkMessage {
  role : Role;
  content : string;
  id : string
}.

(** What the generative-model client answers to one [sendMessage]. *)
Inductive reply : Type :=
| Answer (text : string)
| Failure (error : JS.Error).

(** [error?.status === 429]. *)
Definition status_is_429 (error : JS.Error) : bool :=
  match JS.status error with
  | Some s => (s =? 429)%Z
  | None => false
  end.

(** [exponentialDelay] in [delay]. *)
Definition exponentialDelay (retryCount : nat) : Z :=
  Z.min (INITIAL_RETRY_DELAY * 2 ^ Z.of_nat retryCount) MAX_RETRY_DELAY.

(** The time that [delay(retryCount)] waits when [Math.random()] draws
    [random]. *)
Definition delay_ms (random : Q) (retryCount : nat) : Q :=
  (inject_Z (exponentialDelay retryCount) + random * 1000)%Q.

(** [convertToGoogleAIMessages]. *)
Definition convertToGoogleAIMessages (messages : list Message)
  : list (Role * list string) :=
  map (fun m => (match role m with system => user | r => r end, [content m]))
      messages.

(** [messages[messages.length - 1]]. *)
Definition last_message (messages : list Message) : option Message :=
  nth_error messages (List.length messages - 1).

Section Request.

(** [upstream k]: the answer of the client to the attempt made with
    [retryCount = k]; [Math_random k]: the number that [Math.random()]
    draws in [delay(k)]. *)
Variable upstream : nat -> reply.
Variable Math_random : nat -> Q.

Definition delay (retryCount : nat) : M unit :=
  emit (EvSleep (delay_ms (Math_random retryCount) retryCount)).

(** [handleGoogleAIError(error, retryCount)]. *)
Definition handleGoogleAIError (error : JS.Error) (retryCount : nat) : M string :=
  if status_is_429 error && (retryCount <? MAX_RETRIES)
  then delay retryCount ;;; throw error
  else throw error.

(** The [while (retryCount <= MAX_RETRIES)] loop of [makeModelRequest].
    [left] is the variant [MAX_RETRIES + 1 - retryCount]: the number of
    iterations for which the condition of the loop still holds. *)
Fixpoint request_loop (config : ModelConfig) (text : string)
         (left : nat) (retryCount : nat) : M string :=
  match left with
  | O => throw (JS.new_Error "Max retries exceeded")
  | S left' =>
      try_catch
        (emit (EvSend DEFAULT_MODEL config text) ;;;
         match upstream retryCount with
         | Answer response => ret response
         | Failure error => throw error
         end)
        (fun error =>
           if status_is_429 error && (retryCount <? MAX_RETRIES)
           then delay (S retryCount) ;;;
                request_loop config text left' (S retryCount)
           else throw error)
  end.

(** [makeModelRequest(messages, config)].  The limiter [rateLimiter] only
    decides when the request starts. *)
Definition makeModelRequest (messages : list Message) (config : ModelConfig)
  : M string :=
  match last_message messages with
  | None => throw JS.TypeError
  | Some m => request_loop config (content m) (MAX_RETRIES + 1) 0
  end.

Definition baseConfig : ModelConfig :=
  mkModelConfig
    (mkGenerationConfig (3 # 10) 2048 (Some 40%Z) (Some (95 # 100)) (Some 1%Z))
    [(HARM_CATEGORY_HARASSMENT, BLOCK_MEDIUM_AND_ABOVE)].

Definition o3MiniConfig : ModelConfig :=
  mkModelConfig
    (mkGenerationConfig (3 # 10) 2048
       (topK (generationConfig baseConfig))
       (topP (generationConfig baseConfig))
       (candidateCount (generationConfig baseConfig)))
    (safetySettings baseConfig).

(** [o3MiniModel(messages)]. *)
Definition o3MiniModel (messages : list Message) : M string :=
  try_catch
    (response <- makeModelRequest messages o3MiniConfig ;;
     if JS.falsy response
     then throw (JS.new_Error "Empty or invalid response from Google AI")
     else ret response)
    (fun error => handleGoogleAIError error 0).

End Request.

(** The vocabulary of the retry policy.  A reply is a throttling signal when
    it is a failure whose status is 429. *)
Definition throttling (r : reply) : bool :=
  match r with
  | Answer _ => false
  | Failure error => status_is_429 error
  end.

(** What the caller gets from the reply to the last attempt. *)
Definition final_outcome (r : reply) : outcome string :=
  match r with
  | Answer response => Returned response
  | Failure error => Thrown error
  end.

(** The trace of a request that is retried [n] times after the attempts
    [first], ..., [first + n - 1]: every attempt sends [text]; the retry
    that follows attempt [k] waits [delay(k + 1)] first. *)
Definition retry_trace (Math_random : nat -> Q) (config : ModelConfig)
           (text : string) (first n : nat) : list event :=
  flat_map
    (fun k => [EvSend DEFAULT_MODEL config text;
               EvSleep (delay_ms (Math_random (S k)) (S k))])
    (seq first n)
  ++ [EvSend DEFAULT_MODEL config text].

Definition MinChunkSize : Z := 2000.
Definition MaxContextSize : Z := 2000000.

Section Trim.

(** [encode]: the tokenizer [getEncoding('o200k_base').encode] of
    js-tiktoken. *)
Variable encode : string -> list N.

(** [splitText chunkSize chunkOverlap text]:
    [new RecursiveCharacterTextSplitter({chunkSize, chunkOverlap}).splitText(text)].
    The class is defined in [src/ai/text-splitter.ts]; here it is a
    parameter. *)
Variable splitText : Z -> Z -> string -> list string.

(** [trimPrompt(prompt, contextSize)]; [fuel] bounds the number of nested
    recursive calls. *)
Fixpoint trimPrompt_fuel (fuel : nat) (prompt : string) (contextSize : Z)
  : option string :=
  if JS.falsy prompt then Some EmptyString
  else
    let length := Z.of_nat (List.length (encode prompt)) in
    if (length <=? contextSize)%Z then Some prompt
    else
      let overflowTokens := (length - contextSize)%Z in
      let chunkSize := (Z.of_nat (String.length prompt) - overflowTokens * 3)%Z in
      if (chunkSize <? MinChunkSize)%Z then Some (JS.slice0 prompt MinChunkSize)
      else
        let trimmedPrompt := hd EmptyString (splitText chunkSize 200 prompt) in
        match fuel with
        | O => None
        | S fuel' =>
            if String.length trimmedPrompt =? String.length prompt
            then trimPrompt_fuel fuel' (JS.slice0 prompt chunkSize) contextSize
            else trimPrompt_fuel fuel' trimmedPrompt contextSize
        end.

(** Every recursive call is made on a shorter string when the splitter
    does its work (see [splitter_shrinks]), so the length of the prompt is
    fuel enough. *)
Definition trimPrompt (prompt : string) (contextSize : Z) : option string :=
  trimPrompt_fuel (String.length prompt) prompt contextSize.

(** The first chunk that the splitter cuts from a text is not longer than
    the text. *)
Definition splitter_shrinks : Prop :=
  forall chunkSize chunkOverlap text,
    String.length (hd EmptyString (splitText chunkSize chunkOverlap text))
    <= String.length text.

End Trim.

End Providers.

(* ====================================================================== *)
(** ** [src/deep-research.ts] *)
(* ====================================================================== *)

Module DeepResearch.

Import JS.
Import Providers.

Record ResearchResult : Type := mkResearchResult {
  learnings : list string;
  visitedUrls : list string
}.

Record SerpQuery : Type := mkSerpQuery {
  query : string;
  researchGoal : string
}.

(** An element of the array that the planner returns, as a branch reads
    it.  The source asserts the type [SerpQuery] and does not check it.
    [ItemQuery]: a value whose fields can be read; [query] and
    [researchGoal] are the texts that the template literals make of the two
    fields (the field itself when it is a string, [undefined] for a missing
    field; the research goal is taken to have such a text).  [ItemNull]:
    [null], of which no field can be read, or an element whose [query] has
    no such text, which fails in the same two places. *)
Inductive PlanItem : Type :=
| ItemQuery (serpQuery : SerpQuery)
| ItemNull.

(** What [generateSerpQueries] returns: [parsed.queries.slice(0, numQueries)],
    which is an array when [parsed.queries] is one and a string when it is
    a string. *)
Inductive Plan : Type :=
| PlanArray (items : list PlanItem)
| PlanText (text : string).

(** [ProcessResult] in the source, whose fields are [learnings] and
    [followUpQuestions], as a branch reads it.  The source asserts the type
    and does not check it.  [pr_learnings] and [pr_followUpQuestions] are
    the entries of the two fields: the elements of an array, or the
    characters of a string, which [slice] cuts and [...] spreads as they do
    an array.  [pr_followUpQuestions_array] tells whether
    [followUpQuestions] is an array, which has a [map], or a string, which
    has none.  The entries of the arrays are taken to be strings, as the
    URLs of the search provider are: an entry that is a number, an object
    or [null] is not represented. *)
Record ProcessResult : Type := mkProcessResult {
  pr_learnings : list string;
  pr_followUpQuestions : list string;
  pr_followUpQuestions_array : bool
}.

(** One entry of [SearchResponse.data], with the two fields that are read. *)
Record FirecrawlDocument : Type := mkDocument {
  url : option string;
  markdown : option string
}.

Record SearchResponse : Type := mkSearchResponse {
  data : list FirecrawlDocument
}.

(** The place of a call in the research tree.  An activation of
    [deepResearch] is named by its path: the empty path for the top-level
    call, [path ++ [i]] for the recursive call made by branch [i] of the
    activation [path]. *)
Inductive site : Type :=
| AtPlan (path : list nat)               (** [generateSerpQueries] *)
| AtDigest (path : list nat) (i : nat)   (** [processSerpResult] of branch [i] *)
| AtReport.                              (** [writeFinalReport] *)

(** The outside world. *)
Record World : Type := mkWorld {
  (** js-tiktoken's encoder *)
  encode : string -> list N;
  (** the text splitter of [src/ai/text-splitter.ts] *)
  splitText : Z -> Z -> string -> list string;
  (** [systemPrompt()] of [src/prompt.ts] *)
  systemPrompt : site -> string;
  (** the generative model: the answer to attempt [k] of the request made at
      a site *)
  genAI : site -> nat -> reply;
  (** [Math.random()] in [delay(k)] during the request made at a site *)
  Math_random : site -> nat -> Q;
  (** [firecrawl.search] of branch [i] of the activation [path]: the
      response, or the error thrown (a response without [data] makes the
      branch throw a [TypeError] when it is read, and counts as an error) *)
  firecrawl_search : list nat -> nat -> JS.Error + SearchResponse;
  (** [JSON.parse(s)] as [generateSerpQueries] reads it: [parsed.queries],
      an array or a string; [None] when the inner [try] throws ([JSON.parse]
      throws, [parsed] is [null], or [parsed.queries] has no [length] or no
      [slice]: it is missing, [null], a number, a boolean or an object) *)
  parse_queries : string -> option Plan;
  (** [JSON.parse(s)] as [processSerpResult] reads it: the two fields of
      [parsed]; [None] when the inner [try] throws ([JSON.parse] throws,
      [parsed] is [null], or one of the fields is neither an array nor a
      string) *)
  parse_process : string -> option ProcessResult;
  (** [JSON.parse(s)] as [writeFinalReport] reads it: the text that
      [parsed.reportMarkdown + urlsSection] begins with, which is the field
      itself when it is a string and the text [undefined] when [parsed] has
      no such field; [None] when the inner [try] throws ([JSON.parse]
      throws, or [parsed] is [null]) *)
  parse_report : string -> option string
}.

Definition ConcurrencyLimit : Z := 2.

(** [formatMessages(system, prompt)]. *)
Definition formatMessages (system prompt : string) : list Message :=
  [ mkMessage Providers.system system "system";
    mkMessage Providers.user prompt "user" ].

(** [cleanJsonResponse(content)]. *)
Definition cleanJsonResponse (content : string) : string :=
  (let content :=
    remove_all "```" (remove_all ("```" ++ nl) (remove_all ("```json" ++ nl) content)) in
  collapse is_space (collapse is_newline (trim content)))%string.

Definition lift_option {A} (o : option A) : M A :=
  match o with
  | Some a => ret a
  | None => diverge
  end.

(** [a.map(f)] for an [f] that may not finish. *)
Fixpoint map_option {A B} (f : A -> option B) (a : list A) : option (list B) :=
  match a with
  | [] => Some []
  | x :: a' =>
      match f x, map_option f a' with
      | Some y, Some ys => Some (y :: ys)
      | _, _ => None
      end
  end.

Definition serpPrompt (query : string) (numQueries : Z)
           (learnings : option (list string)) : string :=
  (lines [
    "Please analyze the following prompt and generate SERP queries for research. Format your response as a JSON object containing an array of queries.";
    EmptyString;
    "Prompt: " ++ query;
    EmptyString;
    match learnings with
    | Some learnings => "Previous learnings:" ++ nl ++ join nl learnings
    | None => EmptyString
    end;
    EmptyString;
    "Maximum queries: " ++ of_int numQueries;
    EmptyString;
    "Important: Return ONLY the JSON object without any markdown formatting or code blocks.";
    EmptyString;
    "Example format:";
    "{";
    "  " ++ dq ++ "queries" ++ dq ++ ": [";
    "    {";
    "      " ++ dq ++ "query" ++ dq ++ ": " ++ dq ++ "specific search query 1" ++ dq ++ ",";
    "      " ++ dq ++ "researchGoal" ++ dq ++ ": " ++ dq
      ++ "detailed explanation of what this query aims to find" ++ dq;
    "    }";
    "  ]";
    "}" ])%string.

Definition processPrompt (query : string) (contents : list string)
           (numLearnings numFollowUpQuestions : Z) : string :=
  (lines [
    "Please analyze the following search results and generate learnings and follow-up questions. Format your response as a JSON object.";
    EmptyString;
    "Search Query: " ++ query;
    EmptyString;
    "Contents:";
    join nl (map (fun content => "---" ++ nl ++ content ++ nl ++ "---") contents);
    EmptyString;
    "Maximum learnings: " ++ of_int numLearnings;
    "Maximum follow-up questions: " ++ of_int numFollowUpQuestions;
    EmptyString;
    "Important: Return ONLY the JSON object without any markdown formatting or code blocks.";
    EmptyString;
    "Example format:";
    "{";
    "  " ++ dq ++ "learnings" ++ dq ++ ": [";
    "    " ++ dq ++ "detailed learning point 1" ++ dq ++ ",";
    "    " ++ dq ++ "detailed learning point 2" ++ dq;
    "  ],";
    "  " ++ dq ++ "followUpQuestions" ++ dq ++ ": [";
    "    " ++ dq ++ "specific follow-up question 1" ++ dq ++ ",";
    "    " ++ dq ++ "specific follow-up question 2" ++ dq;
    "  ]";
    "}" ])%string.

Definition reportPrompt (prompt learningsString : string) : string :=
  (lines [
    "Please write a detailed research report based on the following information. Format your response as a JSON object containing the report in markdown format.";
    EmptyString;
    "Research Topic: " ++ prompt;
    EmptyString;
    "Key Findings:";
    learningsString;
    EmptyString;
    "Important: Return ONLY the JSON object without any markdown formatting or code blocks.";
    EmptyString;
    "Example format:";
    "{";
    "  " ++ dq ++ "reportMarkdown" ++ dq ++ ": " ++ dq
      ++ "# Research Report" ++ nl ++ nl
      ++ "[Your detailed report here in markdown format]" ++ dq;
    "}" ])%string.

(** The sources section that [writeFinalReport] appends. *)
Definition urlsSection (visitedUrls : list string) : string :=
  (nl ++ nl ++ "## Sources" ++ nl ++ nl
  ++ join nl (map (fun url => "- " ++ url) visitedUrls))%string.

(** The query of the recursive call. *)
Definition nextQuery (serpQuery : SerpQuery) (newLearnings : ProcessResult) : string :=
  (trim (nl ++ "            Previous research goal: " ++ researchGoal serpQuery
        ++ nl ++ "            Follow-up research directions: "
        ++ join EmptyString (map (fun q => nl ++ q) (pr_followUpQuestions newLearnings))
        ++ nl ++ "          "))%string.

Definition emptyResult : ResearchResult := mkResearchResult [] [].

(** [plan.slice(0, e)]. *)
Definition slice_plan (plan : Plan) (e : Z) : Plan :=
  match plan with
  | PlanArray items => PlanArray (aslice0 items e)
  | PlanText text => PlanText (slice0 text e)
  end.

(** [plan.length]. *)
Definition plan_length (plan : Plan) : nat :=
  match plan with
  | PlanArray items => List.length items
  | PlanText text => String.length text
  end.

(** The queries of a plan that a branch can read, in the order of the
    plan. *)
Definition item_queries (item : PlanItem) : list SerpQuery :=
  match item with
  | ItemQuery serpQuery => [serpQuery]
  | ItemNull => []
  end.

Definition plan_queries (plan : Plan) : list SerpQuery :=
  match plan with
  | PlanArray items => flat_map item_queries items
  | PlanText _ => []
  end.

(** The arguments of a recursive call of [deepResearch]. *)
Record Call : Type := mkCall {
  call_query : string;
  call_breadth : Z;
  call_depth : Z;
  call_learnings : list string;
  call_visitedUrls : list string
}.

Section Orchestrator.

Variable w : World.

(** [o3MiniModel(formatMessages(systemPrompt(), prompt))] at a site. *)
Definition ask (s : site) (prompt : string) : M string :=
  o3MiniModel (genAI w s) (Math_random w s)
    (formatMessages (systemPrompt w s) prompt).

(** [generateSerpQueries({query, numQueries, learnings})]. *)
Definition generateSerpQueries (s : site) (query : string) (numQueries : Z)
           (learnings : option (list string)) : M Plan :=
  let prompt := serpPrompt query numQueries learnings in
  try_catch
    (content <- ask s prompt ;;
     if falsy content then ret (PlanArray [])
     else
       try_catch
         (match parse_queries w (cleanJsonResponse content) with
          | Some queries => ret (slice_plan queries numQueries)
          | None => throw (new_Error "SyntaxError")
          end)
         (fun parseError => ret (PlanArray [])))
    (fun error => ret (PlanArray [])).

(** [processSerpResult({query, result, numLearnings, numFollowUpQuestions})]. *)
Definition processSerpResult (s : site) (query : string) (result : SearchResponse)
           (numLearnings numFollowUpQuestions : Z) : M ProcessResult :=
  contents <- lift_option
    (map_option (fun content => trimPrompt (encode w) (splitText w) content 25000)
                (compact (map markdown (data result)))) ;;
  let prompt := processPrompt query contents numLearnings numFollowUpQuestions in
  try_catch
    (content <- ask s prompt ;;
     if falsy content then ret (mkProcessResult [] [] true)
     else
       try_catch
         (match parse_process w (cleanJsonResponse content) with
          | Some parsed =>
              ret (mkProcessResult
                     (aslice0 (pr_learnings parsed) numLearnings)
                     (aslice0 (pr_followUpQuestions parsed) numFollowUpQuestions)
                     (pr_followUpQuestions_array parsed))
          | None => throw (new_Error "SyntaxError")
          end)
         (fun parseError => ret (mkProcessResult [] [] true)))
    (fun error => ret (mkProcessResult [] [] true)).

(** [writeFinalReport({prompt, learnings, visitedUrls})]. *)
Definition writeFinalReport (prompt : string) (learnings visitedUrls : list string)
  : M string :=
  learningsString <- lift_option
    (trimPrompt (encode w) (splitText w)
       (join nl (map (fun learning => ("- " ++ learning)%string) learnings))
       150000) ;;
  let promptText := reportPrompt prompt learningsString in
  try_catch
    (content <- ask AtReport promptText ;;
     if falsy content then ret "Error: Could not generate report"
     else
       try_catch
         (match parse_report w (cleanJsonResponse content) with
          | Some reportMarkdown =>
              ret (reportMarkdown ++ urlsSection visitedUrls)%string
          | None => throw (new_Error "SyntaxError")
          end)
         (fun parseError =>
            if includes "#" content || includes "##" content
            then ret (content ++ urlsSection visitedUrls)%string
            else ret "Error: Could not parse report"))
    (fun error => ret "Error: Could not generate report").

(** The part of a branch of [deepResearch] that the [try] protects, for a
    query that can be read: the search, the digestion and the decision to
    recurse.  It ends with the result of a leaf ([inr]) or with the
    arguments of the recursive call ([inl]); the promise of the recursive
    call is returned without [await], so the [catch] does not handle its
    rejection.  [depth - 1] is a subtraction of doubles.  The query of the
    recursive call is built with [followUpQuestions.map], after the log
    line: questions that are a string have no [map], and the [TypeError]
    goes to the [catch]. *)
Definition branch_step (path : list nat) (breadth depth : Z)
           (learnings visitedUrls : list string)
           (i : nat) (serpQuery : SerpQuery) : M (Call + ResearchResult) :=
  try_catch
    (emit (EvSearch (query serpQuery)) ;;;
     match firecrawl_search w path i with
     | inl e => throw e
     | inr result =>
         let newUrls := compact (map url (data result)) in
         let newBreadth := Math_ceil_div breadth 2 in
         let newDepth := to_double (depth - 1) in
         newLearnings <- processSerpResult (AtDigest path i) (query serpQuery)
                           result 3 newBreadth ;;
         let allLearnings := learnings ++ pr_learnings newLearnings in
         let allUrls := visitedUrls ++ newUrls in
         if (newDepth >? 0)%Z
         then
           emit (EvDeeper newBreadth newDepth) ;;;
           if pr_followUpQuestions_array newLearnings
           then ret (inl (mkCall (nextQuery serpQuery newLearnings)
                            newBreadth newDepth allLearnings allUrls))
           else throw TypeError
         else ret (inr (mkResearchResult allLearnings allUrls))
     end)
    (fun e => ret (inr emptyResult)).

(** One branch, for a query that can be read: [rec] is [deepResearch] at
    the recursive call. *)
Definition branch (rec : list nat -> Call -> M ResearchResult)
           (path : list nat) (breadth depth : Z)
           (learnings visitedUrls : list string)
           (i : nat) (serpQuery : SerpQuery) : M ResearchResult :=
  step <- branch_step path breadth depth learnings visitedUrls i serpQuery ;;
  match step with
  | inl call => rec (path ++ [i]) call
  | inr result => ret result
  end.

(** One branch, for an element of the plan.  For [null] the first
    statement of the [try] throws when it reads [serpQuery.query], and so
    does the first statement of the [catch]: the branch rejects before any
    call is made. *)
Definition branch_of (rec : list nat -> Call -> M ResearchResult)
           (path : list nat) (breadth depth : Z)
           (learnings visitedUrls : list string)
           (i : nat) (item : PlanItem) : M ResearchResult :=
  match item with
  | ItemQuery serpQuery =>
      branch rec path breadth depth learnings visitedUrls i serpQuery
  | ItemNull => throw TypeError
  end.

(** What [deepResearch] returns from the results of its branches. *)
Definition aggregate (results : list ResearchResult) : ResearchResult :=
  mkResearchResult
    (Set_spread (flat_map learnings results))
    (Set_spread (flat_map visitedUrls results)).

(** The body of [deepResearch].  The limiter [pLimit(ConcurrencyLimit)]
    only decides when a branch starts.  A plan that is a string has no
    [map]: the call rejects with a [TypeError].  A branch that rejects (for
    an element [null], or because its recursive call rejects) makes
    [Promise.all], and so the call, reject. *)
Definition deepResearch_body (rec : list nat -> Call -> M ResearchResult)
           (path : list nat) (c : Call) : M ResearchResult :=
  plan <- generateSerpQueries (AtPlan path) (call_query c)
            (call_breadth c) (Some (call_learnings c)) ;;
  match plan with
  | PlanArray serpQueries =>
      results <- Promise_all_map
                   (branch_of rec path (call_breadth c) (call_depth c)
                      (call_learnings c) (call_visitedUrls c))
                   serpQueries ;;
      ret (aggregate results)
  | PlanText _ => throw TypeError
  end.

(** [deepResearch]; [fuel] bounds the number of nested recursive calls. *)
Fixpoint deepResearch_fuel (fuel : nat) (path : list nat) (c : Call)
  : M ResearchResult :=
  deepResearch_body
    (fun path' c' =>
       match fuel with
       | O => diverge
       | S fuel' => deepResearch_fuel fuel' path' c'
       end)
    path c.


(** The top-level call [deepResearch({query, breadth, depth, learnings,
    visitedUrls})].  A recursive call is made with [depth - 1] and only
    when that is positive, so [depth] nested calls are fuel enough as long
    as the subtraction is exact, which it is up to [2 ^ 53] (see
    [deepResearch_terminates]); for what a call does with any other fuel,
    see [deepResearch_fuel]. *)
Definition deepResearch (query : string) (breadth depth : Z)
           (learnings visitedUrls : list string) : M ResearchResult :=
  deepResearch_fuel (Z.to_nat depth) []
    (mkCall query breadth depth learnings visitedUrls).

End Orchestrator.

(** The arguments of a recursive call that a branch of a call with
    [breadth] and [depth] may ask for: the depth less one, as a double,
    which is positive, and the halved breadth. *)
Definition decayed (breadth depth : Z) (step : Call + ResearchResult) : Prop :=
  match step with
  | inl call =>
      call_depth call = to_double (depth - 1) /\ (0 < call_depth call)%Z
      /\ call_breadth call = Math_ceil_div breadth 2
  | inr _ => True
  end.

(** A plan of the shape that the source asserts: an array of queries that
    can be read. *)
Definition well_shaped (plan : Plan) : Prop :=
  exists serpQueries, plan = PlanArray (map ItemQuery serpQueries).

(** A world in which the model answers the planner with plans of that
    shape: whenever an answer of the model to a planning request can be read
    as JSON, its queries are an array of queries that can be read. *)
Definition plans_well_shaped (w : World) : Prop :=
  forall path k content plan,
    genAI w (AtPlan path) k = Answer content ->
    parse_queries w (cleanJsonResponse content) = Some plan ->
    well_shaped plan.

(** The largest depth from which [depth - 1] is always exact. *)
Definition max_exact_depth : Z := 2 ^ 53.



(** The world [w] with another system prompt. *)
Definition with_systemPrompt (w : World) (prompt : site -> string) : World :=
  {| encode := encode w;
     splitText := splitText w;
     systemPrompt := prompt;
     genAI := genAI w;
     Math_random := Math_random w;
     firecrawl_search := firecrawl_search w;
     parse_queries := parse_queries w;
     parse_process := parse_process w;
     parse_report := parse_report w |}.

(** The world [w] in which the search of branch [i] of the activation
    [path] fails with the error [e]. *)
Definition search_failing (w : World) (path : list nat) (i : nat) (e : JS.Error)
  : World :=
  {| encode := encode w;
     splitText := splitText w;
     systemPrompt := systemPrompt w;
     genAI := genAI w;
     Math_random := Math_random w;
     firecrawl_search := fun path' i' =>
       if list_eq_dec Nat.eq_dec path' path
       then if Nat.eqb i' i then inl e else firecrawl_search w path' i'
       else firecrawl_search w path' i';
     parse_queries := parse_queries w;
     parse_process := parse_process w;
     parse_report := parse_report w |}.

End DeepResearch.

(* ====================================================================== *)
(** ** Stand-ins for the outside world, for concrete runs *)
(* ====================================================================== *)

Module Stub.

Import JS.
Import Providers.
Import DeepResearch.

(** One token for every code unit. *)
Definition encode (s : string) : list N :=
  map (fun _ => 0%N) (list_ascii_of_string s).

(** A splitter that cuts the text after [chunkSize] code units. *)
Definition splitText (chunkSize chunkOverlap : Z) (text : string) : list string :=
  [take (Z.to_nat chunkSize) text].

Fixpoint repeat_string (n : nat) (c : ascii) : string :=
  match n with
  | O => EmptyString
  | S n' => String c (repeat_string n' c)
  end.

Definition throttled : JS.Error := mkError (Some 429%Z) None "Too Many Requests".
Definition unavailable : JS.Error := mkError (Some 503%Z) None "Service Unavailable".

(** A model that signals throttling four times and then answers. *)
Definition four_throttles (k : nat) : reply :=
  if k <? 4 then Failure throttled else Answer "ok".

(** A model that always signals throttling. *)
Definition always_throttled (k : nat) : reply := Failure throttled.

Definition half (k : nat) : Q := 1 # 2.

Definition search_failed : JS.Error :=
  mkError None (Some 429%Z) "Request failed with status code 429".

Definition page (u m : string) : SearchResponse :=
  mkSearchResponse [mkDocument (Some u) (Some m)].

(** JSON texts that the model answers with, and what [JSON.parse] makes of
    them, as the callers read it.  The runs below parse no other JSON text:
    the tables take every other text to be no JSON. *)
Definition quoted (s : string) : string := (dq ++ s ++ dq)%string.

(** [{"queries": [{"query": "q1", "researchGoal": "g1"},
                  {"query": "q2", "researchGoal": "g2"}]}] *)
Definition plan_two : string :=
  ("{" ++ quoted "queries" ++ ": [{" ++ quoted "query" ++ ": " ++ quoted "q1" ++ ", "
   ++ quoted "researchGoal" ++ ": " ++ quoted "g1" ++ "}, {"
   ++ quoted "query" ++ ": " ++ quoted "q2" ++ ", "
   ++ quoted "researchGoal" ++ ": " ++ quoted "g2" ++ "}]}")%string.

(** [{"queries": []}] *)
Definition plan_none : string := ("{" ++ quoted "queries" ++ ": []}")%string.

(** [{"learnings": ["L1"], "followUpQuestions": ["f1"]}] *)
Definition digest_one : string :=
  ("{" ++ quoted "learnings" ++ ": [" ++ quoted "L1" ++ "], "
   ++ quoted "followUpQuestions" ++ ": [" ++ quoted "f1" ++ "]}")%string.

(** [{"learnings": ["L2"], "followUpQuestions": []}] *)
Definition digest_two : string :=
  ("{" ++ quoted "learnings" ++ ": [" ++ quoted "L2" ++ "], "
   ++ quoted "followUpQuestions" ++ ": []}")%string.

(** [{"reportMarkdown": "# R"}] *)
Definition report_R : string :=
  ("{" ++ quoted "reportMarkdown" ++ ": " ++ quoted "# R" ++ "}")%string.

(** [{"queries": "abc"}]: the queries are a string. *)
Definition plan_text : string :=
  ("{" ++ quoted "queries" ++ ": " ++ quoted "abc" ++ "}")%string.

(** [{"queries": [null, {"query": "q2", "researchGoal": "g2"}]}] *)
Definition plan_null : string :=
  ("{" ++ quoted "queries" ++ ": [null, {"
   ++ quoted "query" ++ ": " ++ quoted "q2" ++ ", "
   ++ quoted "researchGoal" ++ ": " ++ quoted "g2" ++ "}]}")%string.

(** [{"learnings": "L1", "followUpQuestions": "f1"}]: the learnings and the
    questions are strings. *)
Definition digest_text : string :=
  ("{" ++ quoted "learnings" ++ ": " ++ quoted "L1" ++ ", "
   ++ quoted "followUpQuestions" ++ ": " ++ quoted "f1" ++ "}")%string.

(** [{"a": 1}]: no field [reportMarkdown]. *)
Definition report_other : string := ("{" ++ quoted "a" ++ ": 1}")%string.

Definition JSON_parse_queries (s : string) : option Plan :=
  if String.eqb s plan_two
  then Some (PlanArray [ItemQuery (mkSerpQuery "q1" "g1");
                        ItemQuery (mkSerpQuery "q2" "g2")])
  else if String.eqb s plan_none then Some (PlanArray [])
  else if String.eqb s plan_text then Some (PlanText "abc")
  else if String.eqb s plan_null
  then Some (PlanArray [ItemNull; ItemQuery (mkSerpQuery "q2" "g2")])
  else None.

Definition JSON_parse_process (s : string) : option ProcessResult :=
  if String.eqb s digest_one then Some (mkProcessResult ["L1"] ["f1"] true)
  else if String.eqb s digest_two then Some (mkProcessResult ["L2"] [] true)
  else if String.eqb s digest_text
  then Some (mkProcessResult ["L"; "1"] ["f"; "1"] false)
  else None.

Definition JSON_parse_report (s : string) : option string :=
  if String.eqb s report_R then Some "# R"
  else if String.eqb s report_other then Some "undefined"
  else None.

(** The planner proposes the queries [q1] and [q2]; both searches find the
    page [https://a]; the digester draws one learning from each.  On every
    other site the model is unavailable and the search fails. *)
Definition two_branches : World :=
  {| DeepResearch.encode := encode;
     DeepResearch.splitText := splitText;
     systemPrompt := fun _ => "You are an expert researcher.";
     genAI := fun s k =>
       match s with
       | AtPlan [] => Answer plan_two
       | AtDigest [] 0 => Answer digest_one
       | AtDigest [] 1 => Answer digest_two
       | AtReport => Answer report_R
       | _ => Failure unavailable
       end;
     Math_random := fun _ _ => 1 # 2;
     firecrawl_search := fun path i =>
       match path, i with
       | [], 0 => inr (page "https://a" "page one")
       | [], 1 => inr (page "https://a" "page two")
       | _, _ => inl search_failed
       end;
     parse_queries := JSON_parse_queries;
     parse_process := JSON_parse_process;
     parse_report := JSON_parse_report |}.

(** As [two_branches], but the search of the second branch fails. *)
Definition second_search_fails : World :=
  search_failing two_branches [] 1 search_failed.

(** As [two_branches], but the planner's answer holds no query. *)
Definition no_queries : World :=
  {| DeepResearch.encode := encode;
     DeepResearch.splitText := splitText;
     systemPrompt := systemPrompt two_branches;
     genAI := fun s k =>
       match s with
       | AtPlan [] => Answer plan_none
       | _ => genAI two_branches s k
       end;
     Math_random := Math_random two_branches;
     firecrawl_search := firecrawl_search two_branches;
     parse_queries := JSON_parse_queries;
     parse_process := JSON_parse_process;
     parse_report := JSON_parse_report |}.

End Stub.

(* ====================================================================== *)
(** ** The other model functions of [src/ai/providers.ts] *)
(* ====================================================================== *)

Module Models.

Import JS.
Import Providers.

Section Request.

Variable upstream : nat -> reply.
Variable Math_random : nat -> Q.

Definition gpt4Config : ModelConfig :=
  mkModelConfig
    (mkGenerationConfig (3 # 10) 8192
       (topK (generationConfig baseConfig))
       (topP (generationConfig baseConfig))
       (candidateCount (generationConfig baseConfig)))
    (safetySettings baseConfig).

(** [gpt4Model(messages)]. *)
Definition gpt4Model (messages : list Message) : M string :=
  try_catch
    (response <- makeModelRequest upstream Math_random messages gpt4Config ;;
     ret response)
    (fun error => handleGoogleAIError Math_random error 0).

Definition gpt4MiniConfig : ModelConfig :=
  mkModelConfig
    (mkGenerationConfig (5 # 10) 4096
       (topK (generationConfig baseConfig))
       (topP (generationConfig baseConfig))
       (candidateCount (generationConfig baseConfig)))
    (safetySettings baseConfig).

(** [gpt4MiniModel(messages)]. *)
Definition gpt4MiniModel (messages : list Message) : M string :=
  try_catch
    (response <- makeModelRequest upstream Math_random messages gpt4MiniConfig ;;
     ret response)
    (fun error => handleGoogleAIError Math_random error 0).

End Request.

(** The wait that [handleGoogleAIError(error)] makes before it throws
    [error] again. *)
Definition last_wait (Math_random : nat -> Q) (r : reply) : list event :=
  match r with
  | Answer _ => []
  | Failure error =>
      if status_is_429 error then [EvSleep (delay_ms (Math_random 0) 0)] else []
  end.

(** What [o3MiniModel] makes of the reply to the last attempt. *)
Definition o3Mini_outcome (r : reply) : outcome string :=
  match r with
  | Answer response =>
      if falsy response
      then Thrown (new_Error "Empty or invalid response from Google AI")
      else Returned response
  | Failure error => Thrown error
  end.

(** The number of times a trace sends a text to the model. *)
Definition sends (t : list event) : nat :=
  List.length
    (filter (fun ev => match ev with EvSend _ _ _ => true | _ => false end) t).

(** The time, in milliseconds, that a trace spends waiting. *)
Definition waited (t : list event) : Q :=
  fold_right (fun ev acc => match ev with EvSleep ms => (ms + acc)%Q | _ => acc end)
             0%Q t.

End Models.

(* ====================================================================== *)
(** ** [src/utils/logging.ts] *)
(* ====================================================================== *)

Module Logging.

Import JS.

(** [formatDuration(ms)], for a whole number of milliseconds. *)
Definition formatDuration (ms : Z) : string :=
  (if (ms <? 1000)%Z then of_int ms ++ "ms"
   else
     let seconds := (ms / 1000)%Z in
     if (seconds <? 60)%Z then of_int seconds ++ "s"
     else
       let minutes := (seconds / 60)%Z in
       let remainingSeconds := (seconds mod 60)%Z in
       of_int minutes ++ "m " ++ of_int remainingSeconds ++ "s")%string.

Definition units : list string := ["B"; "KB"; "MB"; "GB"].

(** The [while (size >= 1024 && unitIndex < units.length - 1)] loop of
    [formatSize].  [left] is the variant [units.length - 1 - unitIndex].
    A division of a double by 1024 is exact, so the sizes are rationals. *)
Fixpoint scale (left : nat) (size : Q) (unitIndex : nat) : Q * nat :=
  match left with
  | O => (size, unitIndex)
  | S left' =>
      if Qle_bool 1024 size && (unitIndex <? List.length units - 1)
      then scale left' (size / 1024)%Q (S unitIndex)
      else (size, unitIndex)
  end.

(** [x.toFixed(1)] for [x] below [10^21]: the tenths nearest to [x], the
    larger of two that are as near; a negative [x] is formatted as its
    opposite after a minus sign. *)
Definition toFixed1 (x : Q) : string :=
  let tenths (y : Q) := Qfloor (y * 10 + (1 # 2))%Q in
  let digits (n : Z) := (of_int (n / 10) ++ "." ++ of_int (n mod 10))%string in
  if Qle_bool 0 x then digits (tenths x)
  else ("-" ++ digits (tenths (- x)%Q))%string.

(** [formatSize(bytes)], for a whole number of bytes. *)
Definition formatSize (bytes : Z) : string :=
  let (size, unitIndex) := scale (List.length units - 1) (inject_Z bytes) 0 in
  (toFixed1 size ++ nth unitIndex units "undefined")%string.

End Logging.

(* ====================================================================== *)
(** ** [src/feedback.ts] *)
(* ====================================================================== *)

Module Feedback.

Import JS.
Import Providers.

Definition is_quote (c : ascii) : bool :=
  let n := nat_of_ascii c in (n =? 34) || (n =? 39).

Fixpoint drop (n : nat) (s : string) : string :=
  match n, s with
  | S n', String _ s' => drop n' s'
  | _, _ => s
  end.

(** [s.endsWith(suffix)]. *)
Fixpoint endsWith (suffix s : string) : bool :=
  if String.eqb s suffix then true
  else match s with
       | EmptyString => false
       | String _ s' => endsWith suffix s'
       end.

(** [q.replace(/[QUOTES]/g, '')], where [QUOTES] are the double and the
    single quote: the quotes are taken out. *)
Fixpoint remove_quotes (s : string) : string :=
  match s with
  | EmptyString => EmptyString
  | String c s' => if is_quote c then remove_quotes s' else String c (remove_quotes s')
  end.

(** The longest prefix of [s] that holds no quote. *)
Fixpoint unquoted_run (s : string) : string :=
  match s with
  | EmptyString => EmptyString
  | String c s' => if is_quote c then EmptyString else String c (unquoted_run s')
  end.

(** The match of the regular expression of the source that begins at the
    first code unit of [s], if there is one.  The expression is a quote
    (double or single), then one code unit or more that are no quotes, then
    a question mark, then a quote.  What follows the question mark must be
    a quote, so the question mark is the last code unit before the next
    quote, and the code units that are no quotes are the whole run before
    it, which is not empty. *)
Definition match_here (s : string) : option string :=
  match s with
  | EmptyString => None
  | String opening s' =>
      if is_quote opening
      then
        let run := unquoted_run s' in
        match drop (String.length run) s' with
        | EmptyString => None
        | String closing _ =>
            if (2 <=? String.length run) && endsWith "?" run
            then Some (String opening (run ++ String closing EmptyString))
            else None
        end
      else None
  end.

(** The matches of the regular expression with the flag [g]: found from
    left to right, the search going on after the end of a match.  [skip]
    counts the code units of the current match that are still to be
    passed. *)
Fixpoint match_all_from (skip : nat) (s : string) : list string :=
  match s with
  | EmptyString => []
  | String c s' =>
      match skip with
      | S k => match_all_from k s'
      | O =>
          match match_here s with
          | Some m => m :: match_all_from (String.length m - 1) s'
          | None => match_all_from 0 s'
          end
      end
  end.

(** [content.match(...)] with that expression and the flag [g]: [null] when
    nothing matches. *)
Definition match_questions (content : string) : option (list string) :=
  match match_all_from 0 content with
  | [] => None
  | ms => Some ms
  end.

(** The questions that the [catch] of [generateFeedback] draws from the
    raw answer. *)
Definition extract_questions (content : string) (numQuestions : Z) : list string :=
  match match_questions content with
  | None => []
  | Some ms =>
      aslice0
        (filter (fun q => endsWith "?" (trim q)) (map remove_quotes ms))
        numQuestions
  end.

Definition feedbackPrompt (query : string) (numQuestions : Z) : string :=
  (lines [
    "Please analyze the following query and generate follow-up questions to clarify the research direction. Format your response as a JSON object with a "
      ++ dq ++ "questions" ++ dq
      ++ " array containing the follow-up questions.";
    EmptyString;
    "Query: " ++ query;
    EmptyString;
    "Maximum number of questions: " ++ of_int numQuestions;
    EmptyString;
    "Important: Return ONLY the JSON object without any markdown formatting or code blocks.";
    EmptyString;
    "Example format:";
    "{";
    "  " ++ dq ++ "questions" ++ dq ++ ": [";
    "    " ++ dq ++ "question 1" ++ dq ++ ",";
    "    " ++ dq ++ "question 2" ++ dq ++ ",";
    "    " ++ dq ++ "question 3" ++ dq;
    "  ]";
    "}" ])%string.

Section Feedback.

(** The model and [Math.random] during the request, [systemPrompt()], and
    [JSON.parse(s)] as [generateFeedback] reads it: [parsed.questions], an
    array, whose entries are taken to be strings; [None] when the inner
    [try] throws before it returns ([JSON.parse] throws, [parsed] is
    [null], or [parsed.questions] is no array: a string has a [slice], but
    no [forEach]). *)
Variable upstream : nat -> reply.
Variable Math_random : nat -> Q.
Variable systemPrompt : string.
Variable parse_questions : string -> option (list string).

(** [generateFeedback({query, numQuestions})].  The file has its own copies
    of [formatMessages] and [cleanJsonResponse], the same as those of
    [src/deep-research.ts]. *)
Definition generateFeedback (query : string) (numQuestions : Z) : M (list string) :=
  let prompt := feedbackPrompt query numQuestions in
  try_catch
    (content <- o3MiniModel upstream Math_random
                  (DeepResearch.formatMessages systemPrompt prompt) ;;
     if falsy content then ret []
     else
       try_catch
         (match parse_questions (DeepResearch.cleanJsonResponse content) with
          | Some questions => ret (aslice0 questions numQuestions)
          | None => throw (new_Error "SyntaxError")
          end)
         (fun parseError =>
            let questions := extract_questions content numQuestions in
            if 0 <? List.length questions then ret questions
            else throw parseError))
    (fun error => ret []).

End Feedback.

(** What the fall-back of [generateFeedback] returns as a question: a text
    of at least two code units that ends with a question mark and holds no
    quote. *)
Definition quoted_question (q : string) : Prop :=
  endsWith "?" q = true
  /\ 2 <= String.length q
  /\ remove_quotes q = q.

(** What a match [m] of the expression in [s] consists of: a quote, a run of
    code units that are no quotes and end with a question mark, a quote. *)
Definition quoted_match_of (s m : string) : Prop :=
  exists opening closing run,
    m = String opening (run ++ String closing EmptyString)
    /\ is_quote opening = true /\ is_quote closing = true
    /\ remove_quotes run = run
    /\ 2 <= String.length run
    /\ endsWith "?" run = true
    /\ includes m s = true.

(** The text [q] stands in [content] between two quotes. *)
Definition stands_quoted (q content : string) : Prop :=
  exists opening closing,
    is_quote opening = true /\ is_quote closing = true
    /\ includes (String opening (q ++ String closing EmptyString)) content = true.

End Feedback.

(* ====================================================================== *)
(** ** Vocabulary for the budgets and the shape of texts *)
(* ====================================================================== *)

Module Budget.

Import JS.
Import DeepResearch.

(** The most calls to the search provider of a research of [levels] levels
    that starts with [breadth]: every level plans at most [breadth]
    queries, and every query goes one level down with half the breadth. *)
Fixpoint search_budget (levels : nat) (breadth : Z) : nat :=
  match levels with
  | O => 0
  | S levels' =>
      Z.to_nat breadth * (1 + search_budget levels' (Math_ceil_div breadth 2))
  end.

(** The levels of a research of a given depth: a depth below 1 is one
    level, as the depth 1 is. *)
Definition levels (depth : Z) : nat := Z.to_nat (Z.max depth 1).

(** What the protected part of a branch that was given the learnings [l]
    and the URLs [u] ends with: the empty result, or a result or a
    recursive call that holds [l] and [u] with what the branch added. *)
Definition accumulating (l u : list string) (step : Call + ResearchResult) : Prop :=
  match step with
  | inl call =>
      exists new newUrls,
        call_learnings call = l ++ new /\ call_visitedUrls call = u ++ newUrls
  | inr r =>
      r = emptyResult
      \/ exists new newUrls, r = mkResearchResult (l ++ new) (u ++ newUrls)
  end.

(** The result [r] holds all of [l] and [u]. *)
Definition holds (l u : list string) (r : ResearchResult) : Prop :=
  incl l (learnings r) /\ incl u (visitedUrls r).

(** The last code unit of a non-empty string is no white space. *)
Fixpoint ends_with_text (s : string) : bool :=
  match s with
  | EmptyString => false
  | String c EmptyString => negb (is_space c)
  | String _ s' => ends_with_text s'
  end.

(** After [previous_space] (a space, or the start of the text), the text
    [s] holds no white space but single spaces, each one between two code
    units that are no white space. *)
Fixpoint spaced (previous_space : bool) (s : string) : bool :=
  match s with
  | EmptyString => negb previous_space
  | String c s' =>
      if is_space c
      then Ascii.eqb c " " && negb previous_space && spaced true s'
      else spaced false s'
  end.

(** A text in the form that [cleanJsonResponse] gives: empty, or words
    parted by single spaces. *)
Definition single_spaced (s : string) : bool :=
  match s with
  | EmptyString => true
  | String _ _ => spaced true s
  end.

(** After [ticks] backticks, the text [s] never brings the number of
    backticks in a row to three. *)
Fixpoint no_fence_from (ticks : nat) (s : string) : bool :=
  match s with
  | EmptyString => true
  | String c s' =>
      if Ascii.eqb c "`" then (ticks <? 2) && no_fence_from (S ticks) s'
      else no_fence_from 0 s'
  end.

(** The code fence of markdown. *)
Definition fence : string := "```".

(** What may follow [k] backticks that were kept: not the rest of a fence. *)
Definition may_follow (k : nat) (s : string) : Prop :=
  match k with
  | 0 => True
  | 1 => String.prefix "``" s = false
  | 2 => String.prefix "`" s = false
  | _ => False
  end.

End Budget.

(* ====================================================================== *)
(** ** More stand-ins for concrete runs *)
(* ====================================================================== *)

Module Samples.

Import JS.
Import Providers.
Import DeepResearch.

(** An answer that is no JSON and quotes two questions. *)
Definition prose_answer : string :=
  ("Here are some questions: " ++ Stub.quoted "What is the scope?"
   ++ ", " ++ Stub.quoted "note" ++ " and 'Which years?'")%string.

Definition answers_prose (k : nat) : reply := Answer prose_answer.

(** [JSON.parse] in the runs of [answers_prose], whose answer is no JSON:
    the table holds no text. *)
Definition no_json (s : string) : option (list string) := None.

(** As [Stub.two_branches], but the synthesizer answers in markdown, not in
    JSON. *)
Definition markdown_report : World :=
  {| DeepResearch.encode := encode Stub.two_branches;
     DeepResearch.splitText := splitText Stub.two_branches;
     systemPrompt := systemPrompt Stub.two_branches;
     genAI := fun s k =>
       match s with
       | AtReport => Answer "# Findings"
       | _ => genAI Stub.two_branches s k
       end;
     Math_random := Math_random Stub.two_branches;
     firecrawl_search := firecrawl_search Stub.two_branches;
     parse_queries := parse_queries Stub.two_branches;
     parse_process := parse_process Stub.two_branches;
     parse_report := parse_report Stub.two_branches |}.

(** The world [w] with another model. *)
Definition answering (w : World) (model : site -> nat -> reply) : World :=
  {| DeepResearch.encode := encode w;
     DeepResearch.splitText := splitText w;
     systemPrompt := systemPrompt w;
     genAI := model;
     Math_random := Math_random w;
     firecrawl_search := firecrawl_search w;
     parse_queries := parse_queries w;
     parse_process := parse_process w;
     parse_report := parse_report w |}.

(** As [Stub.two_branches], but the queries of the plan are a string. *)
Definition text_plan : World :=
  answering Stub.two_branches
    (fun s k =>
       match s with
       | AtPlan [] => Answer Stub.plan_text
       | _ => genAI Stub.two_branches s k
       end).

(** As [Stub.two_branches], but the first element of the plan is [null]. *)
Definition null_item : World :=
  answering Stub.two_branches
    (fun s k =>
       match s with
       | AtPlan [] => Answer Stub.plan_null
       | _ => genAI Stub.two_branches s k
       end).

(** As [Stub.two_branches], but the learnings and the questions that the
    digester of the first branch answers with are strings. *)
Definition text_questions : World :=
  answering Stub.two_branches
    (fun s k =>
       match s with
       | AtDigest [] 0 => Answer Stub.digest_text
       | _ => genAI Stub.two_branches s k
       end).

(** As [Stub.two_branches], but the answer of the synthesizer is a JSON
    object without the field [reportMarkdown]. *)
Definition shapeless_report : World :=
  answering Stub.two_branches
    (fun s k =>
       match s with
       | AtReport => Answer Stub.report_other
       | _ => genAI Stub.two_branches s k
       end).

(** A world in which every call finds something to go on with: at every
    level the planner proposes [q1] and [q2], every search finds a page
    and the digester draws a learning and a question from it. *)
Definition always_deeper : World :=
  {| DeepResearch.encode := Stub.encode;
     DeepResearch.splitText := Stub.splitText;
     systemPrompt := fun _ => "You are an expert researcher.";
     genAI := fun s k =>
       match s with
       | AtPlan _ => Answer Stub.plan_two
       | AtDigest _ _ => Answer Stub.digest_one
       | AtReport => Answer Stub.report_R
       end;
     Math_random := fun _ _ => 1 # 2;
     firecrawl_search := fun _ _ => inr (Stub.page "https://a" "page one");
     parse_queries := Stub.JSON_parse_queries;
     parse_process := Stub.JSON_parse_process;
     parse_report := Stub.JSON_parse_report |}.

(** A depth that is a double and at which [depth - 1] is [depth] again. *)
Definition huge_depth : Z := 2 ^ 54.

End Samples.

(* ====================================================================== *)
(** ** Facts about the primitives *)
(* ====================================================================== *)

Module JSFacts.

Import JS.

Lemma take_length (n : nat) (s : string) :
  String.length (take n s) = Nat.min n (String.length s).
Proof.
  revert s; induction n as [|n IH]; intros [|c s]; simpl; auto.
Qed.

Lemma take_all (n : nat) (s : string) :
  String.length s <= n -> take n s = s.
Proof.
  revert s; induction n as [|n IH]; intros [|c s]; simpl; intros H;
    try reflexivity; try lia.
  rewrite IH by lia; reflexivity.
Qed.

Lemma slice0_length (s : string) (e : Z) :
  (0 <= e)%Z -> String.length (slice0 s e) = Nat.min (Z.to_nat e) (String.length s).
Proof.
  intros He. unfold slice0.
  destruct (Z.ltb_spec e 0); [lia|]. apply take_length.
Qed.

Lemma slice0_all (s : string) (e : Z) :
  (Z.of_nat (String.length s) <= e)%Z -> slice0 s e = s.
Proof.
  intros He. unfold slice0.
  destruct (Z.ltb_spec e 0); [lia|]. apply take_all; lia.
Qed.

Lemma falsy_true (s : string) : falsy s = true -> s = EmptyString.
Proof. destruct s; simpl; congruence. Qed.

Lemma Set_has_In (elems : list string) (x : string) :
  Set_has elems x = true <-> In x elems.
Proof.
  unfold Set_has. rewrite existsb_exists. split.
  - intros (y & Hy & Heq). apply String.eqb_eq in Heq. now subst.
  - intros H. exists x. split; [assumption | apply String.eqb_refl].
Qed.

Lemma Set_add_In (elems : list string) (x y : string) :
  In y (Set_add elems x) <-> In y elems \/ y = x.
Proof.
  unfold Set_add. destruct (Set_has elems x) eqn:E.
  - apply Set_has_In in E. split; [auto | intros [H| ->]; assumption].
  - rewrite in_app_iff. simpl. intuition.
Qed.

Lemma Set_add_NoDup (elems : list string) (x : string) :
  NoDup elems -> NoDup (Set_add elems x).
Proof.
  intros H. unfold Set_add. destruct (Set_has elems x) eqn:E; [assumption|].
  assert (Hx : ~ In x elems).
  { intros Hin. apply Set_has_In in Hin. congruence. }
  clear E. induction H as [|y l Hy Hl IH]; simpl.
  - constructor; [intros [] | constructor].
  - constructor.
    + rewrite in_app_iff. simpl. intros [H1 | [H1 | []]]; [auto|].
      subst. apply Hx. now left.
    + apply IH. intros H1. apply Hx. now right.
Qed.

Lemma fold_Set_add_In (a acc : list string) (y : string) :
  In y (fold_left Set_add a acc) <-> In y acc \/ In y a.
Proof.
  revert acc; induction a as [|x a IH]; intros acc; simpl.
  - intuition.
  - rewrite IH, Set_add_In. intuition.
Qed.

Lemma fold_Set_add_NoDup (a acc : list string) :
  NoDup acc -> NoDup (fold_left Set_add a acc).
Proof.
  revert acc; induction a as [|x a IH]; intros acc H; simpl; [assumption|].
  apply IH, Set_add_NoDup, H.
Qed.

(** [[...new Set(a)]] holds every string of [a], and each of them once. *)
Lemma Set_spread_In (a : list string) (y : string) :
  In y (Set_spread a) <-> In y a.
Proof. unfold Set_spread. rewrite fold_Set_add_In. simpl. intuition. Qed.

Lemma Set_spread_NoDup (a : list string) : NoDup (Set_spread a).
Proof. apply fold_Set_add_NoDup. constructor. Qed.

(** [Math.ceil(n / 2)] in integer arithmetic. *)
Lemma Math_ceil_div_2 (n : Z) : Math_ceil_div n 2 = ((n + 1) / 2)%Z.
Proof.
  unfold Math_ceil_div, Qceiling, Qfloor. simpl.
  rewrite Z.mul_1_r.
  pose proof (Z.div_mod (- n) 2 ltac:(lia)) as H1.
  pose proof (Z.mod_pos_bound (- n) 2 ltac:(lia)) as H2.
  pose proof (Z.div_mod (n + 1) 2 ltac:(lia)) as H3.
  pose proof (Z.mod_pos_bound (n + 1) 2 ltac:(lia)) as H4.
  lia.
Qed.

(** Up to [2 ^ 53] every integer is a double. *)
Lemma to_double_exact (n : Z) : (Z.abs n <= 2 ^ 53)%Z -> to_double n = n.
Proof.
  intros H. unfold to_double. destruct (Z.leb_spec (Z.abs n) (2 ^ 53)); [reflexivity|lia].
Qed.

(** Rounding keeps the sign. *)
Lemma to_double_pos (n : Z) : (0 < to_double n)%Z -> (0 < n)%Z.
Proof.
  unfold to_double. destruct (Z.leb_spec (Z.abs n) (2 ^ 53)) as [_|Hbig]; [trivial|].
  set (ulp := (2 ^ (Z.log2 (Z.abs n) - 52))%Z).
  assert (Hulp : (0 <= ulp)%Z) by (apply Z.pow_nonneg; lia).
  assert (Hq : (0 <= Z.abs n / ulp)%Z) by (apply Z_div_nonneg_nonneg; lia).
  destruct ((ulp <? 2 * (Z.abs n mod ulp))%Z
            || ((2 * (Z.abs n mod ulp) =? ulp)%Z && Z.odd (Z.abs n / ulp)));
    destruct n; simpl Z.sgn; nia.
Qed.

(** The depth of a recursive call is the depth less one, as long as the
    depth is at most [2 ^ 53]. *)
Lemma to_double_pred (depth : Z) :
  (depth <= 2 ^ 53)%Z -> (0 < to_double (depth - 1))%Z ->
  to_double (depth - 1) = (depth - 1)%Z.
Proof.
  intros Hd Hpos. apply to_double_pos in Hpos. apply to_double_exact. lia.
Qed.

End JSFacts.

(* ====================================================================== *)
(** ** Facts about computations *)
(* ====================================================================== *)

Module MFacts.


Lemma bind_Some {A B} (c : M A) (k : A -> M B) t o :
  bind c k = Some (t, o) ->
  (exists e, c = Some (t, Thrown e) /\ o = Thrown e)
  \/ (exists t1 a t2, c = Some (t1, Returned a) /\ k a = Some (t2, o) /\ t = t1 ++ t2).
Proof.
  unfold bind. destruct c as [[t1 [a|e]]|]; try discriminate.
  - destruct (k a) as [[t2 o2]|] eqn:E; try discriminate.
    intros H; inversion H; subst. right. now exists t1, a, t2.
  - intros H; inversion H; subst. left. now exists e.
Qed.

Lemma bind_Returned {A B} (c : M A) (k : A -> M B) t b :
  bind c k = Some (t, Returned b) ->
  exists t1 a t2, c = Some (t1, Returned a) /\ k a = Some (t2, Returned b) /\ t = t1 ++ t2.
Proof.
  intros H. apply bind_Some in H as [(e & _ & He) | H]; [discriminate | exact H].
Qed.

Lemma bind_ret_l {A B} (a : A) (k : A -> M B) : bind (ret a) k = k a.
Proof. unfold bind, ret. destruct (k a) as [[t o]|]; reflexivity. Qed.

Lemma bind_diverges {A B} t (a : A) (k : A -> M B) :
  k a = None -> bind (Some (t, Returned a)) k = None.
Proof. intros H. unfold bind. now rewrite H. Qed.


Lemma returns_ret {A} (a : A) : returns (ret a).
Proof. now exists [], a. Qed.

Lemma returns_bind {A B} (c : M A) (k : A -> M B) :
  returns c -> (forall a, returns (k a)) -> returns (bind c k).
Proof.
  intros (t & a & ->) Hk. destruct (Hk a) as (t' & b & Hb).
  exists (t ++ t'), b. unfold bind. now rewrite Hb.
Qed.

Lemma returns_finishes {A} (c : M A) : returns c -> finishes c.
Proof. intros (t & a & ->). now exists t, (Returned a). Qed.

Lemma finishes_bind {A B} (c : M A) (k : A -> M B) :
  finishes c -> (forall a, finishes (k a)) -> finishes (bind c k).
Proof.
  intros (t & [a|e] & ->) Hk.
  - destruct (Hk a) as (t' & o & Hb). exists (t ++ t'), o. unfold bind. now rewrite Hb.
  - now exists t, (Thrown e).
Qed.

Lemma returns_try_catch {A} (c : M A) (h : JS.Error -> M A) :
  finishes c -> (forall e, returns (h e)) -> returns (try_catch c h).
Proof.
  intros (t & [a|e] & ->) Hh.
  - now exists t, a.
  - destruct (Hh e) as (t' & a & Ha). exists (t ++ t'), a. unfold try_catch.
    now rewrite Ha.
Qed.

Lemma finishes_try_catch {A} (c : M A) (h : JS.Error -> M A) :
  finishes c -> (forall e, finishes (h e)) -> finishes (try_catch c h).
Proof.
  intros (t & [a|e] & ->) Hh.
  - now exists t, (Returned a).
  - destruct (Hh e) as (t' & o & Ho). exists (t ++ t'), o. unfold try_catch.
    now rewrite Ho.
Qed.

Lemma bind_ext {A B} (c : M A) (k1 k2 : A -> M B) :
  (forall t a, c = Some (t, Returned a) -> k1 a = k2 a) -> bind c k1 = bind c k2.
Proof.
  intros H. unfold bind. destruct c as [[t [a|e]]|]; try reflexivity.
  now rewrite (H t a eq_refl).
Qed.

Lemma try_catch_Some {A} (c : M A) (h : JS.Error -> M A) t o :
  try_catch c h = Some (t, o) ->
  (exists a, c = Some (t, Returned a) /\ o = Returned a)
  \/ (exists t1 e t2, c = Some (t1, Thrown e) /\ h e = Some (t2, o) /\ t = t1 ++ t2).
Proof.
  unfold try_catch. destruct c as [[t1 [a|e]]|]; try discriminate.
  - intros H; inversion H; subst. left. now exists a.
  - destruct (h e) as [[t2 o2]|] eqn:E; try discriminate.
    intros H; inversion H; subst. right. now exists t1, e, t2.
Qed.

Lemma yields_ret {A} (P : A -> Prop) (a : A) : P a -> yields P (ret a).
Proof. intros H t b E. inversion E. now subst. Qed.

Lemma yields_throw {A} (P : A -> Prop) e : yields P (throw e).
Proof. intros t b E. discriminate. Qed.

Lemma yields_diverge {A} (P : A -> Prop) : yields P diverge.
Proof. intros t b E. discriminate. Qed.

Lemma yields_bind {A B} (P : B -> Prop) (c : M A) (k : A -> M B) :
  (forall a, yields P (k a)) -> yields P (bind c k).
Proof.
  intros Hk t b E. apply bind_Returned in E as (t1 & a & t2 & _ & E & _).
  eapply Hk, E.
Qed.

Lemma yields_try_catch {A} (P : A -> Prop) (c : M A) (h : JS.Error -> M A) :
  yields P c -> (forall e, yields P (h e)) -> yields P (try_catch c h).
Proof.
  intros Hc Hh t a E.
  apply try_catch_Some in E as [(a' & E & Ho) | (t1 & e & t2 & _ & E & _)].
  - injection Ho as ->. eapply Hc, E.
  - eapply Hh, E.
Qed.

Lemma returns_bind_yields {A B} (P : A -> Prop) (c : M A) (k : A -> M B) :
  returns c -> yields P c -> (forall a, P a -> returns (k a)) -> returns (bind c k).
Proof.
  intros (t & a & E) Hy Hk. destruct (Hk a (Hy _ _ E)) as (t' & b & Hb).
  exists (t ++ t'), b. subst c. unfold bind. now rewrite Hb.
Qed.

Lemma traces_weaken {A} (P Q : event -> Prop) (c : M A) :
  (forall ev, P ev -> Q ev) -> traces P c -> traces Q c.
Proof.
  intros HPQ H t o E. eapply Forall_impl; [exact HPQ | eapply H, E].
Qed.

Lemma traces_ret {A} P (a : A) : traces P (ret a).
Proof. intros t o E. inversion E. constructor. Qed.

Lemma traces_throw {A} P e : traces P (@throw A e).
Proof. intros t o E. inversion E. constructor. Qed.

Lemma traces_diverge {A} P : traces P (@diverge A).
Proof. intros t o E. discriminate. Qed.

Lemma traces_emit (P : event -> Prop) ev : P ev -> traces P (emit ev).
Proof. intros H t o E. inversion E. now repeat constructor. Qed.

Lemma traces_bind {A B} P (c : M A) (k : A -> M B) :
  traces P c -> (forall a, traces P (k a)) -> traces P (bind c k).
Proof.
  intros Hc Hk t o E. apply bind_Some in E as [(e & E & _) | (t1 & a & t2 & E1 & E2 & ->)].
  - eapply Hc, E.
  - apply Forall_app. split; [eapply Hc, E1 | eapply Hk, E2].
Qed.

Lemma traces_try_catch {A} P (c : M A) (h : JS.Error -> M A) :
  traces P c -> (forall e, traces P (h e)) -> traces P (try_catch c h).
Proof.
  intros Hc Hh t o E. unfold try_catch in E.
  destruct c as [[t1 [a|e]]|]; try discriminate.
  - inversion E; subst. eapply Hc. reflexivity.
  - destruct (h e) as [[t2 o2]|] eqn:E2; try discriminate.
    inversion E; subst. apply Forall_app. split; [eapply Hc; reflexivity | eapply Hh, E2].
Qed.

Lemma traces_bind_yields {A B} P (Q : A -> Prop) (c : M A) (k : A -> M B) :
  traces P c -> yields Q c -> (forall a, Q a -> traces P (k a)) -> traces P (bind c k).
Proof.
  intros Hc Hy Hk t o E.
  apply bind_Some in E as [(e & E & _) | (t1 & a & t2 & E1 & E2 & ->)].
  - eapply Hc, E.
  - apply Forall_app. split; [eapply Hc, E1 | eapply Hk, E2]. eapply Hy, E1.
Qed.

Lemma starts_with_bind {A B} ev (c : M A) (k : A -> M B) :
  starts_with ev c -> starts_with ev (bind c k).
Proof.
  intros Hc t o E. apply bind_Some in E as [(e & E & _) | (t1 & a & t2 & E1 & E2 & ->)].
  - eapply Hc, E.
  - destruct (Hc _ _ E1) as (t' & ->). now exists (t' ++ t2).
Qed.

Lemma starts_with_try_catch {A} ev (c : M A) (h : JS.Error -> M A) :
  starts_with ev c -> starts_with ev (try_catch c h).
Proof.
  intros Hc t o E. unfold try_catch in E.
  destruct c as [[t1 [a|e]]|]; try discriminate.
  - inversion E; subst. eapply Hc. reflexivity.
  - destruct (h e) as [[t2 o2]|] eqn:E2; try discriminate.
    inversion E; subst. destruct (Hc _ _ eq_refl) as (t' & ->). now exists (t' ++ t2).
Qed.

Lemma Promise_all_from_cons {A B} (f : nat -> A -> M B) i x a t o :
  Promise_all_from f i (x :: a) = Some (t, o) ->
  exists t1 o1 t2 o2,
    f i x = Some (t1, o1) /\ Promise_all_from f (S i) a = Some (t2, o2)
    /\ t = t1 ++ t2 /\ o = settle o1 o2.
Proof.
  cbn [Promise_all_from]. destruct (f i x) as [[t1 o1]|]; [|discriminate].
  destruct (Promise_all_from f (S i) a) as [[t2 o2]|]; [|discriminate].
  intros H; inversion H; subst. now exists t1, o1, t2, o2.
Qed.

Lemma settle_Returned {B} (o : outcome B) (os : outcome (list B)) rs :
  settle o os = Returned rs ->
  exists r rs', o = Returned r /\ os = Returned rs' /\ rs = r :: rs'.
Proof.
  destruct o as [r|e], os as [rs'|e']; simpl; intros H; inversion H; subst.
  now exists r, rs'.
Qed.

Lemma traces_Promise_all_from {A B} P (f : nat -> A -> M B) :
  (forall i x, traces P (f i x)) ->
  forall a i, traces P (Promise_all_from f i a).
Proof.
  intros Hf. induction a as [|x a IH]; intros i t o H.
  - inversion H. constructor.
  - apply Promise_all_from_cons in H as (t1 & o1 & t2 & o2 & H1 & H2 & -> & _).
    apply Forall_app. split; [eapply Hf, H1 | eapply IH, H2].
Qed.

(** [Promise.all] is fulfilled when every promise is. *)
Lemma returns_Promise_all_from_nth {A B} (f : nat -> A -> M B) :
  forall a i,
    (forall j x, nth_error a j = Some x -> returns (f (i + j) x)) ->
    returns (Promise_all_from f i a).
Proof.
  induction a as [|x a IH]; intros i Hf.
  - apply returns_ret.
  - destruct (Hf 0 x eq_refl) as (t1 & r & H1). rewrite Nat.add_0_r in H1.
    destruct (IH (S i)) as (t2 & rs & H2).
    { intros j y Hy. replace (S i + j) with (i + S j) by lia. now apply Hf. }
    exists (t1 ++ t2), (r :: rs). cbn [Promise_all_from]. now rewrite H1, H2.
Qed.

(** [Promise.all] settles when every promise does. *)
Lemma finishes_Promise_all_from {A B} (f : nat -> A -> M B) :
  (forall i x, finishes (f i x)) ->
  forall a i, finishes (Promise_all_from f i a).
Proof.
  intros Hf. induction a as [|x a IH]; intros i.
  - now exists [], (Returned []).
  - destruct (Hf i x) as (t1 & o1 & H1). destruct (IH (S i)) as (t2 & o2 & H2).
    exists (t1 ++ t2), (settle o1 o2). cbn [Promise_all_from]. now rewrite H1, H2.
Qed.

Lemma Promise_all_from_ext {A B} (f g : nat -> A -> M B) :
  (forall i x, f i x = g i x) ->
  forall a i, Promise_all_from f i a = Promise_all_from g i a.
Proof.
  intros Hfg. induction a as [|x a IH]; intros i; cbn [Promise_all_from];
    [reflexivity|].
  now rewrite Hfg, IH.
Qed.

(** The results of [Promise.all] are those of the elements, each one run
    on its own, in the order of the array. *)
Lemma Promise_all_from_results {A B} (f : nat -> A -> M B) :
  forall a i t rs,
    Promise_all_from f i a = Some (t, Returned rs) ->
    List.length rs = List.length a
    /\ forall j x, nth_error a j = Some x ->
         exists tj rj, f (i + j) x = Some (tj, Returned rj) /\ nth_error rs j = Some rj.
Proof.
  induction a as [|x a IH]; intros i t rs H.
  - inversion H; subst. split; [reflexivity|]. intros [|j] y Hy; discriminate.
  - apply Promise_all_from_cons in H as (t1 & o1 & t2 & o2 & H1 & H2 & -> & Ho).
    symmetry in Ho. apply settle_Returned in Ho as (r & rs' & -> & -> & ->).
    destruct (IH _ _ _ H2) as (Hlen & Hnth).
    split; [simpl; now rewrite Hlen|].
    intros [|j] y Hy; simpl in Hy.
    + inversion Hy; subst. exists t1, r. now rewrite Nat.add_0_r.
    + destruct (Hnth j y Hy) as (tj & rj & Hf & Hj). exists tj, rj.
      split; [|exact Hj]. now replace (i + S j) with (S i + j) by lia.
Qed.

Lemma searched_app (t1 t2 : list event) :
  searched (t1 ++ t2) = searched t1 ++ searched t2.
Proof. apply flat_map_app. Qed.

Lemma searched_no_search (t : list event) :
  Forall no_search t -> searched t = [].
Proof.
  induction 1 as [|ev t Hev _ IH]; [reflexivity|].
  unfold searched in *. simpl. rewrite IH. now destruct ev.
Qed.

Lemma emit_bind_Some {B} ev (k : unit -> M B) t o :
  bind (emit ev) k = Some (t, o) -> exists t', k tt = Some (t', o) /\ t = ev :: t'.
Proof.
  intros H. apply bind_Some in H as [(e & E & _) | (t1 & [] & t2 & E1 & E2 & ->)].
  - discriminate.
  - inversion E1; subst. now exists t2.
Qed.

(** [Promise.all] makes the searches of the elements, in their order,
    whether the elements are fulfilled or not. *)
Lemma Promise_all_from_searched {A B} (f : nat -> A -> M B) (g : A -> list string) :
  (forall i x t o, f i x = Some (t, o) -> searched t = g x) ->
  forall a i t o,
    Promise_all_from f i a = Some (t, o) -> searched t = flat_map g a.
Proof.
  intros Hf. induction a as [|x a IH]; intros i t o H.
  - now inversion H.
  - apply Promise_all_from_cons in H as (t1 & o1 & t2 & o2 & H1 & H2 & -> & _).
    rewrite searched_app, (Hf _ _ _ _ H1), (IH _ _ _ H2). reflexivity.
Qed.

End MFacts.

(* ====================================================================== *)
(** ** The request layer *)
(* ====================================================================== *)

Module ProvidersFacts.

Import JS.
Import Providers.
Import JSFacts.
Import MFacts.

Section Request.

Variable upstream : nat -> reply.
Variable Math_random : nat -> Q.

Lemma retry_trace_0 config text first :
  retry_trace Math_random config text first 0 = [EvSend DEFAULT_MODEL config text].
Proof. reflexivity. Qed.

Lemma retry_trace_S config text first n :
  retry_trace Math_random config text first (S n)
  = EvSend DEFAULT_MODEL config text
    :: EvSleep (delay_ms (Math_random (S first)) (S first))
    :: retry_trace Math_random config text (S first) n.
Proof. reflexivity. Qed.

(** The loop, started at [retryCount] with its variant, stops at the first
    attempt [n] whose reply is not a throttling signal, or at the attempt
    [MAX_RETRIES]. *)
Lemma request_loop_spec config text :
  forall left retryCount,
    retryCount + left = MAX_RETRIES + 1 -> 0 < left ->
    exists n,
      retryCount <= n <= MAX_RETRIES
      /\ (forall k, retryCount <= k < n -> throttling (upstream k) = true)
      /\ (n < MAX_RETRIES -> throttling (upstream n) = false)
      /\ request_loop upstream Math_random config text left retryCount
         = Some (retry_trace Math_random config text retryCount (n - retryCount),
                 final_outcome (upstream n)).
Proof.
  induction left as [|left IH]; intros k Hk Hpos; [lia|].
  simpl request_loop.
  destruct (upstream k) as [response | error] eqn:Ek.
  - exists k. rewrite Ek, Nat.sub_diag. repeat split; lia.
  - unfold try_catch, bind, emit, throw.
    destruct (status_is_429 error && (k <? MAX_RETRIES)) eqn:Etest.
    + apply andb_prop in Etest as [E429 Elt]. apply Nat.ltb_lt in Elt.
      destruct (IH (S k)) as (n & Hn & Hthr & Hstop & Hrun); [lia | lia |].
      exists n. repeat split; try lia.
      * intros j Hj. destruct (Nat.eq_dec j k) as [->|Hne].
        -- rewrite Ek. exact E429.
        -- apply Hthr. lia.
      * exact Hstop.
      * unfold delay, emit. rewrite Hrun. simpl.
        replace (n - k) with (S (n - S k)) by lia.
        rewrite retry_trace_S. reflexivity.
    + exists k. rewrite Ek, Nat.sub_diag. repeat split; try lia.
      intros Hlt. simpl.
      apply andb_false_iff in Etest as [E|E]; [exact E|].
      apply Nat.ltb_ge in E. lia.
Qed.

Lemma request_loop_finishes config text :
  finishes (request_loop upstream Math_random config text (MAX_RETRIES + 1) 0).
Proof.
  destruct (request_loop_spec config text (MAX_RETRIES + 1) 0) as (n & _ & _ & _ & H);
    [reflexivity | unfold MAX_RETRIES; lia |].
  rewrite H. now eexists _, _.
Qed.

Lemma makeModelRequest_finishes messages config :
  finishes (makeModelRequest upstream Math_random messages config).
Proof.
  unfold makeModelRequest. destruct (last_message messages).
  - apply request_loop_finishes.
  - now eexists _, _.
Qed.

Lemma handleGoogleAIError_finishes error retryCount :
  finishes (handleGoogleAIError Math_random error retryCount).
Proof.
  unfold handleGoogleAIError.
  destruct (status_is_429 error && (retryCount <? MAX_RETRIES)); now eexists _, _.
Qed.

Lemma o3MiniModel_finishes messages :
  finishes (o3MiniModel upstream Math_random messages).
Proof.
  unfold o3MiniModel. apply finishes_try_catch.
  - apply finishes_bind; [apply makeModelRequest_finishes|].
    intros a. destruct (falsy a); now eexists _, _.
  - intros e. apply handleGoogleAIError_finishes.
Qed.

Lemma last_message_snoc (messages : list Message) (m : Message) :
  last_message (messages ++ [m]) = Some m.
Proof.
  unfold last_message. rewrite length_app. simpl.
  rewrite nth_error_app2 by lia.
  replace (List.length messages + 1 - 1 - List.length messages) with 0 by lia.
  reflexivity.
Qed.

Lemma request_loop_S config text left retryCount :
  request_loop upstream Math_random config text (S left) retryCount
  = try_catch
      (bind (emit (EvSend DEFAULT_MODEL config text))
         (fun _ => match upstream retryCount with
                   | Answer response => ret response
                   | Failure error => throw error
                   end))
      (fun error =>
         if status_is_429 error && (retryCount <? MAX_RETRIES)
         then bind (delay Math_random (S retryCount))
                (fun _ => request_loop upstream Math_random config text left
                            (S retryCount))
         else throw error).
Proof. reflexivity. Qed.

Lemma request_loop_traces config text :
  forall left retryCount,
    traces model_event (request_loop upstream Math_random config text left retryCount).
Proof.
  induction left as [|left IH]; intros k.
  - apply traces_throw.
  - rewrite request_loop_S. apply traces_try_catch.
    + apply traces_bind; [now apply traces_emit|].
      intros _. destruct (upstream k); [apply traces_ret | apply traces_throw].
    + intros e. destruct (status_is_429 e && (k <? MAX_RETRIES)).
      * apply traces_bind; [now apply traces_emit | intros _; apply IH].
      * apply traces_throw.
Qed.

Lemma makeModelRequest_traces messages config :
  traces model_event (makeModelRequest upstream Math_random messages config).
Proof.
  unfold makeModelRequest. destruct (last_message messages).
  - apply request_loop_traces.
  - apply traces_throw.
Qed.

Lemma o3MiniModel_traces messages :
  traces model_event (o3MiniModel upstream Math_random messages).
Proof.
  unfold o3MiniModel. apply traces_try_catch.
  - apply traces_bind; [apply makeModelRequest_traces|].
    intros a. destruct (falsy a); [apply traces_throw | apply traces_ret].
  - intros e. unfold handleGoogleAIError.
    destruct (status_is_429 e && (0 <? MAX_RETRIES)).
    + apply traces_bind; [now apply traces_emit | intros _; apply traces_throw].
    + apply traces_throw.
Qed.

(** [o3MiniModel] returns no empty answer: it throws instead. *)
(** What [o3MiniModel] returns is an answer of the model. *)
Lemma o3MiniModel_answer messages :
  yields (fun response => exists k, upstream k = Answer response)
    (o3MiniModel upstream Math_random messages).
Proof.
  unfold o3MiniModel. apply yields_try_catch.
  - intros t response E.
    apply bind_Returned in E as (t1 & a & t2 & E1 & E2 & _).
    destruct (falsy a); [discriminate E2|]. inversion E2; subst.
    unfold makeModelRequest in E1.
    destruct (last_message messages) as [m|]; [|discriminate E1].
    destruct (request_loop_spec o3MiniConfig (content m) (MAX_RETRIES + 1) 0)
      as (n & _ & _ & _ & Hrun); [reflexivity | unfold MAX_RETRIES; lia |].
    rewrite Hrun in E1. exists n.
    destruct (upstream n) as [r|e]; simpl in E1; [now inversion E1 | discriminate E1].
  - intros e. unfold handleGoogleAIError.
    destruct (status_is_429 e && (0 <? MAX_RETRIES)).
    + apply yields_bind. intros _. apply yields_throw.
    + apply yields_throw.
Qed.

Lemma o3MiniModel_nonempty messages :
  yields (fun response => falsy response = false)
    (o3MiniModel upstream Math_random messages).
Proof.
  unfold o3MiniModel. apply yields_try_catch.
  - apply yields_bind. intros a. destruct (falsy a) eqn:E;
      [apply yields_throw | now apply yields_ret].
  - intros e. unfold handleGoogleAIError.
    destruct (status_is_429 e && (0 <? MAX_RETRIES)).
    + apply yields_bind. intros _. apply yields_throw.
    + apply yields_throw.
Qed.

Lemma starts_with_emit ev k :
  starts_with (A := string) ev (bind (emit ev) k).
Proof.
  intros t o E. apply bind_Some in E as [(e & E & _) | (t1 & a & t2 & E1 & E2 & ->)].
  - discriminate.
  - inversion E1; subst. now exists t2.
Qed.

(** A request on a non-empty list of messages begins with the attempt to
    send the content of the last one. *)
Lemma o3MiniModel_starts messages m :
  starts_with (EvSend DEFAULT_MODEL o3MiniConfig (content m))
    (o3MiniModel upstream Math_random (messages ++ [m])).
Proof.
  unfold o3MiniModel. apply starts_with_try_catch, starts_with_bind.
  unfold makeModelRequest. rewrite last_message_snoc.
  change (MAX_RETRIES + 1) with (S MAX_RETRIES). rewrite request_loop_S.
  apply starts_with_try_catch, starts_with_emit.
Qed.

End Request.

(** The waiting time of [delay(retryCount)] is the capped exponential delay
    plus a jitter of less than a second. *)
Lemma delay_ms_bounds (random : Q) (retryCount : nat) :
  (0 <= random)%Q -> (random < 1)%Q ->
  (inject_Z (exponentialDelay retryCount) <= delay_ms random retryCount)%Q
  /\ (delay_ms random retryCount < inject_Z (exponentialDelay retryCount) + 1000)%Q.
Proof.
  intros H0 H1. unfold delay_ms. split.
  - rewrite <- (Qplus_0_r (inject_Z (exponentialDelay retryCount))) at 1.
    apply Qplus_le_r. apply Qmult_le_0_compat; [assumption | discriminate].
  - apply Qplus_lt_r.
    setoid_replace (1000 : Q) with (1 * 1000)%Q at 2 by reflexivity.
    apply Qmult_lt_r; [reflexivity | assumption].
Qed.

(** C6.  Whatever the model answers, a request on a non-empty list of
    messages makes [n + 1] attempts for some [n <= MAX_RETRIES = 5], and
    - the attempts [0..n-1] all got a throttling signal (status 429): a
      retry is made only after such a signal;
    - the [k]-th retry is preceded by a wait of
      [min(INITIAL_RETRY_DELAY * 2^k, MAX_RETRY_DELAY)] milliseconds plus the
      jitter [Math.random() * 1000], for [k = 1..n];
    - unless all [MAX_RETRIES] retries were used, attempt [n] did not get a
      throttling signal: an answer or any other error ends the request at
      once;
    - the caller gets the reply to attempt [n] as it is: the whole answer,
      or the error thrown, which after [MAX_RETRIES] retries that were all
      throttled is the throttling error itself. *)
Theorem makeModelRequest_retry_policy
        (upstream : nat -> reply) (Math_random : nat -> Q)
        (messages : list Message) (m : Message) (config : ModelConfig) :
  exists n,
    n <= MAX_RETRIES
    /\ (forall k, k < n -> throttling (upstream k) = true)
    /\ (n < MAX_RETRIES -> throttling (upstream n) = false)
    /\ makeModelRequest upstream Math_random (messages ++ [m]) config
       = Some (retry_trace Math_random config (content m) 0 n,
               final_outcome (upstream n))
    /\ (forall k, delay_ms (Math_random k) k
                  = (inject_Z (Z.min (INITIAL_RETRY_DELAY * 2 ^ Z.of_nat k)
                                     MAX_RETRY_DELAY)
                     + Math_random k * 1000)%Q).
Proof.
  unfold makeModelRequest. rewrite last_message_snoc.
  destruct (request_loop_spec upstream Math_random config (content m)
              (MAX_RETRIES + 1) 0) as (n & Hn & Hthr & Hstop & Hrun);
    [reflexivity | unfold MAX_RETRIES; lia |].
  exists n. rewrite Nat.sub_0_r in Hrun. repeat split.
  - lia.
  - intros k Hk. apply Hthr. lia.
  - exact Hstop.
  - exact Hrun.
Qed.

(** The scenario of the specification: four throttling signals, then an
    answer.  The answer comes after exactly four retries, and the waits are
    those of the retries 1 to 4. *)
Example four_throttles_then_answer :
  makeModelRequest Stub.four_throttles Stub.half
    (DeepResearch.formatMessages "s" "p") o3MiniConfig
  = Some (retry_trace Stub.half o3MiniConfig "p" 0 4, Returned "ok")
  /\ map (fun k => exponentialDelay k) [1; 2; 3; 4]
     = [6000; 12000; 15000; 15000]%Z.
Proof. split; reflexivity. Qed.

(** When every attempt is throttled, [o3MiniModel] gives up after six
    attempts and throws the throttling error. *)
Example always_throttled_gives_up :
  exists t,
    o3MiniModel Stub.always_throttled Stub.half (DeepResearch.formatMessages "s" "p")
    = Some (t, Thrown Stub.throttled)
    /\ List.length (filter (fun ev => match ev with EvSend _ _ _ => true | _ => false end) t)
       = 6.
Proof. eexists. split; reflexivity. Qed.

(** A request reads the messages only through the content of the last
    one. *)
Lemma makeModelRequest_last upstream Math_random
      (messages1 messages2 : list Message) (config : ModelConfig) :
  option_map content (last_message messages1)
  = option_map content (last_message messages2) ->
  makeModelRequest upstream Math_random messages1 config
  = makeModelRequest upstream Math_random messages2 config.
Proof.
  intros H. unfold makeModelRequest.
  destruct (last_message messages1) as [m1|], (last_message messages2) as [m2|];
    simpl in H; try discriminate; [|reflexivity].
  now injection H as ->.
Qed.

(** The text that [o3MiniModel(formatMessages(system, prompt))] sends does
    not depend on [system]. *)
Lemma o3MiniModel_ignores_system upstream Math_random (system1 system2 prompt : string) :
  o3MiniModel upstream Math_random (DeepResearch.formatMessages system1 prompt)
  = o3MiniModel upstream Math_random (DeepResearch.formatMessages system2 prompt).
Proof. reflexivity. Qed.

End ProvidersFacts.

(* ====================================================================== *)
(** ** The prompt trimmer *)
(* ====================================================================== *)

Module TrimFacts.

Import JS.
Import Providers.
Import JSFacts.

Section Trim.

Variable encode : string -> list N.
Variable splitText : Z -> Z -> string -> list string.

(** The text of the function, for any amount of fuel. *)
Lemma trimPrompt_fuel_eq (fuel : nat) (prompt : string) (contextSize : Z) :
  trimPrompt_fuel encode splitText fuel prompt contextSize
  = if falsy prompt then Some EmptyString
    else
      let length := Z.of_nat (List.length (encode prompt)) in
      if (length <=? contextSize)%Z then Some prompt
      else
        let overflowTokens := (length - contextSize)%Z in
        let chunkSize := (Z.of_nat (String.length prompt) - overflowTokens * 3)%Z in
        if (chunkSize <? MinChunkSize)%Z then Some (slice0 prompt MinChunkSize)
        else
          let trimmedPrompt := hd EmptyString (splitText chunkSize 200 prompt) in
          match fuel with
          | O => None
          | S fuel' =>
              if String.length trimmedPrompt =? String.length prompt
              then trimPrompt_fuel encode splitText fuel' (slice0 prompt chunkSize) contextSize
              else trimPrompt_fuel encode splitText fuel' trimmedPrompt contextSize
          end.
Proof. destruct fuel; reflexivity. Qed.

(** A hard truncation to [MinChunkSize] is left as it is by the trimmer:
    it fits, or it overflows and is truncated to itself. *)
Lemma trimPrompt_fuel_short (fuel : nat) (r : string) (contextSize : Z) :
  (Z.of_nat (String.length r) <= MinChunkSize)%Z ->
  trimPrompt_fuel encode splitText fuel r contextSize = Some r.
Proof.
  intros Hlen. rewrite trimPrompt_fuel_eq.
  destruct (falsy r) eqn:Er.
  - apply falsy_true in Er. now subst.
  - cbv zeta.
    destruct (Z.leb_spec (Z.of_nat (List.length (encode r))) contextSize) as [|Hover];
      [reflexivity|].
    destruct (Z.ltb_spec
                (Z.of_nat (String.length r)
                 - (Z.of_nat (List.length (encode r)) - contextSize) * 3)
                MinChunkSize) as [|Hbig]; [|lia].
    now rewrite slice0_all.
Qed.

(** What the trimmer returns, the trimmer returns unchanged. *)
Lemma trimPrompt_fuel_fixed (contextSize : Z) :
  forall fuel prompt r,
    trimPrompt_fuel encode splitText fuel prompt contextSize = Some r ->
    forall fuel', trimPrompt_fuel encode splitText fuel' r contextSize = Some r.
Proof.
  induction fuel as [|fuel IH]; intros prompt r H fuel';
    rewrite trimPrompt_fuel_eq in H; cbv zeta in H.
  all: destruct (falsy prompt) eqn:Ep;
    [ injection H as <-; now rewrite trimPrompt_fuel_eq |].
  all: destruct (Z.leb_spec (Z.of_nat (List.length (encode prompt))) contextSize)
    as [Hfit|Hover];
    [ injection H as <-; rewrite trimPrompt_fuel_eq, Ep; cbv zeta;
      destruct (Z.leb_spec (Z.of_nat (List.length (encode prompt))) contextSize);
      [reflexivity | lia] |].
  all: destruct (Z.ltb_spec
                   (Z.of_nat (String.length prompt)
                    - (Z.of_nat (List.length (encode prompt)) - contextSize) * 3)
                   MinChunkSize) as [Hsmall|Hbig];
    [ injection H as <-; apply trimPrompt_fuel_short;
      unfold MinChunkSize; rewrite slice0_length by lia; lia |].
  - discriminate.
  - destruct (String.length _ =? String.length prompt); eapply IH; exact H.
Qed.

(** The trimmer finishes when the splitter does not lengthen the text. *)
Lemma trimPrompt_fuel_total (contextSize : Z) :
  splitter_shrinks splitText ->
  forall fuel prompt,
    String.length prompt <= fuel ->
    exists r, trimPrompt_fuel encode splitText fuel prompt contextSize = Some r.
Proof.
  intros Hsplit.
  induction fuel as [|fuel IH]; intros prompt Hlen;
    rewrite trimPrompt_fuel_eq; cbv zeta.
  all: destruct (falsy prompt) eqn:Ep; [now eexists|].
  all: destruct (Z.leb_spec (Z.of_nat (List.length (encode prompt))) contextSize)
    as [Hfit|Hover]; [now eexists|].
  all: destruct (Z.ltb_spec
                   (Z.of_nat (String.length prompt)
                    - (Z.of_nat (List.length (encode prompt)) - contextSize) * 3)
                   MinChunkSize) as [Hsmall|Hbig]; [now eexists|].
  - unfold MinChunkSize in Hbig. lia.
  - set (chunkSize := (Z.of_nat (String.length prompt)
                       - (Z.of_nat (List.length (encode prompt)) - contextSize) * 3)%Z)
      in *.
    destruct (Nat.eqb_spec
                (String.length (hd EmptyString (splitText chunkSize 200 prompt)))
                (String.length prompt)) as [Heq|Hne].
    + apply IH. unfold MinChunkSize in Hbig.
      rewrite slice0_length by lia. subst chunkSize. lia.
    + apply IH.
      pose proof (Hsplit chunkSize 200%Z prompt). lia.
Qed.

Lemma trimPrompt_total (prompt : string) (contextSize : Z) :
  splitter_shrinks splitText ->
  exists r, trimPrompt encode splitText prompt contextSize = Some r.
Proof.
  intros Hsplit. now apply trimPrompt_fuel_total.
Qed.

End Trim.

Lemma Stub_splitter_shrinks : splitter_shrinks Stub.splitText.
Proof.
  intros chunkSize chunkOverlap text. unfold Stub.splitText. simpl.
  rewrite take_length. lia.
Qed.

(** C7.  With a splitter that does not lengthen the text, the trimmer
    returns, and trimming what it returned to the same bound returns it
    again: [trimPrompt(trimPrompt(x, N), N) = trimPrompt(x, N)]. *)
Theorem trimPrompt_idempotent
        (encode : string -> list N) (splitText : Z -> Z -> string -> list string)
        (x : string) (N : Z) :
  splitter_shrinks splitText ->
  exists r,
    trimPrompt encode splitText x N = Some r
    /\ trimPrompt encode splitText r N = Some r.
Proof.
  intros Hsplit.
  destruct (trimPrompt_total encode splitText x N Hsplit) as (r & Hr).
  exists r. split; [exact Hr|].
  eapply trimPrompt_fuel_fixed. exact Hr.
Qed.

(** A text of 3000 code units against a bound of 2900 tokens: the first
    call cuts it to 2700 code units and recurses. *)
Lemma trimPrompt_idempotent_witness :
  splitter_shrinks Stub.splitText
  /\ exists r,
       trimPrompt Stub.encode Stub.splitText (Stub.repeat_string 3000 "a") 2900 = Some r
       /\ trimPrompt Stub.encode Stub.splitText r 2900 = Some r.
Proof.
  split; [exact Stub_splitter_shrinks|].
  apply (trimPrompt_idempotent Stub.encode Stub.splitText
           (Stub.repeat_string 3000 "a") 2900).
  exact Stub_splitter_shrinks.
Defined.

Example trimPrompt_cuts :
  option_map String.length
    (trimPrompt Stub.encode Stub.splitText (Stub.repeat_string 3000 "a") 2900)
  = Some 2700.
Proof. vm_compute. reflexivity. Qed.

(** The hard truncation may not fit the bound, and is a fixed point all the
    same. *)
Example trimPrompt_truncation :
  let r := Stub.repeat_string 2000 "a" in
  trimPrompt Stub.encode Stub.splitText (Stub.repeat_string 5000 "a") 10 = Some r
  /\ trimPrompt Stub.encode Stub.splitText r 10 = Some r.
Proof. vm_compute. split; reflexivity. Qed.

End TrimFacts.

(* ====================================================================== *)
(** ** The orchestrator *)
(* ====================================================================== *)

Module OrchestratorFacts.

Import JS.
Import Providers.
Import DeepResearch.
Import JSFacts.
Import MFacts.
Import ProvidersFacts.
Import TrimFacts.

Section World.

Variable w : World.

(** *** Requests to the model *)

Lemma ask_finishes s prompt : finishes (ask w s prompt).
Proof. apply o3MiniModel_finishes. Qed.

Lemma ask_traces s prompt : traces model_event (ask w s prompt).
Proof. apply o3MiniModel_traces. Qed.

Lemma ask_starts s prompt :
  starts_with (EvSend DEFAULT_MODEL o3MiniConfig prompt) (ask w s prompt).
Proof.
  unfold ask, formatMessages.
  apply (o3MiniModel_starts (genAI w s) (Math_random w s)
           [mkMessage system (systemPrompt w s) "system"]
           (mkMessage user prompt "user")).
Qed.

(** *** The planner *)

Lemma generateSerpQueries_returns s query numQueries learnings :
  returns (generateSerpQueries w s query numQueries learnings).
Proof.
  unfold generateSerpQueries. apply returns_try_catch.
  - apply finishes_bind; [apply ask_finishes|].
    intros content. apply returns_finishes.
    destruct (falsy content); [apply returns_ret|].
    apply returns_try_catch; [| intros; apply returns_ret].
    destruct (parse_queries w _); now eexists _, _.
  - intros; apply returns_ret.
Qed.

Lemma generateSerpQueries_traces s query numQueries learnings :
  traces model_event (generateSerpQueries w s query numQueries learnings).
Proof.
  unfold generateSerpQueries. apply traces_try_catch.
  - apply traces_bind; [apply ask_traces|].
    intros content. destruct (falsy content); [apply traces_ret|].
    apply traces_try_catch; [| intros; apply traces_ret].
    destruct (parse_queries w _); [apply traces_ret | apply traces_throw].
  - intros; apply traces_ret.
Qed.

Lemma generateSerpQueries_starts s query numQueries learnings :
  starts_with
    (EvSend DEFAULT_MODEL o3MiniConfig (serpPrompt query numQueries learnings))
    (generateSerpQueries w s query numQueries learnings).
Proof.
  unfold generateSerpQueries.
  apply starts_with_try_catch, starts_with_bind, ask_starts.
Qed.

(** *** The digester *)

Lemma map_option_total {A B} (f : A -> option B) (a : list A) :
  (forall x, exists y, f x = Some y) -> exists b, map_option f a = Some b.
Proof.
  intros Hf. induction a as [|x a (b & IH)]; simpl; [now eexists|].
  destruct (Hf x) as (y & ->). rewrite IH. now eexists.
Qed.

Lemma processSerpResult_returns s query result numLearnings numFollowUpQuestions :
  splitter_shrinks (splitText w) ->
  returns (processSerpResult w s query result numLearnings numFollowUpQuestions).
Proof.
  intros Hsplit. unfold processSerpResult.
  destruct (map_option_total
              (fun content => trimPrompt (encode w) (splitText w) content 25000)
              (compact (map markdown (data result)))) as (contents & ->).
  { intros x. now apply trimPrompt_total. }
  apply returns_bind; [apply returns_ret|]. intros contents'.
  apply returns_try_catch.
  - apply finishes_bind; [apply ask_finishes|].
    intros content. apply returns_finishes.
    destruct (falsy content); [apply returns_ret|].
    apply returns_try_catch; [| intros; apply returns_ret].
    destruct (parse_process w _); now eexists _, _.
  - intros; apply returns_ret.
Qed.

Lemma processSerpResult_traces s query result numLearnings numFollowUpQuestions :
  traces model_event
    (processSerpResult w s query result numLearnings numFollowUpQuestions).
Proof.
  unfold processSerpResult. apply traces_bind.
  - destruct (map_option _ _); [apply traces_ret | apply traces_diverge].
  - intros contents. apply traces_try_catch.
    + apply traces_bind; [apply ask_traces|].
      intros content. destruct (falsy content); [apply traces_ret|].
      apply traces_try_catch; [| intros; apply traces_ret].
      destruct (parse_process w _); [apply traces_ret | apply traces_throw].
    + intros; apply traces_ret.
Qed.

(** *** One branch *)

(** A branch asks for a recursive call only with the depth less one, when
    that is positive, and with the halved breadth. *)
Lemma branch_step_decayed path breadth depth learnings visitedUrls i serpQuery :
  yields (decayed breadth depth)
    (branch_step w path breadth depth learnings visitedUrls i serpQuery).
Proof.
  unfold branch_step. apply yields_try_catch.
  - apply yields_bind. intros _.
    destruct (firecrawl_search w path i) as [e|result]; [apply yields_throw|].
    apply yields_bind. intros newLearnings.
    destruct (to_double (depth - 1) >? 0)%Z eqn:E.
    + apply yields_bind. intros _.
      destruct (pr_followUpQuestions_array newLearnings); [|apply yields_throw].
      apply yields_ret. simpl. apply Z.gtb_lt in E. auto.
    + apply yields_ret. exact I.
  - intros e. apply yields_ret. exact I.
Qed.

(** Within the doubles that are exact, the depth of the recursive call is
    below the depth of the call. *)
Lemma decayed_below breadth depth call :
  (depth <= max_exact_depth)%Z -> decayed breadth depth (inl call) ->
  call_depth call = (depth - 1)%Z /\ (0 < call_depth call < depth)%Z.
Proof.
  intros Hd (E1 & E2 & _). rewrite E1 in E2.
  rewrite E1, (to_double_pred depth Hd E2). apply to_double_pos in E2. lia.
Qed.

(** The protected part of a branch never throws. *)
Lemma branch_step_returns path breadth depth learnings visitedUrls i serpQuery :
  splitter_shrinks (splitText w) ->
  returns (branch_step w path breadth depth learnings visitedUrls i serpQuery).
Proof.
  intros Hsplit. unfold branch_step. apply returns_try_catch.
  - apply finishes_bind; [now eexists _, _|]. intros _.
    destruct (firecrawl_search w path i) as [e|result]; [now eexists _, _|].
    apply finishes_bind;
      [now apply returns_finishes, processSerpResult_returns|].
    intros newLearnings. destruct (to_double (depth - 1) >? 0)%Z.
    + apply finishes_bind; [now eexists _, _|]. intros _.
      destruct (pr_followUpQuestions_array newLearnings); now eexists _, _.
    + now eexists _, _.
  - intros e. apply returns_ret.
Qed.

(** The events of the protected part of a branch: one search, the
    requests of the digester, and the announcement of the recursive
    call. *)
Lemma branch_step_traces path breadth depth learnings visitedUrls i serpQuery :
  (depth <= max_exact_depth)%Z ->
  traces (deeper_below depth)
    (branch_step w path breadth depth learnings visitedUrls i serpQuery).
Proof.
  intros Hd. unfold branch_step. apply traces_try_catch.
  - apply traces_bind; [now apply traces_emit|]. intros _.
    destruct (firecrawl_search w path i) as [e|result]; [apply traces_throw|].
    apply traces_bind.
    + eapply traces_weaken; [|apply processSerpResult_traces].
      intros [] H; simpl in *; tauto.
    + intros newLearnings. destruct (to_double (depth - 1) >? 0)%Z eqn:E.
      * apply traces_bind.
        -- apply traces_emit. simpl. apply Z.gtb_lt in E.
           rewrite (to_double_pred depth Hd E). apply to_double_pos in E. lia.
        -- intros _. destruct (pr_followUpQuestions_array newLearnings);
             [apply traces_ret | apply traces_throw].
      * apply traces_ret.
  - intros e. apply traces_ret.
Qed.



(** The recursive call of a branch is the only use it makes of
    [deepResearch]. *)
Lemma branch_ext rec1 rec2 path breadth depth learnings visitedUrls i serpQuery :
  (forall path' call,
      call_depth call = to_double (depth - 1) -> (0 < call_depth call)%Z ->
      rec1 path' call = rec2 path' call) ->
  branch w rec1 path breadth depth learnings visitedUrls i serpQuery
  = branch w rec2 path breadth depth learnings visitedUrls i serpQuery.
Proof.
  intros H. unfold branch. apply bind_ext. intros t [call|r] E; [|reflexivity].
  apply branch_step_decayed in E. destruct E as (E1 & E2 & _). now apply H.
Qed.

Lemma branch_of_ext rec1 rec2 path breadth depth learnings visitedUrls i item :
  (forall path' call,
      call_depth call = to_double (depth - 1) -> (0 < call_depth call)%Z ->
      rec1 path' call = rec2 path' call) ->
  branch_of w rec1 path breadth depth learnings visitedUrls i item
  = branch_of w rec2 path breadth depth learnings visitedUrls i item.
Proof. intros H. destruct item; [now apply branch_ext | reflexivity]. Qed.

(** A branch is fulfilled when its recursive call, if it makes one, is. *)
Lemma branch_returns rec path breadth depth learnings visitedUrls i serpQuery :
  splitter_shrinks (splitText w) ->
  (forall path' call,
      call_depth call = to_double (depth - 1) -> (0 < call_depth call)%Z ->
      returns (rec path' call)) ->
  returns (branch w rec path breadth depth learnings visitedUrls i serpQuery).
Proof.
  intros Hsplit Hrec. unfold branch.
  eapply returns_bind_yields;
    [now apply branch_step_returns | apply branch_step_decayed |].
  intros [call|r] Hd; [|apply returns_ret].
  destruct Hd as (E1 & E2 & _). now apply Hrec.
Qed.

(** A branch settles when its recursive call, if it makes one, does. *)
Lemma branch_finishes rec path breadth depth learnings visitedUrls i serpQuery :
  splitter_shrinks (splitText w) ->
  (forall path' call,
      call_depth call = to_double (depth - 1) -> (0 < call_depth call)%Z ->
      finishes (rec path' call)) ->
  finishes (branch w rec path breadth depth learnings visitedUrls i serpQuery).
Proof.
  intros Hsplit Hrec. unfold branch.
  destruct (branch_step_returns path breadth depth learnings visitedUrls i serpQuery
              Hsplit) as (t & step & E).
  rewrite E. pose proof (branch_step_decayed _ _ _ _ _ _ _ _ _ E) as Hd.
  destruct step as [call|r].
  - destruct Hd as (E1 & E2 & _). destruct (Hrec (path ++ [i]) call E1 E2) as (t' & o & E').
    exists (t ++ t'), o. simpl. now rewrite E'.
  - now exists (t ++ []), (Returned r).
Qed.

Lemma branch_of_finishes rec path breadth depth learnings visitedUrls i item :
  splitter_shrinks (splitText w) ->
  (forall path' call,
      call_depth call = to_double (depth - 1) -> (0 < call_depth call)%Z ->
      finishes (rec path' call)) ->
  finishes (branch_of w rec path breadth depth learnings visitedUrls i item).
Proof.
  intros Hsplit Hrec. destruct item; [now apply branch_finishes|].
  now exists [], (Thrown TypeError).
Qed.

Lemma branch_traces rec path breadth depth learnings visitedUrls i serpQuery :
  (depth <= max_exact_depth)%Z ->
  (forall path' call,
      call_depth call = (depth - 1)%Z ->
      traces (deeper_below (call_depth call)) (rec path' call)) ->
  traces (deeper_below depth)
    (branch w rec path breadth depth learnings visitedUrls i serpQuery).
Proof.
  intros Hdepth Hrec. unfold branch.
  eapply traces_bind_yields;
    [now apply branch_step_traces | apply branch_step_decayed |].
  intros [call|r] Hd; [|apply traces_ret].
  apply (decayed_below _ _ _ Hdepth) in Hd. destruct Hd as (E1 & E2).
  eapply traces_weaken; [|apply Hrec, E1].
  intros [] H; simpl in *; try exact I. lia.
Qed.

Lemma branch_of_traces rec path breadth depth learnings visitedUrls i item :
  (depth <= max_exact_depth)%Z ->
  (forall path' call,
      call_depth call = (depth - 1)%Z ->
      traces (deeper_below (call_depth call)) (rec path' call)) ->
  traces (deeper_below depth)
    (branch_of w rec path breadth depth learnings visitedUrls i item).
Proof.
  intros Hdepth Hrec. destruct item; [now apply branch_traces | apply traces_throw].
Qed.

(** *** The plan *)

Lemma well_shaped_slice plan e : well_shaped plan -> well_shaped (slice_plan plan e).
Proof.
  intros (qs & ->). exists (aslice0 qs e). unfold slice_plan, aslice0.
  rewrite length_map. destruct (e <? 0)%Z; now rewrite firstn_map.
Qed.

(** In a world whose plans have the shape that the source asserts, so has
    what the planner of a call returns. *)
Lemma generateSerpQueries_well_shaped path query numQueries learnings :
  plans_well_shaped w ->
  yields well_shaped (generateSerpQueries w (AtPlan path) query numQueries learnings).
Proof.
  intros Hw. assert (Hnil : well_shaped (PlanArray [])) by now exists [].
  intros t plan E. unfold generateSerpQueries in E.
  destruct (ask w (AtPlan path) (serpPrompt query numQueries learnings))
    as [[t0 [content|e]]|] eqn:Eask; simpl in E.
  - destruct (o3MiniModel_answer _ _ _ _ _ Eask) as (k & Hk).
    rewrite (o3MiniModel_nonempty _ _ _ _ _ Eask) in E.
    destruct (parse_queries w (cleanJsonResponse content)) as [parsed|] eqn:Eparse;
      simpl in E; inversion E; subst; [|exact Hnil].
    apply well_shaped_slice. eapply Hw; eassumption.
  - inversion E; subst. exact Hnil.
  - discriminate E.
Qed.

(** *** The whole call *)

Lemma deepResearch_fuel_eq fuel path c :
  deepResearch_fuel w fuel path c
  = deepResearch_body w
      (fun path' c' =>
         match fuel with
         | O => diverge
         | S fuel' => deepResearch_fuel w fuel' path' c'
         end)
      path c.
Proof. destruct fuel; reflexivity. Qed.

Lemma deepResearch_body_ext rec1 rec2 path c :
  (forall path' call,
      call_depth call = to_double (call_depth c - 1) -> (0 < call_depth call)%Z ->
      rec1 path' call = rec2 path' call) ->
  deepResearch_body w rec1 path c = deepResearch_body w rec2 path c.
Proof.
  intros H. unfold deepResearch_body. apply bind_ext. intros _ [items|text] _;
    [|reflexivity].
  unfold Promise_all_map.
  rewrite (Promise_all_from_ext
             (branch_of w rec1 path (call_breadth c) (call_depth c)
                (call_learnings c) (call_visitedUrls c))
             (branch_of w rec2 path (call_breadth c) (call_depth c)
                (call_learnings c) (call_visitedUrls c))); [reflexivity|].
  intros i x. now apply branch_of_ext.
Qed.

(** The call settles when its recursive calls do. *)
Lemma deepResearch_body_finishes rec path c :
  splitter_shrinks (splitText w) ->
  (forall path' call,
      call_depth call = to_double (call_depth c - 1) -> (0 < call_depth call)%Z ->
      finishes (rec path' call)) ->
  finishes (deepResearch_body w rec path c).
Proof.
  intros Hsplit Hrec. unfold deepResearch_body.
  apply finishes_bind; [apply returns_finishes, generateSerpQueries_returns|].
  intros [items|text]; [|now eexists _, _].
  apply finishes_bind; [|intros; now eexists _, _].
  apply finishes_Promise_all_from. intros i x. now apply branch_of_finishes.
Qed.

(** With plans of the asserted shape, the call is fulfilled when its
    recursive calls are. *)
Lemma deepResearch_body_returns rec path c :
  splitter_shrinks (splitText w) -> plans_well_shaped w ->
  (forall path' call,
      call_depth call = to_double (call_depth c - 1) -> (0 < call_depth call)%Z ->
      returns (rec path' call)) ->
  returns (deepResearch_body w rec path c).
Proof.
  intros Hsplit Hw Hrec. unfold deepResearch_body.
  eapply returns_bind_yields;
    [apply generateSerpQueries_returns
    | apply generateSerpQueries_well_shaped, Hw |].
  intros plan (qs & ->).
  apply returns_bind; [|intros; apply returns_ret].
  apply returns_Promise_all_from_nth. intros j item Hitem.
  apply nth_error_In, in_map_iff in Hitem. destruct Hitem as (q & <- & _).
  now apply branch_returns.
Qed.

(** What the body returns is the aggregate of the results of its
    branches, each branch run on its own. *)
Lemma deepResearch_body_results rec path c t r :
  deepResearch_body w rec path c = Some (t, Returned r) ->
  exists t0 items t1 results,
    generateSerpQueries w (AtPlan path) (call_query c) (call_breadth c)
      (Some (call_learnings c)) = Some (t0, Returned (PlanArray items))
    /\ Promise_all_map
         (branch_of w rec path (call_breadth c) (call_depth c)
            (call_learnings c) (call_visitedUrls c)) items
       = Some (t1, Returned results)
    /\ t = t0 ++ t1 /\ r = aggregate results.
Proof.
  unfold deepResearch_body. intros H.
  apply bind_Returned in H as (t0 & [items|text] & t' & H0 & H & ->);
    [|discriminate H].
  apply bind_Returned in H as (t1 & results & t2 & H1 & H & ->).
  inversion H; subst. exists t0, items, t1, results.
  rewrite app_nil_r. auto.
Qed.

(** The trace of the body: that of the planner, then those of the
    branches. *)
Lemma plan_queries_well_shaped (serpQueries : list SerpQuery) :
  plan_queries (PlanArray (map ItemQuery serpQueries)) = serpQueries.
Proof.
  simpl. induction serpQueries as [|q qs IH]; [reflexivity|]. simpl. now rewrite IH.
Qed.

Lemma deepResearch_body_Some rec path c t o :
  deepResearch_body w rec path c = Some (t, o) ->
  exists t0 plan,
    generateSerpQueries w (AtPlan path) (call_query c) (call_breadth c)
      (Some (call_learnings c)) = Some (t0, Returned plan)
    /\ match plan with
       | PlanArray items =>
           exists t1 o1,
             Promise_all_map
               (branch_of w rec path (call_breadth c) (call_depth c)
                  (call_learnings c) (call_visitedUrls c)) items
             = Some (t1, o1)
             /\ t = t0 ++ t1
             /\ o = match o1 with
                    | Returned results => Returned (aggregate results)
                    | Thrown e => Thrown e
                    end
       | PlanText _ => t = t0 /\ o = Thrown TypeError
       end.
Proof.
  unfold deepResearch_body. intros H.
  apply bind_Some in H as [(e & H & _) | (t0 & plan & t' & E & H & ->)].
  - destruct (generateSerpQueries_returns (AtPlan path) (call_query c) (call_breadth c)
                (Some (call_learnings c))) as (t0 & plan & E).
    congruence.
  - exists t0, plan. split; [exact E|]. destruct plan as [items|text].
    + apply bind_Some in H as [(e & H & ->) | (t1 & results & t2 & H1 & H2 & ->)].
      * now exists t', (Thrown e).
      * inversion H2; subst. exists t1, (Returned results). now rewrite app_nil_r.
    + inversion H; subst. now rewrite app_nil_r.
Qed.

Lemma deepResearch_body_traces rec path c :
  (call_depth c <= max_exact_depth)%Z ->
  (forall path' call,
      call_depth call = (call_depth c - 1)%Z ->
      traces (deeper_below (call_depth call)) (rec path' call)) ->
  traces (deeper_below (call_depth c)) (deepResearch_body w rec path c).
Proof.
  intros Hd Hrec. unfold deepResearch_body. apply traces_bind.
  - eapply traces_weaken; [|apply generateSerpQueries_traces].
    intros [] H; simpl in *; tauto.
  - intros [items|text]; [|apply traces_throw].
    apply traces_bind; [|intros; apply traces_ret].
    apply traces_Promise_all_from. intros i x. now apply branch_of_traces.
Qed.

(** A recursive call is made with the depth less one and only when that
    is positive: up to the depth [2 ^ 53], [call_depth c - 1] nested calls
    are fuel enough for the call to settle. *)
Lemma deepResearch_fuel_finishes :
  splitter_shrinks (splitText w) ->
  forall fuel path c,
    (call_depth c <= max_exact_depth)%Z ->
    Z.to_nat (call_depth c - 1) <= fuel ->
    finishes (deepResearch_fuel w fuel path c).
Proof.
  intros Hsplit. induction fuel as [|fuel IH]; intros path c Hd Hfuel;
    rewrite deepResearch_fuel_eq; apply deepResearch_body_finishes; try assumption;
    intros path' call E1 E2; rewrite E1 in E2;
    pose proof (to_double_pred _ Hd E2) as E3; apply to_double_pos in E2.
  - lia.
  - apply IH; unfold max_exact_depth in *; lia.
Qed.

(** With plans of the asserted shape the call is fulfilled. *)
Lemma deepResearch_fuel_returns :
  splitter_shrinks (splitText w) -> plans_well_shaped w ->
  forall fuel path c,
    (call_depth c <= max_exact_depth)%Z ->
    Z.to_nat (call_depth c - 1) <= fuel ->
    returns (deepResearch_fuel w fuel path c).
Proof.
  intros Hsplit Hw. induction fuel as [|fuel IH]; intros path c Hd Hfuel;
    rewrite deepResearch_fuel_eq; apply deepResearch_body_returns; try assumption;
    intros path' call E1 E2; rewrite E1 in E2;
    pose proof (to_double_pred _ Hd E2) as E3; apply to_double_pos in E2.
  - lia.
  - apply IH; unfold max_exact_depth in *; lia.
Qed.

(** More fuel than enough changes nothing. *)
Lemma deepResearch_fuel_enough :
  forall fuel1 fuel2 path c,
    (call_depth c <= max_exact_depth)%Z ->
    Z.to_nat (call_depth c - 1) <= fuel1 ->
    Z.to_nat (call_depth c - 1) <= fuel2 ->
    deepResearch_fuel w fuel1 path c = deepResearch_fuel w fuel2 path c.
Proof.
  induction fuel1 as [|fuel1 IH]; intros fuel2 path c Hd H1 H2;
    rewrite (deepResearch_fuel_eq _ path c), (deepResearch_fuel_eq fuel2 path c);
    apply deepResearch_body_ext; intros path' call E1 E2; rewrite E1 in E2;
    pose proof (to_double_pred _ Hd E2) as E3; apply to_double_pos in E2.
  - lia.
  - destruct fuel2 as [|fuel2]; [lia|]. apply IH; unfold max_exact_depth in *; lia.
Qed.

Lemma deepResearch_fuel_traces :
  forall fuel path c,
    (call_depth c <= max_exact_depth)%Z ->
    traces (deeper_below (call_depth c)) (deepResearch_fuel w fuel path c).
Proof.
  induction fuel as [|fuel IH]; intros path c Hd;
    rewrite deepResearch_fuel_eq; apply deepResearch_body_traces; try assumption.
  - intros; apply traces_diverge.
  - intros path' call E. apply IH. unfold max_exact_depth in *. lia.
Qed.

(** The protected part of a branch makes one call to the search provider,
    with the query of the branch. *)
Lemma branch_step_searched path breadth depth learnings visitedUrls i serpQuery t o :
  branch_step w path breadth depth learnings visitedUrls i serpQuery = Some (t, o) ->
  searched t = [query serpQuery].
Proof.
  unfold branch_step.
  set (k := fun _ : unit =>
              match firecrawl_search w path i with
              | inl e => throw e
              | inr result => _
              end).
  assert (Hk : traces no_search (k tt)).
  { subst k. cbv beta.
    destruct (firecrawl_search w path i) as [e|result]; [apply traces_throw|].
    apply traces_bind.
    - eapply traces_weaken; [|apply processSerpResult_traces].
      intros [] H; simpl in *; tauto.
    - intros newLearnings. destruct (to_double (depth - 1) >? 0)%Z.
      + apply traces_bind; [now apply traces_emit|]. intros _.
        destruct (pr_followUpQuestions_array newLearnings);
          [apply traces_ret | apply traces_throw].
      + apply traces_ret. }
  intros H.
  apply try_catch_Some in H as [(a & H & _) | (t1 & e & t2 & H & Hh & ->)].
  - apply emit_bind_Some in H as (t' & H & ->).
    change (searched (EvSearch (query serpQuery) :: t'))
      with (query serpQuery :: searched t').
    now rewrite (searched_no_search t' (Hk _ _ H)).
  - apply emit_bind_Some in H as (t' & H & ->). inversion Hh; subst.
    rewrite app_nil_r.
    change (searched (EvSearch (query serpQuery) :: t'))
      with (query serpQuery :: searched t').
    now rewrite (searched_no_search t' (Hk _ _ H)).
Qed.

(** So does a branch that is a leaf. *)
Lemma branch_leaf_searched rec path breadth depth learnings visitedUrls i serpQuery t o :
  (depth <= 1)%Z ->
  branch w rec path breadth depth learnings visitedUrls i serpQuery = Some (t, o) ->
  searched t = [query serpQuery].
Proof.
  intros Hd H. unfold branch in H.
  apply bind_Some in H as [(e & H & _) | (t1 & [call|r] & t2 & H1 & H2 & ->)].
  - eapply branch_step_searched, H.
  - apply branch_step_decayed in H1. destruct H1 as (E1 & E2 & _).
    rewrite E1 in E2. apply to_double_pos in E2. lia.
  - inversion H2; subst. rewrite app_nil_r. eapply branch_step_searched, H1.
Qed.

(** A leaf branch, for any element of the plan, makes the searches of the
    queries that it can read. *)
Lemma branch_of_leaf_searched rec path breadth depth learnings visitedUrls i item t o :
  (depth <= 1)%Z ->
  branch_of w rec path breadth depth learnings visitedUrls i item = Some (t, o) ->
  searched t = map query (item_queries item).
Proof.
  intros Hd H. destruct item as [serpQuery|]; simpl in *.
  - eapply branch_leaf_searched; eassumption.
  - now inversion H.
Qed.


End World.

(** *** Failures and siblings *)

(** The body of a call is made of the plan and of the branches. *)
Lemma deepResearch_body_congr w1 w2 rec1 rec2 path c :
  generateSerpQueries w1 (AtPlan path) (call_query c) (call_breadth c)
    (Some (call_learnings c))
  = generateSerpQueries w2 (AtPlan path) (call_query c) (call_breadth c)
      (Some (call_learnings c)) ->
  (forall i serpQuery,
      branch w1 rec1 path (call_breadth c) (call_depth c)
        (call_learnings c) (call_visitedUrls c) i serpQuery
      = branch w2 rec2 path (call_breadth c) (call_depth c)
          (call_learnings c) (call_visitedUrls c) i serpQuery) ->
  deepResearch_body w1 rec1 path c = deepResearch_body w2 rec2 path c.
Proof.
  intros Hplan Hbranch. unfold deepResearch_body. rewrite Hplan.
  apply bind_ext. intros _ [items|text] _; [|reflexivity].
  unfold Promise_all_map.
  rewrite (Promise_all_from_ext
             (branch_of w1 rec1 path (call_breadth c) (call_depth c)
                (call_learnings c) (call_visitedUrls c))
             (branch_of w2 rec2 path (call_breadth c) (call_depth c)
                (call_learnings c) (call_visitedUrls c))); [reflexivity|].
  intros i [serpQuery|]; [apply Hbranch | reflexivity].
Qed.








(** *** The system prompt *)

(** The system prompt is not sent: a request does not depend on it. *)
Lemma ask_with_systemPrompt w sp s prompt :
  ask (with_systemPrompt w sp) s prompt = ask w s prompt.
Proof. reflexivity. Qed.

Lemma branch_step_with_systemPrompt w sp path breadth depth learnings visitedUrls i q :
  branch_step (with_systemPrompt w sp) path breadth depth learnings visitedUrls i q
  = branch_step w path breadth depth learnings visitedUrls i q.
Proof. reflexivity. Qed.

Lemma deepResearch_fuel_with_systemPrompt w sp :
  forall fuel path c,
    deepResearch_fuel (with_systemPrompt w sp) fuel path c
    = deepResearch_fuel w fuel path c.
Proof.
  assert (Hbody : forall rec1 rec2 path c,
             (forall path' c', rec1 path' c' = rec2 path' c') ->
             deepResearch_body (with_systemPrompt w sp) rec1 path c
             = deepResearch_body w rec2 path c).
  { intros rec1 rec2 path c Hrec.
    apply deepResearch_body_congr; [reflexivity|].
    intros i x. unfold branch. rewrite branch_step_with_systemPrompt.
    apply bind_ext. intros _ [call|r] _; [apply Hrec | reflexivity]. }
  induction fuel as [|fuel IH]; intros path c;
    rewrite (deepResearch_fuel_eq _ _ path c), (deepResearch_fuel_eq w _ path c);
    apply Hbody.
  - reflexivity.
  - intros path' c'. apply IH.
Qed.

Lemma writeFinalReport_with_systemPrompt w sp prompt learnings visitedUrls :
  writeFinalReport (with_systemPrompt w sp) prompt learnings visitedUrls
  = writeFinalReport w prompt learnings visitedUrls.
Proof. reflexivity. Qed.

End OrchestratorFacts.

(* ====================================================================== *)
(** ** The properties of the orchestrator *)
(* ====================================================================== *)

Module Properties.

Import JS.
Import Providers.
Import DeepResearch.
Import JSFacts.
Import MFacts.
Import ProvidersFacts.
Import TrimFacts.
Import OrchestratorFacts.

(** In the world [Samples.always_deeper] the planner proposes a query at
    every level, and a branch of a call with the depth [2 ^ 54] asks for a
    recursive call with the same depth. *)
Lemma always_deeper_plan path query breadth learnings0 :
  exists t0,
    generateSerpQueries Samples.always_deeper (AtPlan path) query breadth learnings0
    = Some (t0, Returned (slice_plan
                            (PlanArray [ItemQuery (mkSerpQuery "q1" "g1");
                                        ItemQuery (mkSerpQuery "q2" "g2")])
                            breadth)).
Proof. eexists. vm_compute. reflexivity. Qed.

Lemma always_deeper_step path breadth learnings0 visitedUrls0 i serpQuery :
  exists t call,
    branch_step Samples.always_deeper path breadth Samples.huge_depth
      learnings0 visitedUrls0 i serpQuery
    = Some (t, Returned (inl call))
    /\ call_depth call = Samples.huge_depth
    /\ call_breadth call = Math_ceil_div breadth 2.
Proof.
  eexists _, _. split; [vm_compute; reflexivity|]. split; reflexivity.
Qed.

Lemma always_deeper_never_ends :
  forall fuel path query breadth learnings0 visitedUrls0,
    (1 <= breadth)%Z ->
    deepResearch_fuel Samples.always_deeper fuel path
      (mkCall query breadth Samples.huge_depth learnings0 visitedUrls0)
    = None.
Proof.
  assert (Hbody : forall rec path query breadth learnings0 visitedUrls0,
             (1 <= breadth)%Z ->
             (forall path' call,
                 call_depth call = Samples.huge_depth ->
                 (1 <= call_breadth call)%Z -> rec path' call = None) ->
             deepResearch_body Samples.always_deeper rec path
               (mkCall query breadth Samples.huge_depth learnings0 visitedUrls0)
             = None).
  { intros rec path query breadth learnings0 visitedUrls0 Hb Hrec.
    unfold deepResearch_body. cbn [call_query call_breadth call_depth call_learnings
                                     call_visitedUrls].
    destruct (always_deeper_plan path query breadth (Some learnings0)) as (t0 & ->).
    apply bind_diverges.
    unfold slice_plan, aslice0. destruct (Z.ltb_spec breadth 0) as [|_]; [lia|].
    destruct (Z.to_nat breadth) as [|n] eqn:En; [lia|].
    cbn [firstn]. unfold Promise_all_map. cbn [Promise_all_from].
    assert (Hfirst : branch_of Samples.always_deeper rec path breadth Samples.huge_depth
                       learnings0 visitedUrls0 0 (ItemQuery (mkSerpQuery "q1" "g1"))
                     = None).
    { cbn [branch_of]. unfold branch.
      destruct (always_deeper_step path breadth learnings0 visitedUrls0 0
                  (mkSerpQuery "q1" "g1")) as (t & call & -> & Hdepth & Hbreadth).
      apply bind_diverges. apply Hrec; [exact Hdepth|].
      rewrite Hbreadth, Math_ceil_div_2. apply Z.div_le_lower_bound; lia. }
    now rewrite Hfirst. }
  induction fuel as [|fuel IH]; intros path query breadth learnings0 visitedUrls0 Hb;
    rewrite deepResearch_fuel_eq; apply Hbody; try assumption.
  - reflexivity.
  - intros path' [q b d l u] Hd Hb'. simpl in Hd, Hb'. subst d. now apply IH.
Qed.

(** C1, as it is worded, fails: the depth is a double, and from
    [2 ^ 53 + 4] on the difference [depth - 1] can be [depth] again.  With
    the depth [2 ^ 54] the branch below asks for a recursive call with the
    depth [2 ^ 54], and however many nested calls are allowed the top-level
    call does not settle. *)
Lemma huge_depth_never_ends :
  to_double (Samples.huge_depth - 1) = Samples.huge_depth
  /\ (exists t call,
         branch_step Samples.always_deeper [] 1 Samples.huge_depth [] [] 0
           (mkSerpQuery "q1" "g1")
         = Some (t, Returned (inl call))
         /\ call_depth call = Samples.huge_depth)
  /\ forall fuel,
       deepResearch_fuel Samples.always_deeper fuel []
         (mkCall "X" 1 Samples.huge_depth [] [])
       = None.
Proof.
  split; [vm_compute; reflexivity|]. split.
  - destruct (always_deeper_step [] 1 [] [] 0 (mkSerpQuery "q1" "g1"))
      as (t & call & E & Hd & _).
    exists t, call. split; assumption.
  - intros fuel. apply always_deeper_never_ends. lia.
Qed.

(** The plans of the world [Stub.two_branches] have the shape that the
    source asserts. *)
Lemma Stub_plans_well_shaped : plans_well_shaped Stub.two_branches.
Proof.
  intros path k content plan Hk Hparse.
  destruct path as [|i path]; [|discriminate Hk].
  injection Hk as <-. vm_compute in Hparse. injection Hparse as <-.
  now exists [mkSerpQuery "q1" "g1"; mkSerpQuery "q2" "g2"].
Qed.

(** C1, amended.  For every breadth of at least 1 and every depth from 0
    to [2 ^ 53] the top-level call settles: it returns, or it rejects, which
    it does not when the plans have the shape that the source asserts.  A
    branch asks for a recursive call only with the depth less one and only
    when that is positive; every recursive call that the trace announces
    has a positive depth below the initial one; and the fuel of [depth]
    nested recursive calls is enough, more fuel giving the same run: the
    recursion nests at most [depth] levels. *)
Theorem deepResearch_terminates
        (w : World) (query : string) (breadth depth : Z)
        (learnings0 visitedUrls0 : list string) :
  splitter_shrinks (splitText w) ->
  (1 <= breadth)%Z -> (0 <= depth <= max_exact_depth)%Z ->
  (exists t o,
      deepResearch w query breadth depth learnings0 visitedUrls0 = Some (t, o)
      /\ Forall (deeper_below depth) t
      /\ (forall fuel,
             Z.to_nat depth <= fuel ->
             deepResearch_fuel w fuel []
               (mkCall query breadth depth learnings0 visitedUrls0)
             = Some (t, o))
      /\ (plans_well_shaped w -> exists r, o = Returned r))
  /\ (forall path b d l u i serpQuery t call,
         (d <= max_exact_depth)%Z ->
         branch_step w path b d l u i serpQuery = Some (t, Returned (inl call)) ->
         call_depth call = (d - 1)%Z /\ (0 < call_depth call < d)%Z).
Proof.
  intros Hsplit Hb Hd. split.
  - set (c := mkCall query breadth depth learnings0 visitedUrls0).
    destruct (deepResearch_fuel_finishes w Hsplit (Z.to_nat depth) [] c) as (t & o & E).
    { apply Hd. }
    { simpl. lia. }
    exists t, o. split; [exact E|]. split; [|split].
    + apply (deepResearch_fuel_traces w (Z.to_nat depth) [] c (proj2 Hd) t _ E).
    + intros fuel Hfuel. rewrite <- E.
      apply deepResearch_fuel_enough; simpl; lia.
    + intros Hw.
      destruct (deepResearch_fuel_returns w Hsplit Hw (Z.to_nat depth) [] c)
        as (t' & r & E').
      { apply Hd. }
      { simpl. lia. }
      exists r. congruence.
  - intros path b d l u i serpQuery t call Hdepth E.
    apply branch_step_decayed in E. now apply (decayed_below b).
Qed.

Lemma deepResearch_terminates_witness :
  splitter_shrinks (splitText Stub.two_branches)
  /\ (1 <= 2)%Z /\ (0 <= 2 <= max_exact_depth)%Z
  /\ exists t r,
       deepResearch Stub.two_branches "X" 2 2 [] [] = Some (t, Returned r)
       /\ Forall (deeper_below 2) t.
Proof.
  assert (H : (0 <= 2 <= max_exact_depth)%Z) by (vm_compute; split; discriminate).
  split; [exact Stub_splitter_shrinks|]. split; [lia|]. split; [exact H|].
  destruct (deepResearch_terminates Stub.two_branches "X" 2 2 [] []
              Stub_splitter_shrinks ltac:(lia) H)
    as ((t & o & E & Ht & _ & Hr) & _).
  destruct (Hr Stub_plans_well_shaped) as (r & ->).
  exists t, r. split; assumption.
Defined.

(** A plan that is a string, or that holds [null], makes the call reject;
    the branch of the second element of the plan still makes its search. *)
Example ill_shaped_plans_reject :
  deepResearch Samples.text_plan "X" 2 1 [] []
  = Some ([EvSend DEFAULT_MODEL o3MiniConfig (serpPrompt "X" 2 (Some []))],
          Thrown TypeError)
  /\ exists t,
       deepResearch Samples.null_item "X" 2 1 [] [] = Some (t, Thrown TypeError)
       /\ searched t = ["q2"].
Proof. split; [vm_compute; reflexivity|]. eexists. vm_compute. split; reflexivity. Qed.

(** C2.  Whenever a call returns, at the top level or below, it returns
    the aggregate of the results of its branches; the returned learnings
    and the returned URLs hold no string twice, and they hold exactly the
    strings that some branch returned: two entries are merged only when
    they are the same string.  The top-level call does return when the
    splitter does not lengthen the text, the plans have the shape that the
    source asserts and the depth is at most [2 ^ 53]. *)
Theorem deepResearch_no_duplicates
        (w : World) (query : string) (breadth depth : Z)
        (learnings0 visitedUrls0 : list string) :
  (forall fuel path c t r,
      deepResearch_fuel w fuel path c = Some (t, Returned r) ->
      exists results,
        r = aggregate results
        /\ NoDup (learnings r)
        /\ NoDup (visitedUrls r)
        /\ (forall x, In x (learnings r)
                      <-> exists r', In r' results /\ In x (learnings r'))
        /\ (forall x, In x (visitedUrls r)
                      <-> exists r', In r' results /\ In x (visitedUrls r')))
  /\ (splitter_shrinks (splitText w) -> plans_well_shaped w ->
      (depth <= max_exact_depth)%Z ->
      exists t results,
        deepResearch w query breadth depth learnings0 visitedUrls0
        = Some (t, Returned (aggregate results))
        /\ NoDup (learnings (aggregate results))
        /\ NoDup (visitedUrls (aggregate results))
        /\ (forall x, In x (learnings (aggregate results))
                      <-> exists r, In r results /\ In x (learnings r))
        /\ (forall x, In x (visitedUrls (aggregate results))
                      <-> exists r, In r results /\ In x (visitedUrls r))).
Proof.
  assert (Hret : forall fuel path c t r,
             deepResearch_fuel w fuel path c = Some (t, Returned r) ->
             exists results,
               r = aggregate results
               /\ NoDup (learnings r)
               /\ NoDup (visitedUrls r)
               /\ (forall x, In x (learnings r)
                             <-> exists r', In r' results /\ In x (learnings r'))
               /\ (forall x, In x (visitedUrls r)
                             <-> exists r', In r' results /\ In x (visitedUrls r'))).
  { intros fuel path c t r E. rewrite deepResearch_fuel_eq in E.
    apply deepResearch_body_results in E as (t0 & qs & t1 & results & _ & _ & _ & ->).
    exists results. split; [reflexivity|]. simpl.
    split; [apply Set_spread_NoDup|]. split; [apply Set_spread_NoDup|].
    split; intros x; rewrite Set_spread_In, in_flat_map; reflexivity. }
  split; [exact Hret|]. intros Hsplit Hw Hd.
  set (c := mkCall query breadth depth learnings0 visitedUrls0).
  destruct (deepResearch_fuel_returns w Hsplit Hw (Z.to_nat depth) [] c) as (t & r & E).
  { exact Hd. }
  { simpl. lia. }
  destruct (Hret _ _ _ _ _ E) as (results & -> & H1 & H2 & H3 & H4).
  now exists t, results.
Qed.

(** Two branches that both find [https://a]: the URL is returned once. *)
Lemma deepResearch_no_duplicates_witness :
  splitter_shrinks (splitText Stub.two_branches)
  /\ plans_well_shaped Stub.two_branches
  /\ (1 <= max_exact_depth)%Z
  /\ exists t results,
       deepResearch Stub.two_branches "X" 2 1 [] []
       = Some (t, Returned (aggregate results))
       /\ NoDup (learnings (aggregate results))
       /\ NoDup (visitedUrls (aggregate results)).
Proof.
  assert (H : (1 <= max_exact_depth)%Z) by (vm_compute; discriminate).
  split; [exact Stub_splitter_shrinks|]. split; [exact Stub_plans_well_shaped|].
  split; [exact H|].
  destruct (proj2 (deepResearch_no_duplicates Stub.two_branches "X" 2 1 [] [])
              Stub_splitter_shrinks Stub_plans_well_shaped H)
    as (t & results & E & H1 & H2 & _).
  exists t, results. repeat split; assumption.
Defined.

Example same_url_in_two_branches :
  exists t,
    deepResearch Stub.two_branches "X" 2 1 [] []
    = Some (t, Returned (mkResearchResult ["L1"; "L2"] ["https://a"])).
Proof. eexists. vm_compute. reflexivity. Qed.

(** C3, as it is worded, fails: at depth 0 the run below sends the planning
    request, searches and digests, and returns what the branches found. *)
Lemma depth0_not_immediate :
  deepResearch Stub.two_branches "X" 2 0 [] []
  <> Some ([], Returned (mkResearchResult [] [])).
Proof. vm_compute. discriminate. Qed.

Example depth0_run :
  exists t,
    deepResearch Stub.two_branches "X" 2 0 [] []
    = Some (t, Returned (mkResearchResult ["L1"; "L2"] ["https://a"]))
    /\ List.length (filter (fun ev => match ev with EvSend _ _ _ => true | _ => false end) t) = 3
    /\ List.length (filter (fun ev => match ev with EvSearch _ => true | _ => false end) t) = 2.
Proof. eexists. vm_compute. repeat split; reflexivity. Qed.

Lemma map_query_plan_queries (items : list PlanItem) :
  flat_map (fun item => map DeepResearch.query (item_queries item)) items
  = map DeepResearch.query (flat_map item_queries items).
Proof.
  induction items as [|item items IH]; [reflexivity|].
  simpl. now rewrite map_app, IH.
Qed.

(** C3, amended.  A call with depth 0 makes no recursive call, but it is
    not an immediate return: it runs as a call with depth 1 does.  It first
    sends the planning request to the model, then makes one call to the
    search provider for every planned query that can be read, each in a
    leaf branch, and, when the plan is an array of such queries, returns the
    aggregate of the results of the branches. *)
Theorem deepResearch_depth0
        (w : World) (query : string) (breadth : Z)
        (learnings0 visitedUrls0 : list string) :
  splitter_shrinks (splitText w) ->
  exists t0 plan t o,
    generateSerpQueries w (AtPlan []) query breadth (Some learnings0)
    = Some (t0, Returned plan)
    /\ deepResearch w query breadth 0 learnings0 visitedUrls0
       = Some (EvSend DEFAULT_MODEL o3MiniConfig
                 (serpPrompt query breadth (Some learnings0)) :: t,
               o)
    /\ searched t = map DeepResearch.query (plan_queries plan)
    /\ Forall no_deeper t
    /\ (forall rec,
           deepResearch_body w rec []
             (mkCall query breadth 0 learnings0 visitedUrls0)
           = deepResearch w query breadth 0 learnings0 visitedUrls0)
    /\ deepResearch w query breadth 1 learnings0 visitedUrls0
       = deepResearch w query breadth 0 learnings0 visitedUrls0
    /\ (forall serpQueries,
           plan = PlanArray (map ItemQuery serpQueries) ->
           exists results,
             o = Returned (aggregate results)
             /\ List.length results = List.length serpQueries).
Proof.
  intros Hsplit.
  set (c := mkCall query breadth 0 learnings0 visitedUrls0).
  assert (Hleaf : forall (path' : list nat) (call : Call),
             call_depth call = to_double (call_depth c - 1) ->
             (0 < call_depth call)%Z -> False).
  { intros path' call E1 E2. rewrite E1 in E2. apply to_double_pos in E2.
    simpl in E2. lia. }
  assert (Hrec : forall rec1 rec2,
             deepResearch_body w rec1 [] c = deepResearch_body w rec2 [] c).
  { intros rec1 rec2. apply deepResearch_body_ext.
    intros path' call E1 E2. destruct (Hleaf path' call E1 E2). }
  assert (Hmax : (call_depth c <= max_exact_depth)%Z) by (vm_compute; discriminate).
  destruct (deepResearch_fuel_finishes w Hsplit 0 [] c Hmax) as (t & o & E).
  { simpl. lia. }
  pose proof E as E'. rewrite deepResearch_fuel_eq in E'.
  pose proof E' as E''.
  apply deepResearch_body_Some in E'' as (t0 & plan & Hq & Hplan).
  pose proof (generateSerpQueries_traces w _ _ _ _ _ _ Hq) as Hmodel.
  destruct (generateSerpQueries_starts w _ _ _ _ _ _ Hq) as (t0' & Et0).
  assert (Hplanner : searched t0' = []).
  { apply searched_no_search. rewrite Et0 in Hmodel.
    inversion Hmodel as [|ev tl _ Htl]; subst.
    eapply Forall_impl; [|exact Htl]. intros [] H; simpl in *; tauto. }
  assert (Hdeeper : forall t', t = EvSend DEFAULT_MODEL o3MiniConfig
                                     (serpPrompt query breadth (Some learnings0)) :: t' ->
                               Forall no_deeper t').
  { intros t' Et'.
    pose proof (deepResearch_fuel_traces w 0 [] c Hmax _ _ E) as Hev. rewrite Et' in Hev.
    inversion Hev as [|ev tl _ Htl]; subst.
    eapply Forall_impl; [|exact Htl].
    intros [] H; simpl in *; try exact I. lia. }
  assert (Hone : deepResearch w query breadth 1 learnings0 visitedUrls0
                 = deepResearch w query breadth 0 learnings0 visitedUrls0).
  { unfold deepResearch. simpl Z.to_nat. rewrite !deepResearch_fuel_eq.
    unfold deepResearch_body. simpl. apply bind_ext. intros _ [items|text] _;
      [|reflexivity].
    unfold Promise_all_map.
    rewrite (Promise_all_from_ext
               (branch_of w (fun path' c' => deepResearch_fuel w 0 path' c') [] breadth 1
                  learnings0 visitedUrls0)
               (branch_of w (fun path' c' => diverge) [] breadth 0
                  learnings0 visitedUrls0)); [reflexivity|].
    intros i [x|]; [|reflexivity]. unfold branch_of, branch.
    change (branch_step w [] breadth 1 learnings0 visitedUrls0 i x)
      with (branch_step w [] breadth 0 learnings0 visitedUrls0 i x).
    apply bind_ext. intros t' [call|r'] Estep; [|reflexivity].
    apply branch_step_decayed in Estep. destruct Estep as (E1 & E2 & _).
    destruct (Hleaf [] call E1 E2). }
  destruct plan as [items|text].
  - destruct Hplan as (t1 & o1 & Hall & Ht & Ho).
    rewrite Et0 in Ht. simpl in Ht.
    exists t0, (PlanArray items), (t0' ++ t1), o. unfold deepResearch. simpl Z.to_nat.
    fold c. rewrite E, Ht. split; [exact Hq|]. split; [reflexivity|].
    split; [|split; [|split; [|split]]].
    + rewrite searched_app, Hplanner. simpl.
      rewrite <- map_query_plan_queries.
      apply (Promise_all_from_searched _
               (fun item => map DeepResearch.query (item_queries item))
               (fun i x t' o' H =>
                  branch_of_leaf_searched w _ [] breadth 0 learnings0 visitedUrls0
                    i x t' o' ltac:(lia) H)
               _ _ _ _ Hall).
    + now apply Hdeeper.
    + intros rec. rewrite <- Ht, <- E, deepResearch_fuel_eq. apply Hrec.
    + rewrite <- Ht, <- E. exact Hone.
    + intros serpQueries Eitems. injection Eitems as ->.
      destruct (returns_Promise_all_from_nth
                  (branch_of w (fun path' c' => diverge) [] breadth 0
                     learnings0 visitedUrls0)
                  (map ItemQuery serpQueries) 0) as (t1' & results & Hret).
      { intros j item Hitem.
        apply nth_error_In, in_map_iff in Hitem. destruct Hitem as (q & <- & _).
        apply branch_returns; [exact Hsplit|].
        intros path' call E1 E2. destruct (Hleaf path' call E1 E2). }
      unfold Promise_all_map in Hall. simpl in Hall. rewrite Hret in Hall.
      inversion Hall; subst. exists results. split; [reflexivity|].
      apply Promise_all_from_results in Hret. destruct Hret as (Hlen & _).
      now rewrite Hlen, length_map.
  - destruct Hplan as (Ht & Ho). rewrite Et0 in Ht.
    exists t0, (PlanText text), t0', o. unfold deepResearch. simpl Z.to_nat.
    fold c. rewrite E, Ht. split; [exact Hq|]. split; [reflexivity|].
    split; [exact Hplanner|]. split; [now apply Hdeeper|].
    split; [|split; [|discriminate]].
    + intros rec. rewrite <- Ht, <- E, deepResearch_fuel_eq. apply Hrec.
    + rewrite <- Ht, <- E. exact Hone.
Qed.

Lemma deepResearch_depth0_witness :
  splitter_shrinks (splitText Stub.two_branches)
  /\ exists t o,
       deepResearch Stub.two_branches "X" 2 0 [] []
       = Some (EvSend DEFAULT_MODEL o3MiniConfig (serpPrompt "X" 2 (Some [])) :: t, o)
       /\ Forall no_deeper t.
Proof.
  split; [exact Stub_splitter_shrinks|].
  destruct (deepResearch_depth0 Stub.two_branches "X" 2 [] []
              Stub_splitter_shrinks)
    as (t0 & plan & t & o & _ & E & _ & H & _).
  exists t, o. split; assumption.
Defined.

(** C4, as it is worded, fails: the planner returns no query to a call
    that has accumulated a learning and a URL, and the call returns neither. *)
Lemma no_queries_forgets_accumulated :
  (exists t,
      generateSerpQueries Stub.no_queries (AtPlan []) "X" 2 (Some ["L0"])
      = Some (t, Returned (PlanArray [])))
  /\ forall t,
       deepResearch Stub.no_queries "X" 2 1 ["L0"] ["u0"]
       <> Some (t, Returned (mkResearchResult ["L0"] ["u0"])).
Proof.
  split.
  - eexists. vm_compute. reflexivity.
  - intros t. vm_compute. intros H. discriminate H.
Qed.

(** The same loss below the root: with depth 2 both branches digest a
    learning and recurse, the planner of the recursive calls returns no
    query, and the top-level call returns nothing. *)
Example no_queries_below_the_root :
  exists t,
    deepResearch Stub.two_branches "X" 2 2 [] []
    = Some (t, Returned (mkResearchResult [] []))
    /\ searched t = ["q1"; "q2"].
Proof. eexists. vm_compute. split; reflexivity. Qed.

(** C4, amended.  When the planner returns no query, the call, at the root
    or below, makes no call to the search provider and returns at once the
    empty result, whatever was accumulated: its trace is that of the
    planner. *)
Theorem deepResearch_no_queries
        (w : World) (fuel : nat) (path : list nat) (c : Call) (t : list event) :
  generateSerpQueries w (AtPlan path) (call_query c) (call_breadth c)
    (Some (call_learnings c)) = Some (t, Returned (PlanArray [])) ->
  deepResearch_fuel w fuel path c = Some (t, Returned (mkResearchResult [] []))
  /\ Forall no_search t.
Proof.
  intros H. split.
  - rewrite deepResearch_fuel_eq. unfold deepResearch_body. rewrite H. simpl.
    now rewrite app_nil_r.
  - eapply Forall_impl; [|exact (generateSerpQueries_traces w _ _ _ _ _ _ H)].
    intros [] Hev; simpl in *; tauto.
Qed.

Lemma deepResearch_no_queries_witness :
  let t := [EvSend DEFAULT_MODEL o3MiniConfig (serpPrompt "X" 2 (Some []))] in
  generateSerpQueries Stub.no_queries (AtPlan []) "X" 2 (Some [])
  = Some (t, Returned (PlanArray []))
  /\ deepResearch Stub.no_queries "X" 2 1 [] []
     = Some (t, Returned (mkResearchResult [] []))
  /\ Forall no_search t.
Proof.
  split; [vm_compute; reflexivity|].
  apply (deepResearch_no_queries Stub.no_queries (Z.to_nat 1) []
           (mkCall "X" 2 1 [] [])).
  vm_compute. reflexivity.
Defined.



Example second_search_fails_run :
  exists t,
    deepResearch Stub.second_search_fails "X" 2 1 [] []
    = Some (t, Returned (mkResearchResult ["L1"] ["https://a"])).
Proof. eexists. vm_compute. reflexivity. Qed.

(** Learnings and questions that are strings: a leaf branch returns the
    code units of the learnings, one by one, and a branch that would
    recurse logs the recursion, fails to build the next query, and ends in
    the [catch] with the empty result. *)
Example text_questions_are_caught :
  (exists t,
      branch_step Samples.text_questions [] 2 1 [] [] 0 (mkSerpQuery "q1" "g1")
      = Some (t, Returned (inr (mkResearchResult ["L"; "1"] ["https://a"]))))
  /\ exists t,
       branch_step Samples.text_questions [] 2 2 [] [] 0 (mkSerpQuery "q1" "g1")
       = Some (t, Returned (inr emptyResult))
       /\ In (EvDeeper 1 1) t.
Proof.
  split; eexists; [vm_compute; reflexivity|].
  split; [vm_compute; reflexivity|]. simpl. tauto.
Qed.

(** A branch that rejects is another matter: the element [null] of the
    plan makes the call reject although no search fails, and a failure of
    the search of the other branch does not change that. *)
Example rejection_is_not_a_search_failure :
  (exists t, deepResearch Samples.null_item "X" 2 1 [] [] = Some (t, Thrown TypeError))
  /\ exists t,
       deepResearch (search_failing Samples.null_item [] 1 Stub.search_failed)
         "X" 2 1 [] []
       = Some (t, Thrown TypeError).
Proof. split; eexists; vm_compute; reflexivity. Qed.

(** C8.  The breadth that a branch computes for the next level,
    [Math.ceil(breadth / 2)], is at least 1 when the breadth is, and it is
    the breadth of the recursive call that the branch asks for. *)
Theorem newBreadth_at_least_1 (breadth : Z) :
  (1 <= breadth)%Z ->
  (1 <= Math_ceil_div breadth 2)%Z
  /\ forall w path depth l u i serpQuery t call,
       branch_step w path breadth depth l u i serpQuery
       = Some (t, Returned (inl call)) ->
       call_breadth call = Math_ceil_div breadth 2.
Proof.
  intros Hb. split.
  - rewrite Math_ceil_div_2.
    apply Z.div_le_lower_bound; lia.
  - intros w path depth l u i serpQuery t call E.
    apply branch_step_decayed in E. destruct E as (_ & _ & E). exact E.
Qed.

Lemma newBreadth_at_least_1_witness :
  (1 <= 1)%Z /\ (1 <= Math_ceil_div 1 2)%Z.
Proof.
  split; [lia|]. apply (newBreadth_at_least_1 1). lia.
Defined.



(** C10.  Two lists of messages with the same last content (or both empty)
    make, with the same configuration, the same request: the same texts
    sent to the model, the same waits, the same outcome.  So what every
    caller sends is its prompt alone: the system message that
    [formatMessages] puts first has no part in a request, and neither the
    research nor the report depends on the system prompt. *)
Theorem makeModelRequest_last_message_only
        (upstream : nat -> reply) (Math_random : nat -> Q)
        (messages1 messages2 : list Message) (config : ModelConfig) :
  option_map content (last_message messages1)
  = option_map content (last_message messages2) ->
  makeModelRequest upstream Math_random messages1 config
  = makeModelRequest upstream Math_random messages2 config
  /\ o3MiniModel upstream Math_random messages1
     = o3MiniModel upstream Math_random messages2
  /\ (forall system1 system2 prompt,
         o3MiniModel upstream Math_random (formatMessages system1 prompt)
         = o3MiniModel upstream Math_random (formatMessages system2 prompt))
  /\ (forall w sp query breadth depth learnings0 visitedUrls0,
         deepResearch (with_systemPrompt w sp) query breadth depth
           learnings0 visitedUrls0
         = deepResearch w query breadth depth learnings0 visitedUrls0)
  /\ (forall w sp prompt learnings0 visitedUrls0,
         writeFinalReport (with_systemPrompt w sp) prompt learnings0 visitedUrls0
         = writeFinalReport w prompt learnings0 visitedUrls0).
Proof.
  intros H. split; [now apply makeModelRequest_last|]. split; [|split; [|split]].
  - unfold o3MiniModel.
    now rewrite (makeModelRequest_last upstream Math_random messages1 messages2).
  - intros. apply o3MiniModel_ignores_system.
  - intros. apply deepResearch_fuel_with_systemPrompt.
  - intros. apply writeFinalReport_with_systemPrompt.
Qed.

Lemma makeModelRequest_last_message_only_witness :
  option_map content
    (last_message (formatMessages "You are an expert researcher." "p"))
  = option_map content (last_message [mkMessage user "p" "user"])
  /\ makeModelRequest Stub.four_throttles Stub.half
       (formatMessages "You are an expert researcher." "p") o3MiniConfig
     = makeModelRequest Stub.four_throttles Stub.half
         [mkMessage user "p" "user"] o3MiniConfig.
Proof.
  split; [reflexivity|].
  apply (makeModelRequest_last_message_only Stub.four_throttles Stub.half
           (formatMessages "You are an expert researcher." "p")
           [mkMessage user "p" "user"] o3MiniConfig).
  reflexivity.
Defined.

End Properties.

(* ====================================================================== *)
(** ** More properties of the request layer *)
(* ====================================================================== *)

Module RequestLayer.

Import JS.
Import Providers.
Import Models.
Import JSFacts.
Import MFacts.
Import ProvidersFacts.
Import TrimFacts.

Lemma pow2_ge_1 (k : nat) : (1 <= 2 ^ Z.of_nat k)%Z.
Proof.
  change 1%Z with (2 ^ 0)%Z. apply Z.pow_le_mono_r; lia.
Qed.

(** X1.  The capped exponential delay lies between the initial and the
    maximal delay, does not decrease with the number of the retry, and is
    the maximal delay from the third retry on. *)
Theorem exponentialDelay_capped (k : nat) :
  (INITIAL_RETRY_DELAY <= exponentialDelay k <= MAX_RETRY_DELAY)%Z
  /\ (forall j, k <= j -> (exponentialDelay k <= exponentialDelay j)%Z)
  /\ (3 <= k -> exponentialDelay k = MAX_RETRY_DELAY).
Proof.
  unfold exponentialDelay, INITIAL_RETRY_DELAY, MAX_RETRY_DELAY.
  pose proof (pow2_ge_1 k) as Hk. split; [lia|]. split.
  - intros j Hj.
    assert (2 ^ Z.of_nat k <= 2 ^ Z.of_nat j)%Z by (apply Z.pow_le_mono_r; lia).
    lia.
  - intros H3.
    assert (2 ^ 3 <= 2 ^ Z.of_nat k)%Z by (apply Z.pow_le_mono_r; lia).
    change (2 ^ 3)%Z with 8%Z in *. lia.
Qed.

Section Request.

Variable upstream : nat -> reply.
Variable Math_random : nat -> Q.

Lemma sends_app (t1 t2 : list event) : sends (t1 ++ t2) = sends t1 + sends t2.
Proof. unfold sends. now rewrite filter_app, length_app. Qed.

Lemma waited_app (t1 t2 : list event) :
  (waited (t1 ++ t2) == waited t1 + waited t2)%Q.
Proof.
  induction t1 as [|ev t1 IH]; simpl.
  - now rewrite Qplus_0_l.
  - destruct ev; try exact IH. rewrite IH. now rewrite Qplus_assoc.
Qed.

Lemma sends_retry_trace config text :
  forall n first, sends (retry_trace Math_random config text first n) = S n.
Proof.
  induction n as [|n IH]; intros first; [reflexivity|].
  rewrite retry_trace_S. unfold sends in *. simpl. now rewrite IH.
Qed.

Lemma waited_retry_trace_S config text first n :
  waited (retry_trace Math_random config text first (S n))
  = (delay_ms (Math_random (S first)) (S first)
     + waited (retry_trace Math_random config text (S first) n))%Q.
Proof. now rewrite retry_trace_S. Qed.

Hypothesis random_unit : forall k, (0 <= Math_random k)%Q /\ (Math_random k < 1)%Q.

Lemma delay_ms_window (k : nat) (d : Z) :
  exponentialDelay k = d ->
  (inject_Z d <= delay_ms (Math_random k) k)%Q
  /\ (delay_ms (Math_random k) k < inject_Z d + 1000)%Q.
Proof.
  intros <-. destruct (random_unit k). now apply delay_ms_bounds.
Qed.

(** The waits of a request that is retried [n <= 5] times. *)
Lemma waited_retry_trace_bound config text n :
  n <= MAX_RETRIES ->
  (0 <= waited (retry_trace Math_random config text 0 n))%Q
  /\ (waited (retry_trace Math_random config text 0 n) < 68000)%Q.
Proof.
  unfold MAX_RETRIES. intros Hn.
  destruct (delay_ms_window 1 6000 eq_refl) as [L1 U1].
  destruct (delay_ms_window 2 12000 eq_refl) as [L2 U2].
  destruct (delay_ms_window 3 15000 eq_refl) as [L3 U3].
  destruct (delay_ms_window 4 15000 eq_refl) as [L4 U4].
  destruct (delay_ms_window 5 15000 eq_refl) as [L5 U5].
  unfold inject_Z in *.
  do 6 (destruct n as [|n];
        [ repeat rewrite waited_retry_trace_S; rewrite retry_trace_0; simpl waited;
          split; lra |]).
  lia.
Qed.

End Request.

(** What [o3MiniModel] does after the request. *)
Lemma o3MiniModel_run
      (upstream : nat -> reply) (Math_random : nat -> Q)
      (messages : list Message) (m : Message) :
  exists n,
    n <= MAX_RETRIES
    /\ (forall k, k < n -> throttling (upstream k) = true)
    /\ (n < MAX_RETRIES -> throttling (upstream n) = false)
    /\ o3MiniModel upstream Math_random (messages ++ [m])
       = Some (retry_trace Math_random o3MiniConfig (content m) 0 n
                 ++ last_wait Math_random (upstream n),
               o3Mini_outcome (upstream n)).
Proof.
  destruct (request_loop_spec upstream Math_random o3MiniConfig (content m)
              (MAX_RETRIES + 1) 0) as (n & Hn & Hthr & Hstop & Hrun);
    [reflexivity | unfold MAX_RETRIES; lia |].
  rewrite Nat.sub_0_r in Hrun.
  exists n. split; [lia|]. split; [intros k Hk; apply Hthr; lia|].
  split; [exact Hstop|].
  unfold o3MiniModel, makeModelRequest. rewrite last_message_snoc, Hrun.
  destruct (upstream n) as [response|error]; simpl.
  - destruct (falsy response); simpl; now rewrite app_nil_r.
  - unfold handleGoogleAIError. destruct (status_is_429 error); simpl;
      [reflexivity | now rewrite app_nil_r].
Qed.

(** X2.  Whatever the model answers, with a jitter drawn in [0, 1) a
    request sends its text at most 6 times and waits less than 68 seconds
    in all; [o3MiniModel], which may wait once more before it throws, sends
    at most 6 times and waits less than 72 seconds. *)
Theorem request_budget
        (upstream : nat -> reply) (Math_random : nat -> Q)
        (messages : list Message) (m : Message) (config : ModelConfig) :
  (forall k, (0 <= Math_random k)%Q /\ (Math_random k < 1)%Q) ->
  (exists t o,
      makeModelRequest upstream Math_random (messages ++ [m]) config = Some (t, o)
      /\ sends t <= 6 /\ (waited t < 68000)%Q)
  /\ (exists t o,
         o3MiniModel upstream Math_random (messages ++ [m]) = Some (t, o)
         /\ sends t <= 6 /\ (waited t < 72000)%Q).
Proof.
  intros Hrnd.
  assert (Hreq : forall config',
             exists n, n <= MAX_RETRIES
                       /\ makeModelRequest upstream Math_random (messages ++ [m]) config'
                          = Some (retry_trace Math_random config' (content m) 0 n,
                                  final_outcome (upstream n))).
  { intros config'. unfold makeModelRequest. rewrite last_message_snoc.
    destruct (request_loop_spec upstream Math_random config' (content m)
                (MAX_RETRIES + 1) 0) as (n & Hn & _ & _ & Hrun);
      [reflexivity | unfold MAX_RETRIES; lia |].
    exists n. rewrite Nat.sub_0_r in Hrun. split; [lia | exact Hrun]. }
  split.
  - destruct (Hreq config) as (n & Hn & E).
    exists (retry_trace Math_random config (content m) 0 n), (final_outcome (upstream n)).
    split; [exact E|]. rewrite sends_retry_trace. split; [unfold MAX_RETRIES in Hn; lia|].
    now apply waited_retry_trace_bound.
  - destruct (o3MiniModel_run upstream Math_random messages m)
      as (n & Hn & _ & _ & E).
    pose proof (waited_retry_trace_bound Math_random Hrnd o3MiniConfig (content m) n Hn)
      as [Hw0 Hw].
    destruct (delay_ms_window Math_random Hrnd 0 3000 eq_refl) as [L0 U0].
    unfold inject_Z in L0, U0.
    eexists _, _. split; [exact E|]. rewrite sends_app, sends_retry_trace.
    unfold MAX_RETRIES in Hn. split.
    + destruct (upstream n) as [response|error]; unfold sends at 1; simpl; [lia|].
      destruct (status_is_429 error); simpl; lia.
    + rewrite waited_app.
      set (W := waited (retry_trace Math_random o3MiniConfig (content m) 0 n)) in *.
      destruct (upstream n) as [response|error]; simpl; [lra|].
      destruct (status_is_429 error); simpl; lra.
Qed.

Lemma request_budget_witness :
  (forall k, (0 <= Stub.half k)%Q /\ (Stub.half k < 1)%Q)
  /\ exists t o,
       o3MiniModel Stub.always_throttled Stub.half
         (DeepResearch.formatMessages "s" "p") = Some (t, o)
       /\ sends t <= 6 /\ (waited t < 72000)%Q.
Proof.
  assert (H : forall k, (0 <= Stub.half k)%Q /\ (Stub.half k < 1)%Q).
  { intros k. unfold Stub.half. split; [discriminate | reflexivity]. }
  split; [exact H|].
  exact (proj2 (request_budget Stub.always_throttled Stub.half
                  [mkMessage system "s" "system"] (mkMessage user "p" "user")
                  o3MiniConfig H)).
Defined.

(** X3.  [o3MiniModel] on a non-empty list of messages runs the request
    and then, at most, one more wait: it returns the answer of the last
    attempt when that answer is not empty; it throws an error of its own
    for an empty answer; it throws the error of the last attempt as it is,
    after waiting [delay(0)] when that error is a throttling signal.  It
    does not send again what the request gave up on. *)
Theorem o3MiniModel_composition
        (upstream : nat -> reply) (Math_random : nat -> Q)
        (messages : list Message) (m : Message) :
  exists n,
    n <= MAX_RETRIES
    /\ (forall k, k < n -> throttling (upstream k) = true)
    /\ (n < MAX_RETRIES -> throttling (upstream n) = false)
    /\ o3MiniModel upstream Math_random (messages ++ [m])
       = Some (retry_trace Math_random o3MiniConfig (content m) 0 n
                 ++ last_wait Math_random (upstream n),
               o3Mini_outcome (upstream n)).
Proof. exact (o3MiniModel_run upstream Math_random messages m). Qed.

(** X4.  [gpt4Model] and [gpt4MiniModel] run the same request with their
    own settings and, unlike [o3MiniModel], return the answer of the last
    attempt even when it is empty; an error is thrown as by [o3MiniModel]. *)
Theorem gpt4_models_composition
        (upstream : nat -> reply) (Math_random : nat -> Q)
        (messages : list Message) (m : Message) :
  exists n,
    n <= MAX_RETRIES
    /\ (forall k, k < n -> throttling (upstream k) = true)
    /\ (n < MAX_RETRIES -> throttling (upstream n) = false)
    /\ gpt4Model upstream Math_random (messages ++ [m])
       = Some (retry_trace Math_random gpt4Config (content m) 0 n
                 ++ last_wait Math_random (upstream n),
               final_outcome (upstream n))
    /\ gpt4MiniModel upstream Math_random (messages ++ [m])
       = Some (retry_trace Math_random gpt4MiniConfig (content m) 0 n
                 ++ last_wait Math_random (upstream n),
               final_outcome (upstream n))
    /\ maxOutputTokens (generationConfig gpt4Config) = 8192%Z
    /\ maxOutputTokens (generationConfig gpt4MiniConfig) = 4096%Z.
Proof.
  destruct (request_loop_spec upstream Math_random gpt4Config (content m)
              (MAX_RETRIES + 1) 0) as (n & Hn & Hthr & Hstop & Hrun);
    [reflexivity | unfold MAX_RETRIES; lia |].
  destruct (request_loop_spec upstream Math_random gpt4MiniConfig (content m)
              (MAX_RETRIES + 1) 0) as (n' & Hn' & Hthr' & Hstop' & Hrun');
    [reflexivity | unfold MAX_RETRIES; lia |].
  assert (n' = n).
  { destruct (Nat.lt_trichotomy n' n) as [Hlt | [Heq | Hlt]]; [|exact Heq|].
    - rewrite (Hthr n') in Hstop' by lia. discriminate Hstop'. lia.
    - rewrite (Hthr' n) in Hstop by lia. discriminate Hstop. lia. }
  subst n'. rewrite Nat.sub_0_r in Hrun, Hrun'.
  exists n. split; [lia|]. split; [intros k Hk; apply Hthr; lia|].
  split; [exact Hstop|].
  unfold gpt4Model, gpt4MiniModel, makeModelRequest.
  rewrite last_message_snoc, Hrun, Hrun'.
  destruct (upstream n) as [response|error]; simpl.
  - rewrite !app_nil_r. auto.
  - unfold handleGoogleAIError. destruct (status_is_429 error); simpl;
      rewrite ?app_nil_r; auto.
Qed.

(** X5.  [convertToGoogleAIMessages] keeps the number, the order and the
    texts of the messages, gives every system message the role of the
    user, keeps the other roles, and so never yields a system message. *)
Theorem convertToGoogleAIMessages_roles (messages : list Message) :
  List.length (convertToGoogleAIMessages messages) = List.length messages
  /\ map snd (convertToGoogleAIMessages messages)
     = map (fun m => [content m]) messages
  /\ Forall (fun part => fst part <> system) (convertToGoogleAIMessages messages)
  /\ (forall i m,
         nth_error messages i = Some m ->
         exists r,
           nth_error (convertToGoogleAIMessages messages) i = Some (r, [content m])
           /\ (role m = system -> r = user)
           /\ (role m <> system -> r = role m)).
Proof.
  unfold convertToGoogleAIMessages. split; [apply length_map|].
  split; [now rewrite map_map|]. split.
  - apply Forall_forall. intros part Hin. apply in_map_iff in Hin as (m & <- & _).
    simpl. destruct (role m); discriminate.
  - intros i m Hi. eexists. split.
    + rewrite nth_error_map, Hi. reflexivity.
    + destruct (role m); split; intros H; congruence.
Qed.

Section Trim.

Variable encode : string -> list N.
Variable splitText : Z -> Z -> string -> list string.

Lemma trimPrompt_fuel_shorter (contextSize : Z) :
  splitter_shrinks splitText ->
  forall fuel prompt r,
    trimPrompt_fuel encode splitText fuel prompt contextSize = Some r ->
    String.length r <= String.length prompt.
Proof.
  intros Hsplit.
  induction fuel as [|fuel IH]; intros prompt r H;
    rewrite trimPrompt_fuel_eq in H; cbv zeta in H.
  all: destruct (falsy prompt) eqn:Ep; [injection H as <-; simpl; lia|].
  all: destruct (Z.leb_spec (Z.of_nat (List.length (encode prompt))) contextSize)
    as [Hfit|Hover]; [injection H as <-; lia|].
  all: destruct (Z.ltb_spec
                   (Z.of_nat (String.length prompt)
                    - (Z.of_nat (List.length (encode prompt)) - contextSize) * 3)
                   MinChunkSize) as [Hsmall|Hbig];
    [ injection H as <-; unfold MinChunkSize; rewrite slice0_length by lia; lia |].
  - discriminate.
  - set (chunkSize := (Z.of_nat (String.length prompt)
                       - (Z.of_nat (List.length (encode prompt)) - contextSize) * 3)%Z)
      in *.
    unfold MinChunkSize in Hbig.
    destruct (String.length (hd EmptyString (splitText chunkSize 200 prompt))
              =? String.length prompt).
    + apply IH in H. rewrite slice0_length in H by lia. lia.
    + apply IH in H. pose proof (Hsplit chunkSize 200%Z prompt). lia.
Qed.

Lemma trimPrompt_fuel_fits_or_short (contextSize : Z) :
  forall fuel prompt r,
    trimPrompt_fuel encode splitText fuel prompt contextSize = Some r ->
    (Z.of_nat (List.length (encode r)) <= contextSize)%Z
    \/ (Z.of_nat (String.length r) <= MinChunkSize)%Z.
Proof.
  induction fuel as [|fuel IH]; intros prompt r H;
    rewrite trimPrompt_fuel_eq in H; cbv zeta in H.
  all: destruct (falsy prompt) eqn:Ep;
    [injection H as <-; right; unfold MinChunkSize; simpl; lia|].
  all: destruct (Z.leb_spec (Z.of_nat (List.length (encode prompt))) contextSize)
    as [Hfit|Hover]; [injection H as <-; now left|].
  all: destruct (Z.ltb_spec
                   (Z.of_nat (String.length prompt)
                    - (Z.of_nat (List.length (encode prompt)) - contextSize) * 3)
                   MinChunkSize) as [Hsmall|Hbig];
    [ injection H as <-; right; unfold MinChunkSize;
      rewrite slice0_length by lia; lia |].
  - discriminate.
  - destruct (String.length _ =? String.length prompt); eapply IH, H.
Qed.

End Trim.

(** X6.  With a splitter that does not lengthen the text, the trimmer
    returns a text that is not longer than the prompt, and returns the
    prompt itself when it fits the bound. *)
Theorem trimPrompt_never_longer
        (encode : string -> list N) (splitText : Z -> Z -> string -> list string)
        (prompt : string) (contextSize : Z) :
  splitter_shrinks splitText ->
  exists r,
    trimPrompt encode splitText prompt contextSize = Some r
    /\ String.length r <= String.length prompt
    /\ ((Z.of_nat (List.length (encode prompt)) <= contextSize)%Z -> r = prompt).
Proof.
  intros Hsplit.
  destruct (trimPrompt_total encode splitText prompt contextSize Hsplit) as (r & Hr).
  exists r. split; [exact Hr|]. split.
  - eapply trimPrompt_fuel_shorter; eassumption.
  - intros Hfit. unfold trimPrompt in Hr. rewrite trimPrompt_fuel_eq in Hr.
    destruct (falsy prompt) eqn:Ep.
    + apply falsy_true in Ep. congruence.
    + cbv zeta in Hr.
      destruct (Z.leb_spec (Z.of_nat (List.length (encode prompt))) contextSize);
        [congruence | lia].
Qed.

Lemma trimPrompt_never_longer_witness :
  splitter_shrinks Stub.splitText
  /\ exists r,
       trimPrompt Stub.encode Stub.splitText (Stub.repeat_string 3000 "a") 2900 = Some r
       /\ String.length r <= String.length (Stub.repeat_string 3000 "a").
Proof.
  split; [exact Stub_splitter_shrinks|].
  destruct (trimPrompt_never_longer Stub.encode Stub.splitText
              (Stub.repeat_string 3000 "a") 2900 Stub_splitter_shrinks)
    as (r & Hr & Hlen & _).
  exists r. split; assumption.
Defined.

(** X7.  With such a splitter, what the trimmer returns fits the bound in
    tokens or is at most [MinChunkSize] code units long.  The second case is
    the hard truncation, which may stay over the bound. *)
Theorem trimPrompt_fits_or_short
        (encode : string -> list N) (splitText : Z -> Z -> string -> list string)
        (prompt : string) (contextSize : Z) :
  splitter_shrinks splitText ->
  exists r,
    trimPrompt encode splitText prompt contextSize = Some r
    /\ ((Z.of_nat (List.length (encode r)) <= contextSize)%Z
        \/ (Z.of_nat (String.length r) <= MinChunkSize)%Z).
Proof.
  intros Hsplit.
  destruct (trimPrompt_total encode splitText prompt contextSize Hsplit) as (r & Hr).
  exists r. split; [exact Hr|].
  eapply trimPrompt_fuel_fits_or_short. exact Hr.
Qed.

Lemma trimPrompt_fits_or_short_witness :
  splitter_shrinks Stub.splitText
  /\ exists r,
       trimPrompt Stub.encode Stub.splitText (Stub.repeat_string 5000 "a") 10 = Some r
       /\ ((Z.of_nat (List.length (Stub.encode r)) <= 10)%Z
           \/ (Z.of_nat (String.length r) <= MinChunkSize)%Z).
Proof.
  split; [exact Stub_splitter_shrinks|].
  apply (trimPrompt_fits_or_short Stub.encode Stub.splitText
           (Stub.repeat_string 5000 "a") 10).
  exact Stub_splitter_shrinks.
Defined.

End RequestLayer.

(* ====================================================================== *)
(** ** More properties of the planner, the digester and the orchestrator *)
(* ====================================================================== *)

Module ResearchFacts.

Import JS.
Import Providers.
Import Models.
Import DeepResearch.
Import Budget.
Import JSFacts.
Import MFacts.
Import ProvidersFacts.
Import TrimFacts.
Import OrchestratorFacts.

Lemma aslice0_firstn {A} (a : list A) (e : Z) :
  (0 <= e)%Z -> aslice0 a e = firstn (Z.to_nat e) a.
Proof. intros He. unfold aslice0. destruct (Z.ltb_spec e 0); [lia | reflexivity]. Qed.

Lemma aslice0_length {A} (a : list A) (e : Z) :
  (0 <= e)%Z -> List.length (aslice0 a e) <= Z.to_nat e.
Proof. intros He. rewrite aslice0_firstn by assumption. apply firstn_le_length. Qed.

Lemma traces_no_search {A} (c : M A) :
  traces model_event c -> traces no_search c.
Proof. apply traces_weaken. intros [] H; simpl in *; tauto. Qed.

Lemma searched_model (t : list event) :
  Forall model_event t -> searched t = [].
Proof.
  intros H. apply searched_no_search.
  eapply Forall_impl; [|exact H]. intros [] Hev; simpl in *; tauto.
Qed.

Section World.

Variable w : World.

Lemma ask_nonempty s prompt :
  yields (fun content => falsy content = false) (ask w s prompt).
Proof. apply o3MiniModel_nonempty. Qed.

Lemma slice_plan_length plan e :
  (0 <= e)%Z -> plan_length (slice_plan plan e) <= Z.to_nat e.
Proof.
  intros He. destruct plan as [items|text]; simpl.
  - now apply aslice0_length.
  - rewrite slice0_length by assumption. lia.
Qed.

Lemma generateSerpQueries_length s query numQueries learnings0 :
  (0 <= numQueries)%Z ->
  yields (fun plan => plan_length plan <= Z.to_nat numQueries)
    (generateSerpQueries w s query numQueries learnings0).
Proof.
  intros Hn. unfold generateSerpQueries. apply yields_try_catch.
  - apply yields_bind. intros content.
    destruct (falsy content); [apply yields_ret; simpl; lia|].
    apply yields_try_catch; [|intros; apply yields_ret; simpl; lia].
    destruct (parse_queries w _); [|apply yields_throw].
    apply yields_ret. now apply slice_plan_length.
  - intros; apply yields_ret; simpl; lia.
Qed.

Lemma processSerpResult_lengths s query result numLearnings numFollowUpQuestions :
  (0 <= numLearnings)%Z -> (0 <= numFollowUpQuestions)%Z ->
  yields (fun r => List.length (pr_learnings r) <= Z.to_nat numLearnings
                   /\ List.length (pr_followUpQuestions r)
                      <= Z.to_nat numFollowUpQuestions)
    (processSerpResult w s query result numLearnings numFollowUpQuestions).
Proof.
  intros HL HF. unfold processSerpResult. apply yields_bind. intros contents.
  apply yields_try_catch.
  - apply yields_bind. intros content.
    destruct (falsy content); [apply yields_ret; simpl; lia|].
    apply yields_try_catch; [|intros; apply yields_ret; simpl; lia].
    destruct (parse_process w _); [|apply yields_throw].
    apply yields_ret. simpl. split; now apply aslice0_length.
  - intros; apply yields_ret; simpl; lia.
Qed.

End World.

(** X8.  The planner never throws and makes no call but its request to the
    model.  It returns the empty array when the request fails or when
    reading the answer throws; else it returns what the answer holds as its
    queries, cut by [slice(0, numQueries)] and not checked: the first
    elements of an array, in order, whatever they are, or the first code
    units of a string.  For a number of queries that is not negative, what
    it returns has at most that length. *)
Theorem generateSerpQueries_bounded
        (w : World) (s : site) (query : string) (numQueries : Z)
        (learnings0 : option (list string)) :
  (0 <= numQueries)%Z ->
  exists t plan,
    generateSerpQueries w s query numQueries learnings0 = Some (t, Returned plan)
    /\ plan_length plan <= Z.to_nat numQueries
    /\ Forall model_event t
    /\ (plan = PlanArray []
        \/ exists content parsed,
             ask w s (serpPrompt query numQueries learnings0)
             = Some (t, Returned content)
             /\ parse_queries w (cleanJsonResponse content) = Some parsed
             /\ plan = match parsed with
                       | PlanArray items => PlanArray (firstn (Z.to_nat numQueries) items)
                       | PlanText text => PlanText (take (Z.to_nat numQueries) text)
                       end).
Proof.
  intros Hn.
  destruct (generateSerpQueries_returns w s query numQueries learnings0)
    as (t & plan & E).
  exists t, plan. split; [exact E|].
  split; [exact (generateSerpQueries_length w s query numQueries learnings0 Hn _ _ E)|].
  split; [exact (generateSerpQueries_traces w _ _ _ _ _ _ E)|].
  unfold generateSerpQueries in E.
  destruct (ask w s (serpPrompt query numQueries learnings0))
    as [[t0 [content|e]]|] eqn:Eask; simpl in E.
  - rewrite (ask_nonempty w _ _ _ _ Eask) in E.
    destruct (parse_queries w (cleanJsonResponse content)) as [parsed|] eqn:Eparse;
      simpl in E; inversion E; subst; [|now left].
    right. exists content, parsed. rewrite app_nil_r.
    split; [reflexivity|]. split; [exact Eparse|].
    unfold slice_plan, aslice0, slice0.
    destruct (Z.ltb_spec numQueries 0); [lia|]. now destruct parsed.
  - inversion E; subst. now left.
  - discriminate.
Qed.

Lemma generateSerpQueries_bounded_witness :
  (0 <= 1)%Z
  /\ exists t plan,
       generateSerpQueries Stub.two_branches (AtPlan []) "X" 1 (Some [])
       = Some (t, Returned plan)
       /\ plan_length plan <= Z.to_nat 1.
Proof.
  split; [lia|].
  destruct (generateSerpQueries_bounded Stub.two_branches (AtPlan []) "X" 1 (Some [])
              ltac:(lia)) as (t & plan & E & Hlen & _).
  exists t, plan. split; assumption.
Defined.

Example planner_keeps_the_first_query :
  exists t,
    generateSerpQueries Stub.two_branches (AtPlan []) "X" 1 (Some [])
    = Some (t, Returned (PlanArray [ItemQuery (mkSerpQuery "q1" "g1")])).
Proof. eexists. vm_compute. reflexivity. Qed.

(** Queries that are a string are cut as a string is, and an element
    [null] is kept. *)
Example planner_does_not_check_the_shape :
  (exists t,
      generateSerpQueries Samples.text_plan (AtPlan []) "X" 2 (Some [])
      = Some (t, Returned (PlanText "ab")))
  /\ exists t,
       generateSerpQueries Samples.null_item (AtPlan []) "X" 1 (Some [])
       = Some (t, Returned (PlanArray [ItemNull])).
Proof. split; eexists; vm_compute; reflexivity. Qed.

(** X9.  With a splitter that does not lengthen the text, the digester
    never throws and makes no call but its request to the model; for
    bounds that are not negative it returns at most [numLearnings]
    learnings and at most [numFollowUpQuestions] questions. *)
Theorem processSerpResult_bounded
        (w : World) (s : site) (query : string) (result : SearchResponse)
        (numLearnings numFollowUpQuestions : Z) :
  splitter_shrinks (splitText w) ->
  (0 <= numLearnings)%Z -> (0 <= numFollowUpQuestions)%Z ->
  exists t r,
    processSerpResult w s query result numLearnings numFollowUpQuestions
    = Some (t, Returned r)
    /\ List.length (pr_learnings r) <= Z.to_nat numLearnings
    /\ List.length (pr_followUpQuestions r) <= Z.to_nat numFollowUpQuestions
    /\ Forall model_event t.
Proof.
  intros Hsplit HL HF.
  destruct (processSerpResult_returns w s query result numLearnings
              numFollowUpQuestions Hsplit) as (t & r & E).
  exists t, r. split; [exact E|].
  destruct (processSerpResult_lengths w s query result _ _ HL HF _ _ E) as [H1 H2].
  split; [exact H1|]. split; [exact H2|].
  exact (processSerpResult_traces w _ _ _ _ _ _ _ E).
Qed.

Lemma processSerpResult_bounded_witness :
  splitter_shrinks (splitText Stub.two_branches)
  /\ (0 <= 3)%Z /\ (0 <= 0)%Z
  /\ exists t r,
       processSerpResult Stub.two_branches (AtDigest [] 0) "q1"
         (Stub.page "https://a" "page one") 3 0 = Some (t, Returned r)
       /\ List.length (pr_learnings r) <= Z.to_nat 3
       /\ List.length (pr_followUpQuestions r) <= Z.to_nat 0.
Proof.
  split; [exact Stub_splitter_shrinks|]. split; [lia|]. split; [lia|].
  destruct (processSerpResult_bounded Stub.two_branches (AtDigest [] 0) "q1"
              (Stub.page "https://a" "page one") 3 0
              Stub_splitter_shrinks ltac:(lia) ltac:(lia))
    as (t & r & E & H1 & H2 & _).
  exists t, r. repeat split; assumption.
Defined.

(** *** The report *)

Lemma includes_prefix (pat s : string) :
  String.prefix pat s = true -> includes pat s = true.
Proof. intros H. destruct s; cbn [includes]; now rewrite H. Qed.

(** A text that holds [##] holds [#]. *)
Lemma includes_two_sharps (s : string) :
  includes "##" s = true -> includes "#" s = true.
Proof.
  induction s as [|c s IH]; intros H.
  - discriminate H.
  - cbn [includes] in H.
    destruct (String.prefix "##" (String c s)) eqn:E.
    + apply includes_prefix. cbn [String.prefix] in *.
      destruct (ascii_dec "#" c); [now destruct s | discriminate E].
    + cbn [includes]. destruct (String.prefix "#" (String c s)); [reflexivity|].
      now apply IH.
Qed.

Lemma ask_sends (w : World) s prompt t o :
  ask w s prompt = Some (t, o) -> sends t <= 6.
Proof.
  unfold ask, formatMessages. intros E.
  destruct (RequestLayer.o3MiniModel_run (genAI w s) (Math_random w s)
              [mkMessage system (systemPrompt w s) "system"]
              (mkMessage user prompt "user")) as (n & Hn & _ & _ & Hrun).
  simpl app in Hrun. rewrite Hrun in E. inversion E; subst.
  rewrite RequestLayer.sends_app, RequestLayer.sends_retry_trace.
  unfold MAX_RETRIES in Hn.
  destruct (genAI w s n) as [response|error]; unfold sends at 1; simpl; [lia|].
  destruct (status_is_429 error); simpl; lia.
Qed.

(** X10.  With a splitter that does not lengthen the text, the synthesizer
    never throws: after one request to the model, of at most 6 attempts, it
    returns one of its two error sentences or a text that ends with the
    sources section of the visited URLs. *)
Theorem writeFinalReport_always_a_text
        (w : World) (prompt : string) (learnings0 visitedUrls0 : list string) :
  splitter_shrinks (splitText w) ->
  exists t report,
    writeFinalReport w prompt learnings0 visitedUrls0 = Some (t, Returned report)
    /\ sends t <= 6
    /\ searched t = []
    /\ (report = "Error: Could not generate report"
        \/ report = "Error: Could not parse report"
        \/ exists body, report = (body ++ urlsSection visitedUrls0)%string).
Proof.
  intros Hsplit. unfold writeFinalReport.
  destruct (trimPrompt_total (encode w) (splitText w)
              (join nl (map (fun learning => ("- " ++ learning)%string) learnings0))
              150000 Hsplit) as (learningsString & ->).
  unfold lift_option. rewrite bind_ret_l.
  pose proof (ask_traces w AtReport (reportPrompt prompt learningsString)) as Htr.
  pose proof (ask_sends w AtReport (reportPrompt prompt learningsString)) as Hs.
  pose proof (ask_nonempty w AtReport (reportPrompt prompt learningsString)) as Hne.
  destruct (ask w AtReport (reportPrompt prompt learningsString))
    as [[t [content|e]]|] eqn:Eask.
  - pose proof (Hs _ _ eq_refl) as Hs'. pose proof (Htr _ _ eq_refl) as Htr'.
    simpl. rewrite (Hne _ _ eq_refl). simpl.
    assert (Hsearch : searched (t ++ []) = []).
    { rewrite app_nil_r. apply searched_no_search.
      eapply Forall_impl; [|exact Htr']. intros [] H; simpl in *; tauto. }
    destruct (parse_report w (cleanJsonResponse content)) as [R|]; simpl.
    + eexists _, _. split; [reflexivity|]. rewrite app_nil_r in *.
      split; [exact Hs'|]. split; [exact Hsearch|]. right. right. now exists R.
    + destruct (includes "#" content || includes "##" content); simpl.
      * eexists _, _. split; [reflexivity|]. rewrite !app_nil_r in *.
        split; [exact Hs'|]. split; [exact Hsearch|]. right. right. now exists content.
      * eexists _, _. split; [reflexivity|]. rewrite !app_nil_r in *.
        split; [exact Hs'|]. split; [exact Hsearch|]. right. now left.
  - pose proof (Hs _ _ eq_refl) as Hs'. pose proof (Htr _ _ eq_refl) as Htr'.
    simpl. eexists _, _. split; [reflexivity|]. rewrite app_nil_r.
    split; [exact Hs'|]. split; [|now left].
    apply searched_no_search.
    eapply Forall_impl; [|exact Htr']. intros [] H; simpl in *; tauto.
  - destruct (ask_finishes w AtReport (reportPrompt prompt learningsString))
      as (t & o & E). congruence.
Qed.

Lemma writeFinalReport_always_a_text_witness :
  splitter_shrinks (splitText Stub.no_queries)
  /\ exists t report,
       writeFinalReport Stub.no_queries "X" ["L1"] ["u1"] = Some (t, Returned report)
       /\ sends t <= 6.
Proof.
  split; [exact Stub_splitter_shrinks|].
  destruct (writeFinalReport_always_a_text Stub.no_queries "X" ["L1"] ["u1"]
              Stub_splitter_shrinks) as (t & report & E & Hs & _).
  exists t, report. split; assumption.
Defined.

(** X11.  When the model answers the synthesizer and reading the answer
    as JSON throws ([JSON.parse] throws, or the parsed value is [null]),
    the report is the answer as it is, followed by the sources section, if
    the answer holds a [#]; it is the sentence that the report could not be
    parsed if not.  The second test of the source, for [##], changes
    nothing.  An answer that is JSON of another shape does not come here:
    see [shapeless_report_is_accepted]. *)
Theorem writeFinalReport_unparsed
        (w : World) (prompt : string) (learnings0 visitedUrls0 : list string)
        (learningsString : string) (t : list event) (content : string) :
  trimPrompt (encode w) (splitText w)
    (join nl (map (fun learning => ("- " ++ learning)%string) learnings0)) 150000
  = Some learningsString ->
  ask w AtReport (reportPrompt prompt learningsString) = Some (t, Returned content) ->
  parse_report w (cleanJsonResponse content) = None ->
  writeFinalReport w prompt learnings0 visitedUrls0
  = Some (t, Returned (if includes "#" content
                       then (content ++ urlsSection visitedUrls0)%string
                       else "Error: Could not parse report")).
Proof.
  intros Htrim Hask Hparse. unfold writeFinalReport. rewrite Htrim.
  unfold lift_option. rewrite bind_ret_l. rewrite Hask.
  pose proof (ask_nonempty w _ _ _ _ Hask) as Hne. simpl in Hne.
  simpl. rewrite Hne, Hparse. simpl.
  assert (Hor : includes "#" content || includes "##" content = includes "#" content).
  { destruct (includes "#" content) eqn:E1; [reflexivity|].
    destruct (includes "##" content) eqn:E2; [|reflexivity].
    apply includes_two_sharps in E2. congruence. }
  rewrite Hor. destruct (includes "#" content); simpl; now rewrite !app_nil_r.
Qed.

Lemma writeFinalReport_unparsed_witness :
  trimPrompt (encode Samples.markdown_report) (splitText Samples.markdown_report)
    (join nl (map (fun learning => ("- " ++ learning)%string) ["L1"])) 150000
  = Some "- L1"
  /\ ask Samples.markdown_report AtReport (reportPrompt "X" "- L1")
     = Some ([EvSend DEFAULT_MODEL o3MiniConfig (reportPrompt "X" "- L1")],
             Returned "# Findings")
  /\ parse_report Samples.markdown_report (cleanJsonResponse "# Findings") = None
  /\ writeFinalReport Samples.markdown_report "X" ["L1"] ["u1"]
     = Some ([EvSend DEFAULT_MODEL o3MiniConfig (reportPrompt "X" "- L1")],
             Returned ("# Findings" ++ nl ++ nl ++ "## Sources" ++ nl ++ nl
                       ++ "- u1")%string).
Proof.
  split; [vm_compute; reflexivity|].
  split; [vm_compute; reflexivity|].
  split; [vm_compute; reflexivity|].
  apply (writeFinalReport_unparsed Samples.markdown_report "X" ["L1"] ["u1"] "- L1"
           [EvSend DEFAULT_MODEL o3MiniConfig (reportPrompt "X" "- L1")]
           "# Findings");
    vm_compute; reflexivity.
Defined.

(** A JSON object without [reportMarkdown] is not a failure of the parse:
    the report begins with the text [undefined]. *)
Example shapeless_report_is_accepted :
  exists t,
    writeFinalReport Samples.shapeless_report "X" ["L1"] ["u1"]
    = Some (t, Returned ("undefined" ++ nl ++ nl ++ "## Sources" ++ nl ++ nl
                         ++ "- u1")%string).
Proof. eexists. vm_compute. reflexivity. Qed.

(** *** The budget of search calls *)

Lemma searched_length_app (t1 t2 : list event) :
  List.length (searched (t1 ++ t2))
  = List.length (searched t1) + List.length (searched t2).
Proof. now rewrite searched_app, length_app. Qed.

Lemma Promise_all_from_searched_le {A B} (f : nat -> A -> M B) (K : nat) :
  (forall i x t o, f i x = Some (t, o) -> List.length (searched t) <= K) ->
  forall a i t o,
    Promise_all_from f i a = Some (t, o) ->
    List.length (searched t) <= List.length a * K.
Proof.
  intros Hf. induction a as [|x a IH]; intros i t o H.
  - inversion H; subst. simpl. lia.
  - apply Promise_all_from_cons in H as (t1 & o1 & t2 & o2 & H1 & H2 & -> & _).
    apply Hf in H1. apply IH in H2. rewrite searched_length_app. simpl. lia.
Qed.

Section World.

Variable w : World.

Lemma branch_searched_le rec path breadth depth learnings0 visitedUrls0 i serpQuery R :
  (forall path' call t o,
      call_depth call = to_double (depth - 1) -> (0 < call_depth call)%Z ->
      call_breadth call = Math_ceil_div breadth 2 ->
      rec path' call = Some (t, o) -> List.length (searched t) <= R) ->
  forall t o,
    branch w rec path breadth depth learnings0 visitedUrls0 i serpQuery = Some (t, o) ->
    List.length (searched t) <= 1 + R.
Proof.
  intros Hrec t o H. unfold branch in H.
  apply bind_Some in H as [(e & H & _) | (t1 & [call|r] & t2 & H1 & H2 & ->)].
  - rewrite (branch_step_searched w _ _ _ _ _ _ _ _ _ H). simpl. lia.
  - rewrite searched_length_app, (branch_step_searched w _ _ _ _ _ _ _ _ _ H1).
    apply branch_step_decayed in H1. destruct H1 as (E1 & E2 & E3).
    pose proof (Hrec _ _ _ _ E1 E2 E3 H2). simpl. lia.
  - rewrite searched_length_app, (branch_step_searched w _ _ _ _ _ _ _ _ _ H1).
    inversion H2; subst. simpl. lia.
Qed.

Lemma branch_of_searched_le rec path breadth depth learnings0 visitedUrls0 i item R :
  (forall path' call t o,
      call_depth call = to_double (depth - 1) -> (0 < call_depth call)%Z ->
      call_breadth call = Math_ceil_div breadth 2 ->
      rec path' call = Some (t, o) -> List.length (searched t) <= R) ->
  forall t o,
    branch_of w rec path breadth depth learnings0 visitedUrls0 i item = Some (t, o) ->
    List.length (searched t) <= 1 + R.
Proof.
  intros Hrec t o H. destruct item as [serpQuery|]; simpl in H.
  - eapply branch_searched_le; eassumption.
  - inversion H; subst. simpl. lia.
Qed.

Lemma levels_S (depth : Z) : levels depth = S (levels depth - 1).
Proof. unfold levels. lia. Qed.

Lemma levels_below (depth : Z) :
  (0 < depth - 1)%Z -> levels (depth - 1) = levels depth - 1.
Proof. unfold levels. lia. Qed.

(** Whatever the shape of the plans and however the call ends, it makes
    at most [search_budget] calls to the search provider. *)
Lemma deepResearch_fuel_searched :
  forall fuel path c t o,
    (0 <= call_breadth c)%Z -> (call_depth c <= max_exact_depth)%Z ->
    deepResearch_fuel w fuel path c = Some (t, o) ->
    List.length (searched t) <= search_budget (levels (call_depth c)) (call_breadth c).
Proof.
  assert (Hbody : forall rec path c t o,
             (0 <= call_breadth c)%Z ->
             (forall path' call t' o',
                 call_depth call = to_double (call_depth c - 1) ->
                 (0 < call_depth call)%Z ->
                 call_breadth call = Math_ceil_div (call_breadth c) 2 ->
                 rec path' call = Some (t', o') ->
                 List.length (searched t')
                 <= search_budget (levels (call_depth c) - 1)
                      (Math_ceil_div (call_breadth c) 2)) ->
             deepResearch_body w rec path c = Some (t, o) ->
             List.length (searched t)
             <= search_budget (levels (call_depth c)) (call_breadth c)).
  { intros rec path c t o Hb Hrec H.
    rewrite levels_S. cbn [search_budget].
    set (R := search_budget (levels (call_depth c) - 1)
                (Math_ceil_div (call_breadth c) 2)) in *.
    apply deepResearch_body_Some in H as (t0 & plan & Hq & Hplan).
    pose proof (generateSerpQueries_length w _ _ _ _ Hb _ _ Hq) as Hlen.
    pose proof Hq as Hq'.
    apply generateSerpQueries_traces, searched_model in Hq'.
    destruct plan as [items|text].
    - destruct Hplan as (t1 & o1 & Hall & -> & _).
      rewrite searched_length_app, Hq'. cbn [List.length]. simpl in Hlen.
      assert (Hmul : List.length items * (1 + R)
                     <= Z.to_nat (call_breadth c) * (1 + R))
        by (apply Nat.mul_le_mono_r; exact Hlen).
      apply (Promise_all_from_searched_le _ (1 + R)) in Hall; [lia|].
      intros i x t2 o2. now apply branch_of_searched_le.
    - destruct Hplan as (-> & _). rewrite Hq'. simpl. lia. }
  induction fuel as [|fuel IH]; intros path c t o Hb Hd H;
    rewrite deepResearch_fuel_eq in H; eapply Hbody; try eassumption.
  - intros; discriminate.
  - intros path' call t' o' E1 E2 E3 Hrun.
    rewrite E1 in E2. pose proof (to_double_pred _ Hd E2) as E4.
    apply to_double_pos in E2. rewrite E4 in E1.
    apply IH in Hrun.
    + rewrite E1, E3 in Hrun. rewrite levels_below in Hrun by lia. exact Hrun.
    + rewrite E3, Math_ceil_div_2. apply Z.div_pos; lia.
    + unfold max_exact_depth in *. lia.
Qed.

End World.

(** X12.  With a splitter that does not lengthen the text, a breadth that
    is not negative and a depth of at most [2 ^ 53], a research settles,
    and whether it returns or rejects it has called the search provider at
    most [search_budget] times: a level plans at most [breadth] queries,
    and each query goes one level down with half the breadth, for as many
    levels as the depth (one level for a depth below 1).  The bound holds
    of every call that settles, whatever the fuel. *)
Theorem deepResearch_search_budget
        (w : World) (query : string) (breadth depth : Z)
        (learnings0 visitedUrls0 : list string) :
  splitter_shrinks (splitText w) ->
  (0 <= breadth)%Z -> (depth <= max_exact_depth)%Z ->
  (exists t o,
      deepResearch w query breadth depth learnings0 visitedUrls0 = Some (t, o)
      /\ List.length (searched t) <= search_budget (levels depth) breadth)
  /\ forall fuel path t o,
       deepResearch_fuel w fuel path
         (mkCall query breadth depth learnings0 visitedUrls0) = Some (t, o) ->
       List.length (searched t) <= search_budget (levels depth) breadth.
Proof.
  intros Hsplit Hb Hd.
  set (c := mkCall query breadth depth learnings0 visitedUrls0).
  assert (Hbound : forall fuel path t o,
             deepResearch_fuel w fuel path c = Some (t, o) ->
             List.length (searched t) <= search_budget (levels depth) breadth).
  { intros fuel path t o E.
    exact (deepResearch_fuel_searched w fuel path c t o Hb Hd E). }
  split; [|exact Hbound].
  destruct (deepResearch_fuel_finishes w Hsplit (Z.to_nat depth) [] c Hd) as (t & o & E).
  { simpl. lia. }
  exists t, o. split; [exact E|]. eapply Hbound, E.
Qed.

Lemma deepResearch_search_budget_witness :
  splitter_shrinks (splitText Stub.two_branches)
  /\ (0 <= 2)%Z /\ (2 <= max_exact_depth)%Z
  /\ exists t o,
       deepResearch Stub.two_branches "X" 2 2 [] [] = Some (t, o)
       /\ List.length (searched t) <= search_budget (levels 2) 2.
Proof.
  assert (H : (2 <= max_exact_depth)%Z) by (vm_compute; discriminate).
  split; [exact Stub_splitter_shrinks|]. split; [lia|]. split; [exact H|].
  apply (deepResearch_search_budget Stub.two_branches "X" 2 2 [] []
           Stub_splitter_shrinks ltac:(lia) H).
Defined.

(** A call that rejects has made its searches all the same: with the plan
    [[null, q2]] the branch of [q2] searches although the call rejects. *)
Example rejected_call_has_searched :
  exists t,
    deepResearch Samples.null_item "X" 2 1 [] [] = Some (t, Thrown TypeError)
    /\ List.length (searched t) = 1.
Proof. eexists. vm_compute. split; reflexivity. Qed.

Example search_budget_values :
  search_budget (levels 1) 3 = 3 /\ search_budget (levels 2) 3 = 9
  /\ search_budget (levels 3) 5 = 50 /\ search_budget (levels 0) 4 = 4.
Proof. repeat split; reflexivity. Qed.

(** *** What becomes of the accumulated learnings *)

Section World.

Variable w : World.

Lemma branch_step_accumulating path breadth depth learnings0 visitedUrls0 i serpQuery :
  yields (accumulating learnings0 visitedUrls0)
    (branch_step w path breadth depth learnings0 visitedUrls0 i serpQuery).
Proof.
  unfold branch_step. apply yields_try_catch.
  - apply yields_bind. intros _.
    destruct (firecrawl_search w path i) as [e|result]; [apply yields_throw|].
    apply yields_bind. intros newLearnings.
    destruct (to_double (depth - 1) >? 0)%Z.
    + apply yields_bind. intros _.
      destruct (pr_followUpQuestions_array newLearnings); [|apply yields_throw].
      apply yields_ret. simpl. now eexists _, _.
    + apply yields_ret. simpl. right. now eexists _, _.
  - intros e. apply yields_ret. simpl. now left.
Qed.

Lemma holds_app (l u new newUrls : list string) (r : ResearchResult) :
  holds (l ++ new) (u ++ newUrls) r -> holds l u r.
Proof.
  intros [H1 H2]. split; intros x Hx; [apply H1 | apply H2];
    apply in_or_app; now left.
Qed.

Lemma branch_all_or_nothing rec path breadth depth learnings0 visitedUrls0 i serpQuery :
  (forall path' call,
      yields (fun r => r = emptyResult
                       \/ holds (call_learnings call) (call_visitedUrls call) r)
        (rec path' call)) ->
  yields (fun r => r = emptyResult \/ holds learnings0 visitedUrls0 r)
    (branch w rec path breadth depth learnings0 visitedUrls0 i serpQuery).
Proof.
  intros Hrec t r H. unfold branch in H.
  apply bind_Returned in H as (t1 & step & t2 & H1 & H2 & _).
  apply branch_step_accumulating in H1. destruct step as [call|r']; simpl in H1.
  - destruct H1 as (new & newUrls & E1 & E2).
    destruct (Hrec _ _ _ _ H2) as [->|Hh]; [now left|].
    right. rewrite E1, E2 in Hh. eapply holds_app, Hh.
  - inversion H2; subst. destruct H1 as [->|(new & newUrls & ->)]; [now left|].
    right. split; intros x Hx; simpl; apply in_or_app; now left.
Qed.

Lemma branch_of_all_or_nothing rec path breadth depth learnings0 visitedUrls0 i item :
  (forall path' call,
      yields (fun r => r = emptyResult
                       \/ holds (call_learnings call) (call_visitedUrls call) r)
        (rec path' call)) ->
  yields (fun r => r = emptyResult \/ holds learnings0 visitedUrls0 r)
    (branch_of w rec path breadth depth learnings0 visitedUrls0 i item).
Proof.
  intros Hrec. destruct item; [now apply branch_all_or_nothing | apply yields_throw].
Qed.

(** The aggregate of results that are each empty or hold [l] and [u]. *)
Lemma aggregate_all_or_nothing (l u : list string) (results : list ResearchResult) :
  Forall (fun r => r = emptyResult \/ holds l u r) results ->
  aggregate results = emptyResult \/ holds l u (aggregate results).
Proof.
  intros H. unfold aggregate, holds. simpl.
  induction H as [|r results Hr _ IH]; [now left|].
  destruct Hr as [->|[H1 H2]].
  - simpl. exact IH.
  - right. split; intros x Hx; apply Set_spread_In; simpl; apply in_or_app; left;
      [now apply H1 | now apply H2].
Qed.

Lemma Promise_all_from_Forall {A B} (P : B -> Prop) (f : nat -> A -> M B) :
  (forall i x, yields P (f i x)) ->
  forall a i, yields (Forall P) (Promise_all_from f i a).
Proof.
  intros Hf. induction a as [|x a IH]; intros i t rs H.
  - inversion H; subst. constructor.
  - apply Promise_all_from_cons in H as (t1 & o1 & t2 & o2 & H1 & H2 & _ & Ho).
    symmetry in Ho. apply settle_Returned in Ho as (r & rs' & -> & -> & ->).
    constructor; [eapply Hf, H1 | eapply IH, H2].
Qed.

Lemma deepResearch_fuel_all_or_nothing :
  forall fuel path c,
    yields (fun r => r = emptyResult
                     \/ holds (call_learnings c) (call_visitedUrls c) r)
      (deepResearch_fuel w fuel path c).
Proof.
  assert (Hbody : forall rec path c,
             (forall path' call,
                 yields (fun r => r = emptyResult
                                  \/ holds (call_learnings call) (call_visitedUrls call) r)
                   (rec path' call)) ->
             yields (fun r => r = emptyResult
                              \/ holds (call_learnings c) (call_visitedUrls c) r)
               (deepResearch_body w rec path c)).
  { intros rec path c Hrec t r H.
    apply deepResearch_body_results in H as (t0 & qs & t1 & results & _ & Hall & _ & ->).
    apply aggregate_all_or_nothing.
    eapply (Promise_all_from_Forall _ _ (fun i x => branch_of_all_or_nothing rec path _ _
                                                  _ _ i x Hrec)).
    exact Hall. }
  induction fuel as [|fuel IH]; intros path c;
    rewrite deepResearch_fuel_eq; apply Hbody.
  - intros; apply yields_diverge.
  - intros path' call. apply IH.
Qed.

End World.

(** X13.  Whenever a call of [deepResearch] returns, at the top level or
    below, what it returns is all or nothing with respect to what it was
    given: the result is empty, or it holds every learning and every URL
    that were accumulated when the call was made. *)
Theorem deepResearch_all_or_nothing
        (w : World) (fuel : nat) (path : list nat) (c : Call)
        (t : list event) (r : ResearchResult) :
  deepResearch_fuel w fuel path c = Some (t, Returned r) ->
  r = emptyResult
  \/ (incl (call_learnings c) (learnings r)
      /\ incl (call_visitedUrls c) (visitedUrls r)).
Proof.
  intros E. exact (deepResearch_fuel_all_or_nothing w fuel path c t r E).
Qed.

Lemma deepResearch_all_or_nothing_witness :
  exists t r,
    deepResearch Stub.two_branches "X" 2 1 ["L0"] ["u0"] = Some (t, Returned r)
    /\ (r = emptyResult
        \/ (incl ["L0"] (learnings r) /\ incl ["u0"] (visitedUrls r))).
Proof.
  eexists _, _. split; [vm_compute; reflexivity|].
  apply (deepResearch_all_or_nothing Stub.two_branches (Z.to_nat 1) []
           (mkCall "X" 2 1 ["L0"] ["u0"]) _ _ eq_refl).
Defined.

Example accumulated_first :
  exists t,
    deepResearch Stub.two_branches "X" 2 1 ["L0"] ["u0"]
    = Some (t, Returned (mkResearchResult ["L0"; "L1"; "L2"] ["u0"; "https://a"])).
Proof. eexists. vm_compute. reflexivity. Qed.

(** *** The order of the aggregate *)

Lemma fold_Set_add_NoDup_id (a acc : list string) :
  NoDup (acc ++ a) -> fold_left Set_add a acc = acc ++ a.
Proof.
  revert acc. induction a as [|x a IH]; intros acc H; simpl.
  - now rewrite app_nil_r.
  - assert (Hx : Set_has acc x = false).
    { destruct (Set_has acc x) eqn:E; [|reflexivity].
      apply Set_has_In in E. apply NoDup_remove_2 in H.
      exfalso. apply H. apply in_or_app. now left. }
    unfold Set_add at 2. rewrite Hx.
    rewrite IH; rewrite <- app_assoc; [reflexivity | exact H].
Qed.

Lemma Set_spread_NoDup_id (a : list string) : NoDup a -> Set_spread a = a.
Proof. intros H. unfold Set_spread. now rewrite fold_Set_add_NoDup_id. Qed.

(** X14.  The aggregate keeps the order of the branches: when no learning
    (no URL) is returned twice, the aggregate is the concatenation of the
    results in the order of the planned queries.  Aggregating an aggregate
    again changes nothing, so a call whose single branch recursed returns
    what the recursive call returned. *)
Theorem aggregate_in_branch_order (results : list ResearchResult) :
  (NoDup (flat_map learnings results) ->
   learnings (aggregate results) = flat_map learnings results)
  /\ (NoDup (flat_map visitedUrls results) ->
      visitedUrls (aggregate results) = flat_map visitedUrls results)
  /\ aggregate [aggregate results] = aggregate results.
Proof.
  split; [intros H; now apply Set_spread_NoDup_id|].
  split; [intros H; now apply Set_spread_NoDup_id|].
  unfold aggregate. simpl. rewrite !app_nil_r.
  rewrite (Set_spread_NoDup_id (Set_spread (flat_map learnings results)))
    by apply Set_spread_NoDup.
  rewrite (Set_spread_NoDup_id (Set_spread (flat_map visitedUrls results)))
    by apply Set_spread_NoDup.
  reflexivity.
Qed.

End ResearchFacts.

(* ====================================================================== *)
(** ** The cleaning of the answers of the model *)
(* ====================================================================== *)

Module CleanFacts.

Import JS.
Import DeepResearch.
Import Budget.
Import JSFacts.

Lemma prefix_nil (s : string) : String.prefix EmptyString s = true.
Proof. now destruct s. Qed.

Lemma prefix_cons (a b : ascii) (p s : string) :
  String.prefix (String a p) (String b s)
  = if Ascii.eqb a b then String.prefix p s else false.
Proof.
  cbn [String.prefix]. destruct (ascii_dec a b) as [->|Hne].
  - now rewrite Ascii.eqb_refl.
  - destruct (Ascii.eqb_spec a b); [contradiction | reflexivity].
Qed.

Lemma prefix_of_prefix :
  forall a b s,
    String.prefix a b = true -> String.prefix b s = true -> String.prefix a s = true.
Proof.
  induction a as [|x a IH]; intros b s Hab Hbs; [apply prefix_nil|].
  destruct b as [|y b]; [discriminate Hab|].
  destruct s as [|z s]; [discriminate Hbs|].
  rewrite prefix_cons in *.
  destruct (Ascii.eqb_spec x y) as [->|]; [|discriminate].
  destruct (Ascii.eqb_spec y z) as [->|]; [|discriminate].
  eapply IH; eassumption.
Qed.

Lemma space_not_backtick (c : ascii) :
  is_space c = true -> Ascii.eqb c "`" = false.
Proof.
  intros H. destruct (Ascii.eqb_spec c "`") as [->|]; [discriminate H | reflexivity].
Qed.

Lemma newline_is_space (c : ascii) : is_newline c = true -> is_space c = true.
Proof.
  unfold is_newline, is_space. intros H. apply Nat.eqb_eq in H. now rewrite H.
Qed.

(** *** Code fences *)

Lemma no_fence_from_mono (s : string) :
  forall k k', k' <= k -> no_fence_from k s = true -> no_fence_from k' s = true.
Proof.
  induction s as [|c s IH]; intros k k' Hk H; [reflexivity|].
  cbn [no_fence_from] in *. destruct (Ascii.eqb c "`"); [|exact H].
  apply andb_prop in H as [H1 H2]. apply Nat.ltb_lt in H1.
  apply andb_true_intro. split; [apply Nat.ltb_lt; lia|].
  eapply IH; [|exact H2]. lia.
Qed.

(** A text that never has three backticks in a row does not hold a fence. *)
Lemma no_fence_includes (s : string) :
  forall k, no_fence_from k s = true -> includes fence s = false.
Proof.
  induction s as [|c s IH]; intros k H; [reflexivity|].
  cbn [includes]. unfold fence at 1.
  destruct (String.prefix "```" (String c s)) eqn:E.
  - exfalso. rewrite prefix_cons in E.
    destruct (Ascii.eqb_spec "`" c) as [<-|]; [|discriminate E].
    destruct s as [|c2 s]; [discriminate E|]. rewrite prefix_cons in E.
    destruct (Ascii.eqb_spec "`" c2) as [<-|]; [|discriminate E].
    destruct s as [|c3 s]; [discriminate E|]. rewrite prefix_cons in E.
    destruct (Ascii.eqb_spec "`" c3) as [<-|]; [|discriminate E].
    cbn in H. rewrite !andb_false_r in H. discriminate H.
  - cbn [no_fence_from] in H. destruct (Ascii.eqb c "`").
    + apply andb_prop in H as [_ H]. eapply IH, H.
    + eapply IH, H.
Qed.

Lemma remove_fences_no_fence (s : string) :
  (forall skip, no_fence_from 0 (remove_all_from fence skip s) = true)
  /\ (forall k, may_follow k s -> no_fence_from k (remove_all_from fence 0 s) = true).
Proof.
  induction s as [|c s [IHskip IH0]]; [split; reflexivity|].
  assert (H0 : forall k, may_follow k (String c s) ->
                         no_fence_from k (remove_all_from fence 0 (String c s)) = true).
  { intros k Hk. cbn [remove_all_from]. unfold fence at 1.
    destruct (String.prefix "```" (String c s)) eqn:E.
    - assert (k = 0).
      { destruct k as [|[|[|k]]]; cbn [may_follow] in Hk;
          try reflexivity; try contradiction.
        - rewrite (prefix_of_prefix "``" "```" _ eq_refl E) in Hk. discriminate.
        - rewrite (prefix_of_prefix "`" "```" _ eq_refl E) in Hk. discriminate. }
      subst k. apply IHskip.
    - cbn [no_fence_from]. destruct (Ascii.eqb_spec c "`") as [->|Hc].
      + rewrite prefix_cons, Ascii.eqb_refl in E.
        destruct k as [|[|[|k]]]; cbn [may_follow] in Hk; try contradiction.
        * cbn [Nat.ltb Nat.leb andb]. apply IH0. exact E.
        * cbn [Nat.ltb Nat.leb andb]. apply IH0. cbn [may_follow].
          rewrite prefix_cons, Ascii.eqb_refl in Hk. exact Hk.
        * rewrite prefix_cons, Ascii.eqb_refl, prefix_nil in Hk. discriminate Hk.
      + apply IH0. exact I. }
  split; [|exact H0].
  intros [|skip]; [apply H0; exact I|]. cbn [remove_all_from]. apply IHskip.
Qed.

Lemma trimStart_no_fence (s : string) :
  forall k, no_fence_from k s = true -> no_fence_from 0 (trimStart s) = true.
Proof.
  induction s as [|c s IH]; intros k H; [reflexivity|].
  cbn [trimStart]. destruct (is_space c) eqn:Ec.
  - cbn [no_fence_from] in H. rewrite (space_not_backtick c Ec) in H. eapply IH, H.
  - eapply no_fence_from_mono; [|exact H]. lia.
Qed.

Lemma trimEnd_no_fence (s : string) :
  forall k, no_fence_from k s = true -> no_fence_from k (trimEnd s) = true.
Proof.
  induction s as [|c s IH]; intros k H; [reflexivity|].
  cbn [trimEnd]. destruct (is_space c && falsy (trimEnd s)); [reflexivity|].
  cbn [no_fence_from] in *. destruct (Ascii.eqb c "`").
  - apply andb_prop in H as [H1 H2]. rewrite H1. simpl. now apply IH.
  - now apply IH.
Qed.

Lemma collapse_no_fence (cls : ascii -> bool) :
  (forall c, cls c = true -> Ascii.eqb c "`" = false) ->
  forall s k in_run,
    no_fence_from k s = true -> (in_run = true -> k = 0) ->
    no_fence_from k (collapse_from cls in_run s) = true.
Proof.
  intros Hcls. induction s as [|c s IH]; intros k in_run H Hrun; [reflexivity|].
  cbn [collapse_from]. cbn [no_fence_from] in H. destruct (cls c) eqn:Ec.
  - rewrite (Hcls c Ec) in H. destruct in_run.
    + rewrite (Hrun eq_refl). now apply IH.
    + cbn [no_fence_from]. simpl. now apply IH.
  - cbn [no_fence_from]. destruct (Ascii.eqb c "`").
    + apply andb_prop in H as [H1 H2]. rewrite H1. simpl.
      apply IH; [exact H2 | discriminate].
    + apply IH; [exact H | discriminate].
Qed.

Lemma cleaned_no_fence_from (content : string) :
  no_fence_from 0 (cleanJsonResponse content) = true.
Proof.
  unfold cleanJsonResponse, collapse, trim, remove_all.
  apply collapse_no_fence; [apply space_not_backtick | | discriminate].
  apply collapse_no_fence;
    [intros c Hc; apply space_not_backtick, newline_is_space, Hc | | discriminate].
  apply trimEnd_no_fence. eapply trimStart_no_fence.
  apply (proj1 (remove_fences_no_fence _) 0).
Qed.

(** X15.  What [cleanJsonResponse] returns holds no code fence: no three
    backticks in a row. *)
Theorem cleanJsonResponse_no_fence (content : string) :
  includes "```" (cleanJsonResponse content) = false.
Proof. apply (no_fence_includes _ 0), cleaned_no_fence_from. Qed.

(** *** White space *)

Lemma ends_with_text_cons (c : ascii) (s : string) :
  ends_with_text s = true -> ends_with_text (String c s) = true.
Proof. destruct s; [discriminate | intros H; exact H]. Qed.

Lemma ends_with_text_tail (c : ascii) (s : string) :
  ends_with_text (String c s) = true ->
  (s = EmptyString /\ is_space c = false) \/ ends_with_text s = true.
Proof.
  destruct s; cbn [ends_with_text]; intros H.
  - left. split; [reflexivity|]. now destruct (is_space c).
  - now right.
Qed.

Lemma trimEnd_ends (s : string) :
  trimEnd s = EmptyString \/ ends_with_text (trimEnd s) = true.
Proof.
  induction s as [|c s IH]; [now left|]. cbn [trimEnd].
  destruct (is_space c) eqn:Ec; simpl.
  - destruct (trimEnd s) eqn:Er; simpl; [now left|]. right.
    destruct IH as [IH|IH]; [discriminate | exact IH].
  - right. destruct (trimEnd s) eqn:Er.
    + cbn [ends_with_text]. now rewrite Ec.
    + destruct IH as [IH|IH]; [discriminate | exact IH].
Qed.

Lemma trimStart_starts (s : string) :
  trimStart s = EmptyString
  \/ exists c s', trimStart s = String c s' /\ is_space c = false.
Proof.
  induction s as [|c s IH]; [now left|]. cbn [trimStart].
  destruct (is_space c) eqn:Ec; [exact IH|]. right. now exists c, s.
Qed.

(** A trimmed text is empty, or begins and ends with a code unit that is no
    white space. *)
Lemma trim_shape (s : string) :
  trim s = EmptyString
  \/ exists c s', trim s = String c s' /\ is_space c = false
                  /\ ends_with_text (String c s') = true.
Proof.
  unfold trim. destruct (trimStart_starts s) as [->|(c & s' & -> & Ec)]; [now left|].
  right. exists c, (trimEnd s').
  assert (E : trimEnd (String c s') = String c (trimEnd s')).
  { cbn [trimEnd]. now rewrite Ec. }
  split; [exact E|]. split; [exact Ec|].
  rewrite <- E. destruct (trimEnd_ends (String c s')) as [H|H]; [|exact H].
  rewrite E in H. discriminate H.
Qed.

Lemma collapse_ends (cls : ascii -> bool) :
  (forall c, cls c = true -> is_space c = true) ->
  forall s in_run,
    ends_with_text s = true -> ends_with_text (collapse_from cls in_run s) = true.
Proof.
  intros Hcls. induction s as [|c s IH]; intros in_run H; [discriminate H|].
  cbn [collapse_from].
  destruct (ends_with_text_tail c s H) as [[-> Ec]|Hs].
  - destruct (cls c) eqn:E; [rewrite (Hcls c E) in Ec; discriminate|].
    simpl. now rewrite Ec.
  - destruct (cls c); [destruct in_run|]; try apply ends_with_text_cons; now apply IH.
Qed.

Lemma collapse_spaced (s : string) :
  ends_with_text s = true ->
  spaced true (collapse_from is_space true s) = true
  /\ spaced false (collapse_from is_space false s) = true.
Proof.
  induction s as [|c s IH]; intros H; [discriminate H|].
  cbn [collapse_from].
  destruct (ends_with_text_tail c s H) as [[-> Ec]|Hs].
  - rewrite Ec. cbn. rewrite Ec. now split.
  - destruct (IH Hs) as [IH1 IH2]. destruct (is_space c) eqn:Ec.
    + split; [exact IH1|]. cbn [spaced]. now rewrite IH1.
    + cbn [spaced]. rewrite Ec. now split.
Qed.

Lemma spaced_text (b : bool) (s : string) :
  spaced b s = true ->
  Forall (fun c => is_space c = true -> c = " "%char) (list_ascii_of_string s).
Proof.
  revert b. induction s as [|c s IH]; intros b H; [constructor|].
  cbn [spaced] in H. cbn [list_ascii_of_string]. destruct (is_space c) eqn:Ec.
  - apply andb_prop in H as [H H2]. apply andb_prop in H as [H1 _].
    constructor; [intros _; now apply Ascii.eqb_eq | eapply IH, H2].
  - constructor; [intros Hc; congruence | eapply IH, H].
Qed.

Lemma cleaned_single_spaced (content : string) :
  single_spaced (cleanJsonResponse content) = true.
Proof.
  unfold cleanJsonResponse, collapse.
  set (text := remove_all _ _).
  destruct (trim_shape text) as [->|(c & s' & -> & Ec & Hend)]; [reflexivity|].
  assert (Ecn : is_newline c = false).
  { destruct (is_newline c) eqn:E; [|reflexivity].
    apply newline_is_space in E. congruence. }
  cbn [collapse_from]. rewrite Ecn. cbn [collapse_from]. rewrite Ec.
  cbn [single_spaced spaced]. rewrite Ec.
  destruct (ends_with_text_tail c s' Hend) as [[-> _]|Hs]; [reflexivity|].
  apply collapse_spaced. now apply collapse_ends; [apply newline_is_space|].
Qed.

(** X16.  What [cleanJsonResponse] returns is empty, or it begins and ends
    with a code unit that is no white space and holds no white space but
    single spaces between two such code units; so it holds no line feed. *)
Theorem cleanJsonResponse_single_spaced (content : string) :
  single_spaced (cleanJsonResponse content) = true
  /\ Forall (fun c => is_space c = true -> c = " "%char)
       (list_ascii_of_string (cleanJsonResponse content))
  /\ includes nl (cleanJsonResponse content) = false.
Proof.
  pose proof (cleaned_single_spaced content) as H.
  assert (Hall : Forall (fun c => is_space c = true -> c = " "%char)
                   (list_ascii_of_string (cleanJsonResponse content))).
  { destruct (cleanJsonResponse content) eqn:E; [constructor|].
    rewrite <- E in *. unfold single_spaced in H. rewrite E in H. rewrite E.
    eapply spaced_text, H. }
  split; [exact H|]. split; [exact Hall|].
  clear H. induction (cleanJsonResponse content) as [|c s IH]; [reflexivity|].
  cbn [list_ascii_of_string] in Hall. inversion Hall as [|c' l Hc Hl]; subst.
  cbn [includes]. unfold nl at 1. rewrite prefix_cons, prefix_nil.
  destruct (Ascii.eqb_spec LF c) as [<-|]; [|now apply IH].
  discriminate (Hc eq_refl).
Qed.

(** *** Clean texts *)

Lemma includes_tail (pat : string) (c : ascii) (s : string) :
  includes pat (String c s) = false ->
  String.prefix pat (String c s) = false /\ includes pat s = false.
Proof.
  cbn [includes]. destruct (String.prefix pat (String c s)); [discriminate|].
  now split.
Qed.

Lemma remove_all_id (pat s : string) :
  String.prefix fence pat = true -> includes fence s = false ->
  remove_all pat s = s.
Proof.
  intros Hpat. unfold remove_all. induction s as [|c s IH]; intros H; [reflexivity|].
  apply includes_tail in H as [Hp Hs]. cbn [remove_all_from].
  destruct (String.prefix pat (String c s)) eqn:E.
  - rewrite (prefix_of_prefix fence pat _ Hpat E) in Hp. discriminate Hp.
  - now rewrite IH.
Qed.

Lemma spaced_trimEnd (s : string) :
  forall b, spaced b s = true -> trimEnd s = s.
Proof.
  induction s as [|c s IH]; intros b H; [reflexivity|].
  cbn [spaced] in H. cbn [trimEnd]. destruct (is_space c).
  - apply andb_prop in H as [_ H]. rewrite (IH _ H).
    destruct s; [discriminate H | reflexivity].
  - simpl. now rewrite (IH _ H).
Qed.

Lemma single_spaced_trim (s : string) : single_spaced s = true -> trim s = s.
Proof.
  destruct s as [|c s]; [reflexivity|]. intros H. unfold trim.
  cbn [single_spaced] in H.
  assert (Ec : is_space c = false).
  { cbn [spaced] in H. destruct (is_space c); [|reflexivity].
    rewrite andb_false_r in H. discriminate H. }
  cbn [trimStart]. rewrite Ec. eapply spaced_trimEnd, H.
Qed.

Lemma spaced_collapse_newline (s : string) :
  forall b in_run, spaced b s = true -> collapse_from is_newline in_run s = s.
Proof.
  induction s as [|c s IH]; intros b in_run H; [reflexivity|].
  cbn [spaced] in H. cbn [collapse_from]. destruct (is_space c) eqn:Ec.
  - apply andb_prop in H as [H H2]. apply andb_prop in H as [H1 _].
    apply Ascii.eqb_eq in H1. subst c.
    change (is_newline " "%char) with false. cbv iota.
    now rewrite (IH true false H2).
  - assert (En : is_newline c = false).
    { destruct (is_newline c) eqn:E; [|reflexivity].
      apply newline_is_space in E. congruence. }
    rewrite En. now rewrite (IH _ _ H).
Qed.

Lemma spaced_collapse_space (s : string) :
  forall b in_run,
    spaced b s = true -> (in_run = true -> b = true) ->
    collapse_from is_space in_run s = s.
Proof.
  induction s as [|c s IH]; intros b in_run H Hrun; [reflexivity|].
  cbn [spaced] in H. cbn [collapse_from]. destruct (is_space c) eqn:Ec.
  - apply andb_prop in H as [H H2]. apply andb_prop in H as [H1 Hb].
    apply Ascii.eqb_eq in H1. subst c.
    destruct in_run; [rewrite (Hrun eq_refl) in Hb; discriminate Hb|].
    now rewrite (IH true true H2).
  - rewrite (IH false false H); [reflexivity | discriminate].
Qed.

Lemma cleanJsonResponse_clean (s : string) :
  includes fence s = false -> single_spaced s = true -> cleanJsonResponse s = s.
Proof.
  intros Hf Hs. unfold cleanJsonResponse, collapse.
  rewrite (remove_all_id ("```json" ++ nl)%string s eq_refl Hf),
    (remove_all_id ("```" ++ nl)%string s eq_refl Hf),
    (remove_all_id "```" s eq_refl Hf), (single_spaced_trim s Hs).
  destruct s as [|c s]; [reflexivity|]. cbn [single_spaced] in Hs.
  rewrite (spaced_collapse_newline _ true false Hs).
  apply (spaced_collapse_space _ true false Hs). discriminate.
Qed.

(** X17.  A text without a code fence, whose only white space is single
    spaces inside it, is returned by [cleanJsonResponse] as it is; so
    cleaning twice is cleaning once. *)
Theorem cleanJsonResponse_idempotent (content : string) :
  cleanJsonResponse (cleanJsonResponse content) = cleanJsonResponse content
  /\ (includes "```" content = false -> single_spaced content = true ->
      cleanJsonResponse content = content).
Proof.
  split; [|apply cleanJsonResponse_clean].
  apply cleanJsonResponse_clean.
  - apply (no_fence_includes _ 0), cleaned_no_fence_from.
  - apply cleaned_single_spaced.
Qed.

Example clean_fenced_answer :
  cleanJsonResponse
    ("```json" ++ nl ++ "{ " ++ Stub.quoted "queries" ++ ":  []" ++ nl ++ "}" ++ nl
     ++ "```" ++ nl)%string
  = ("{ " ++ Stub.quoted "queries" ++ ": [] }")%string.
Proof. reflexivity. Qed.

End CleanFacts.

(* ====================================================================== *)
(** ** The formats of the log *)
(* ====================================================================== *)

Module LoggingFacts.

Import JS.
Import Logging.

(** X18.  For a duration of at least a second, within the whole numbers
    that a double holds, [formatDuration] shows the whole seconds of the
    duration, rounded down, as minutes and seconds: the seconds are below
    60, the minutes are left out when there are none, and they are never
    turned into hours. *)
Theorem formatDuration_whole_seconds (ms : Z) :
  (1000 <= ms < 2 ^ 53)%Z ->
  exists m s : Z,
    (0 <= m)%Z /\ (0 <= s < 60)%Z
    /\ ((60 * m + s) * 1000 <= ms < (60 * m + s + 1) * 1000)%Z
    /\ formatDuration ms
       = (if (m =? 0)%Z then of_int s ++ "s"
          else of_int m ++ "m " ++ of_int s ++ "s")%string.
Proof.
  intros Hms. exists (ms / 1000 / 60)%Z, ((ms / 1000) mod 60)%Z.
  pose proof (Z.div_mod ms 1000 ltac:(lia)) as H1.
  pose proof (Z.mod_pos_bound ms 1000 ltac:(lia)) as H2.
  pose proof (Z.div_mod (ms / 1000) 60 ltac:(lia)) as H3.
  pose proof (Z.mod_pos_bound (ms / 1000) 60 ltac:(lia)) as H4.
  assert (H5 : (1 <= ms / 1000)%Z) by (apply Z.div_le_lower_bound; lia).
  assert (H6 : (0 <= ms / 1000 / 60)%Z) by (apply Z.div_pos; lia).
  split; [exact H6|]. split; [exact H4|]. split; [lia|].
  unfold formatDuration.
  destruct (Z.ltb_spec ms 1000) as [Hlt|_]; [lia|].
  destruct (Z.ltb_spec (ms / 1000) 60) as [Hs|Hs].
  - rewrite (Z.div_small (ms / 1000) 60) by lia.
    rewrite (Z.mod_small (ms / 1000) 60) by lia. reflexivity.
  - assert (H7 : (1 <= ms / 1000 / 60)%Z) by (apply Z.div_le_lower_bound; lia).
    destruct (Z.eqb_spec (ms / 1000 / 60) 0) as [E|_]; [lia | reflexivity].
Qed.

Lemma formatDuration_whole_seconds_witness :
  (1000 <= 61500 < 2 ^ 53)%Z
  /\ exists m s : Z,
       (0 <= m)%Z /\ (0 <= s < 60)%Z
       /\ ((60 * m + s) * 1000 <= 61500 < (60 * m + s + 1) * 1000)%Z
       /\ formatDuration 61500
          = (if (m =? 0)%Z then of_int s ++ "s"
             else of_int m ++ "m " ++ of_int s ++ "s")%string.
Proof.
  split; [lia|]. apply (formatDuration_whole_seconds 61500). lia.
Defined.

Example formatDuration_values :
  map formatDuration [0; 999; 1000; 59999; 60000; 61500; 3600000]%Z
  = ["0ms"; "999ms"; "1s"; "59s"; "1m 0s"; "1m 1s"; "60m 0s"].
Proof. vm_compute. reflexivity. Qed.

(** [x.toFixed(1)] depends on the number only, not on the fraction that
    stands for it. *)
Lemma toFixed1_comp (x y : Q) : (x == y)%Q -> toFixed1 x = toFixed1 y.
Proof.
  intros E. unfold toFixed1.
  assert (Eb : Qle_bool 0 x = Qle_bool 0 y).
  { destruct (Qle_bool 0 x) eqn:Ex, (Qle_bool 0 y) eqn:Ey; try reflexivity.
    - apply Qle_bool_iff in Ex. rewrite E in Ex. apply Qle_bool_iff in Ex. congruence.
    - apply Qle_bool_iff in Ey. rewrite <- E in Ey. apply Qle_bool_iff in Ey. congruence. }
  rewrite Eb.
  assert (E1 : Qfloor (x * 10 + (1 # 2))%Q = Qfloor (y * 10 + (1 # 2))%Q)
    by (apply Qfloor_comp; rewrite E; reflexivity).
  assert (E2 : Qfloor (- x * 10 + (1 # 2))%Q = Qfloor (- y * 10 + (1 # 2))%Q)
    by (apply Qfloor_comp; rewrite E; reflexivity).
  now rewrite E1, E2.
Qed.

Lemma pow1024_pos (j : nat) : (0 < inject_Z (1024 ^ Z.of_nat j))%Q.
Proof.
  change 0%Q with (inject_Z 0). rewrite <- Zlt_Qlt. apply Z.pow_pos_nonneg; lia.
Qed.

Lemma pow1024_S (j : nat) :
  (inject_Z (1024 ^ Z.of_nat (S j)) == 1024 * inject_Z (1024 ^ Z.of_nat j))%Q.
Proof.
  rewrite Nat2Z.inj_succ, Z.pow_succ_r by lia. rewrite inject_Z_mult. reflexivity.
Qed.

(** The invariant of the loop of [formatSize]: after [j] more divisions the
    size is the one at the start over [1024 ^ j]; the loop stops below 1024
    or at the last unit, and it never divides a size below 1024. *)
Lemma scale_spec (left : nat) :
  forall (size : Q) (k : nat),
    k + left = 3 ->
    exists size' j,
      scale left size k = (size', k + j) /\ j <= left
      /\ (size' * inject_Z (1024 ^ Z.of_nat j) == size)%Q
      /\ (j < left -> (size' < 1024)%Q)
      /\ (0 < j -> (1 <= size')%Q).
Proof.
  induction left as [|left IH]; intros size k Hk.
  - exists size, 0. rewrite Nat.add_0_r. cbn [scale].
    split; [reflexivity|]. split; [lia|].
    split; [change (inject_Z (1024 ^ Z.of_nat 0)) with 1%Q; lra|].
    split; intros; lia.
  - cbn [scale]. change (List.length units - 1) with 3.
    destruct (Nat.ltb_spec k 3) as [_|Hge]; [|lia].
    rewrite andb_true_r.
    destruct (Qle_bool 1024 size) eqn:Ele.
    + apply Qle_bool_iff in Ele.
      destruct (IH (size / 1024)%Q (S k) ltac:(lia))
        as (size' & j & Escale & Hj & Hsize & Hstop & Hone).
      exists size', (S j). rewrite Escale.
      split; [f_equal; lia|]. split; [lia|].
      assert (Hsize' : (size' * inject_Z (1024 ^ Z.of_nat (S j)) == size)%Q).
      { rewrite pow1024_S.
        setoid_replace (size' * (1024 * inject_Z (1024 ^ Z.of_nat j)))%Q
          with (1024 * (size' * inject_Z (1024 ^ Z.of_nat j)))%Q by ring.
        rewrite Hsize. field. }
      split; [exact Hsize'|].
      split; [intros H; apply Hstop; lia|].
      intros _. destruct j as [|j]; [|apply Hone; lia].
      change (inject_Z (1024 ^ Z.of_nat 0)) with 1%Q in Hsize.
      assert (H1 : (size' == size / 1024)%Q) by (rewrite <- Hsize; ring).
      rewrite H1. apply Qle_shift_div_l; lra.
    + exists size, 0. rewrite Nat.add_0_r.
      split; [reflexivity|]. split; [lia|].
      split; [change (inject_Z (1024 ^ Z.of_nat 0)) with 1%Q; lra|].
      split; [|intros; lia].
      intros _. apply Qnot_le_lt. intros H. apply Qle_bool_iff in H. congruence.
Qed.

(** X19.  For a size within the whole numbers that a double holds,
    [formatSize] shows the size over a power of 1024 with one decimal and
    the unit of that power, which is one of B, KB, MB and GB.  The unit is
    the largest one that the size reaches: below GB the size is less than
    1024 of the unit, and above B it is at least one of it. *)
Theorem formatSize_unit (bytes : Z) :
  (0 <= bytes < 2 ^ 53)%Z ->
  exists k : nat,
    k <= 3
    /\ formatSize bytes
       = (toFixed1 (inject_Z bytes / inject_Z (1024 ^ Z.of_nat k))%Q
          ++ nth k ["B"; "KB"; "MB"; "GB"] EmptyString)%string
    /\ (k < 3 -> (bytes < 1024 ^ Z.of_nat (S k))%Z)
    /\ (0 < k -> (1024 ^ Z.of_nat k <= bytes)%Z).
Proof.
  intros _.
  destruct (scale_spec 3 (inject_Z bytes) 0 eq_refl)
    as (size & k & Escale & Hk & Hsize & Hstop & Hone).
  pose proof (pow1024_pos k) as Hpos.
  exists k. split; [exact Hk|]. split; [|split].
  - unfold formatSize. change (List.length units - 1) with 3. rewrite Escale.
    cbn [Nat.add]. f_equal.
    + apply toFixed1_comp. rewrite <- Hsize. field. lra.
    + destruct k as [|[|[|[|k]]]]; try reflexivity. lia.
  - intros H. apply Hstop in H. rewrite Zlt_Qlt, pow1024_S, <- Hsize.
    setoid_replace (size * inject_Z (1024 ^ Z.of_nat k))%Q
      with (inject_Z (1024 ^ Z.of_nat k) * size)%Q by ring.
    setoid_replace (1024 * inject_Z (1024 ^ Z.of_nat k))%Q
      with (inject_Z (1024 ^ Z.of_nat k) * 1024)%Q by ring.
    now apply Qmult_lt_l.
  - intros H. apply Hone in H. rewrite Zle_Qle, <- Hsize.
    setoid_replace (inject_Z (1024 ^ Z.of_nat k))
      with (1 * inject_Z (1024 ^ Z.of_nat k))%Q at 1 by ring.
    apply Qmult_le_compat_r; [exact H | now apply Qlt_le_weak].
Qed.

Lemma formatSize_unit_witness :
  (0 <= 1536 < 2 ^ 53)%Z
  /\ exists k : nat,
       k <= 3
       /\ formatSize 1536
          = (toFixed1 (inject_Z 1536 / inject_Z (1024 ^ Z.of_nat k))%Q
             ++ nth k ["B"; "KB"; "MB"; "GB"] EmptyString)%string
       /\ (k < 3 -> (1536 < 1024 ^ Z.of_nat (S k))%Z)
       /\ (0 < k -> (1024 ^ Z.of_nat k <= 1536)%Z).
Proof.
  split; [lia|]. apply (formatSize_unit 1536). lia.
Defined.

Example formatSize_values :
  map formatSize [0; 1023; 1024; 1536; 25000; 1048575; 1048576; 1099511627776]%Z
  = ["0.0B"; "1023.0B"; "1.0KB"; "1.5KB"; "24.4KB"; "1024.0KB"; "1.0MB"; "1024.0GB"].
Proof. vm_compute. reflexivity. Qed.

End LoggingFacts.

(* ====================================================================== *)
(** ** The clarifying questions *)
(* ====================================================================== *)

Module FeedbackFacts.

Import JS.
Import Providers.
Import DeepResearch.
Import Feedback.
Import MFacts.
Import ProvidersFacts.

Lemma remove_quotes_run (s : string) :
  remove_quotes (unquoted_run s) = unquoted_run s.
Proof.
  induction s as [|c s IH]; [reflexivity|]. cbn [unquoted_run].
  destruct (is_quote c) eqn:E; [reflexivity|].
  cbn [remove_quotes]. now rewrite E, IH.
Qed.

Lemma run_split (s : string) :
  s = (unquoted_run s ++ drop (String.length (unquoted_run s)) s)%string.
Proof.
  induction s as [|c s IH]; [reflexivity|]. cbn [unquoted_run].
  destruct (is_quote c); [reflexivity|].
  cbn [String.length drop String.append]. now f_equal.
Qed.

(** The run of code units that are no quotes stops at a quote, or at the
    end of the text. *)
Lemma run_stops (s : string) (c : ascii) (rest : string) :
  drop (String.length (unquoted_run s)) s = String c rest -> is_quote c = true.
Proof.
  induction s as [|a s IH]; [discriminate|]. cbn [unquoted_run].
  destruct (is_quote a) eqn:E.
  - cbn [String.length drop]. intros H. injection H as -> _. exact E.
  - cbn [String.length drop]. exact IH.
Qed.

Lemma remove_quotes_app (a b : string) :
  remove_quotes (a ++ b) = (remove_quotes a ++ remove_quotes b)%string.
Proof.
  induction a as [|c a IH]; [reflexivity|]. cbn [String.append remove_quotes].
  destruct (is_quote c); [exact IH|]. cbn [String.append]. now rewrite IH.
Qed.

Lemma append_empty (s : string) : (s ++ EmptyString)%string = s.
Proof. induction s as [|c s IH]; [reflexivity|]. cbn [String.append]. now rewrite IH. Qed.

Lemma prefix_same (c : ascii) (p s : string) :
  String.prefix (String c p) (String c s) = String.prefix p s.
Proof. cbn [String.prefix]. destruct (ascii_dec c c); [reflexivity | contradiction]. Qed.

Lemma prefix_empty (s : string) : String.prefix EmptyString s = true.
Proof. now destruct s. Qed.

Lemma prefix_app (a b c : string) :
  String.prefix (a ++ b) (a ++ c) = String.prefix b c.
Proof.
  induction a as [|x a IH]; [reflexivity|].
  cbn [String.append]. now rewrite prefix_same.
Qed.

Lemma includes_here (pat s : string) :
  String.prefix pat s = true -> includes pat s = true.
Proof. intros H. destruct s; cbn [includes]; now rewrite H. Qed.

Lemma includes_later (pat : string) (c : ascii) (s : string) :
  includes pat s = true -> includes pat (String c s) = true.
Proof.
  intros H. cbn [includes]. now destruct (String.prefix pat (String c s)).
Qed.

Lemma match_here_spec (s m : string) :
  match_here s = Some m -> quoted_match_of s m.
Proof.
  destruct s as [|opening s]; [discriminate|]. cbn [match_here].
  destruct (is_quote opening) eqn:Eo; [|discriminate].
  destruct (drop (String.length (unquoted_run s)) s) as [|closing rest] eqn:Ed;
    [discriminate|].
  destruct (Nat.leb_spec 2 (String.length (unquoted_run s))) as [Hlen|_];
    [|discriminate].
  destruct (endsWith "?" (unquoted_run s)) eqn:Ee; [|discriminate].
  cbn [andb]. intros H. injection H as <-.
  exists opening, closing, (unquoted_run s).
  split; [reflexivity|]. split; [exact Eo|].
  split; [exact (run_stops _ _ _ Ed)|].
  split; [apply remove_quotes_run|]. split; [exact Hlen|]. split; [exact Ee|].
  apply includes_here. rewrite prefix_same.
  rewrite (run_split s) at 2. rewrite Ed, prefix_app, prefix_same.
  apply prefix_empty.
Qed.

Lemma match_all_from_spec (s : string) :
  forall skip, Forall (quoted_match_of s) (match_all_from skip s).
Proof.
  induction s as [|c s IH]; intros skip; [constructor|].
  assert (Hlater : forall k, Forall (quoted_match_of (String c s)) (match_all_from k s)).
  { intros k. eapply Forall_impl; [|apply IH].
    intros m (o & cl & run & -> & Ho & Hc & Hr & Hl & He & Hi).
    exists o, cl, run. repeat (split; [assumption || reflexivity|]).
    now apply includes_later. }
  cbn [match_all_from]. destruct skip as [|k]; [|apply Hlater].
  destruct (match_here (String c s)) as [m|] eqn:E; [|apply Hlater].
  constructor; [now apply match_here_spec | apply Hlater].
Qed.

Lemma remove_quotes_match (opening closing : ascii) (run : string) :
  is_quote opening = true -> is_quote closing = true -> remove_quotes run = run ->
  remove_quotes (String opening (run ++ String closing EmptyString)) = run.
Proof.
  intros Ho Hc Hr. cbn [remove_quotes]. rewrite Ho, remove_quotes_app, Hr.
  cbn [remove_quotes]. rewrite Hc. apply append_empty.
Qed.

Lemma In_aslice0 {A} (x : A) (a : list A) (e : Z) : In x (aslice0 a e) -> In x a.
Proof.
  unfold aslice0. intros H.
  destruct (e <? 0)%Z;
    match type of H with In _ (firstn ?n _) =>
      rewrite <- (firstn_skipn n a); apply in_or_app; now left
    end.
Qed.

Lemma aslice0_bound {A} (a : list A) (e : Z) :
  (0 <= e)%Z -> List.length (aslice0 a e) <= Z.to_nat e.
Proof.
  intros He. unfold aslice0. destruct (Z.ltb_spec e 0); [lia|].
  apply firstn_le_length.
Qed.

(** The questions drawn from a raw answer stand in it between quotes. *)
Lemma extract_questions_spec (content : string) (numQuestions : Z) (q : string) :
  In q (extract_questions content numQuestions) ->
  quoted_question q /\ stands_quoted q content.
Proof.
  unfold extract_questions, match_questions. intros H.
  assert (Hin : In q (filter (fun q => endsWith "?" (trim q))
                        (map remove_quotes (match_all_from 0 content)))).
  { destruct (match_all_from 0 content) as [|m ms]; [contradiction|].
    exact (In_aslice0 _ _ _ H). }
  apply filter_In in Hin. destruct Hin as [Hin _].
  apply in_map_iff in Hin. destruct Hin as (m & <- & Hm).
  pose proof (match_all_from_spec content 0) as Hall.
  rewrite Forall_forall in Hall.
  destruct (Hall m Hm) as (o & cl & run & -> & Ho & Hc & Hr & Hl & He & Hi).
  rewrite (remove_quotes_match o cl run Ho Hc Hr).
  split; [now repeat split|]. now exists o, cl.
Qed.

Section Feedback.

Variable upstream : nat -> reply.
Variable Math_random : nat -> Q.
Variable systemPrompt : string.
Variable parse_questions : string -> option (list string).

Lemma generateFeedback_returns query numQuestions :
  returns (generateFeedback upstream Math_random systemPrompt parse_questions
             query numQuestions).
Proof.
  unfold generateFeedback. apply returns_try_catch.
  - apply finishes_bind; [apply o3MiniModel_finishes|].
    intros content. destruct (falsy content); [apply returns_finishes, returns_ret|].
    apply finishes_try_catch.
    + destruct (parse_questions _); now eexists _, _.
    + intros e. destruct (0 <? _); now eexists _, _.
  - intros e. apply returns_ret.
Qed.

Lemma generateFeedback_traces query numQuestions :
  traces model_event
    (generateFeedback upstream Math_random systemPrompt parse_questions
       query numQuestions).
Proof.
  unfold generateFeedback. apply traces_try_catch; [|intros; apply traces_ret].
  apply traces_bind; [apply o3MiniModel_traces|].
  intros content. destruct (falsy content); [apply traces_ret|].
  apply traces_try_catch.
  - destruct (parse_questions _); [apply traces_ret | apply traces_throw].
  - intros e. destruct (0 <? _); [apply traces_ret | apply traces_throw].
Qed.

Lemma generateFeedback_length query numQuestions :
  (0 <= numQuestions)%Z ->
  yields (fun questions => List.length questions <= Z.to_nat numQuestions)
    (generateFeedback upstream Math_random systemPrompt parse_questions
       query numQuestions).
Proof.
  intros Hn. unfold generateFeedback.
  apply yields_try_catch; [|intros; apply yields_ret; simpl; lia].
  apply yields_bind. intros content.
  destruct (falsy content); [apply yields_ret; simpl; lia|].
  apply yields_try_catch.
  - destruct (parse_questions _); [|apply yields_throw].
    apply yields_ret. now apply aslice0_bound.
  - intros e. destruct (0 <? _); [|apply yields_throw].
    apply yields_ret. unfold extract_questions.
    destruct (match_questions content); [now apply aslice0_bound | simpl; lia].
Qed.

End Feedback.

(** X20.  [generateFeedback] never throws and makes no call but its request
    to the model.  Asked for a number of questions that is not negative, it
    returns at most that many, whether they come from the parsed answer or
    from the search for quoted questions in the raw answer. *)
Theorem generateFeedback_bounded
        (upstream : nat -> reply) (Math_random : nat -> Q) (systemPrompt : string)
        (parse_questions : string -> option (list string))
        (query : string) (numQuestions : Z) :
  (0 <= numQuestions)%Z ->
  exists t questions,
    generateFeedback upstream Math_random systemPrompt parse_questions
      query numQuestions = Some (t, Returned questions)
    /\ List.length questions <= Z.to_nat numQuestions
    /\ Forall model_event t.
Proof.
  intros Hn.
  destruct (generateFeedback_returns upstream Math_random systemPrompt
              parse_questions query numQuestions) as (t & questions & E).
  exists t, questions. split; [exact E|]. split.
  - exact (generateFeedback_length _ _ _ _ _ _ Hn _ _ E).
  - exact (generateFeedback_traces _ _ _ _ _ _ _ _ E).
Qed.

Lemma generateFeedback_bounded_witness :
  (0 <= 1)%Z
  /\ exists t questions,
       generateFeedback Samples.answers_prose Stub.half "You are a researcher."
         Samples.no_json "topic" 1 = Some (t, Returned questions)
       /\ List.length questions <= Z.to_nat 1
       /\ Forall model_event t.
Proof.
  split; [lia|].
  apply (generateFeedback_bounded Samples.answers_prose Stub.half
           "You are a researcher." Samples.no_json "topic" 1).
  lia.
Defined.

(** X21.  When the model answers and reading the answer as JSON throws,
    [generateFeedback] returns, after the request alone, questions that it
    draws from the raw answer: every one of them stands in the answer
    between two quotes, ends with a question mark, has at least two code
    units and holds no quote. *)
Theorem generateFeedback_fallback
        (upstream : nat -> reply) (Math_random : nat -> Q) (systemPrompt : string)
        (parse_questions : string -> option (list string))
        (query : string) (numQuestions : Z)
        (t : list event) (content : string) :
  o3MiniModel upstream Math_random
    (formatMessages systemPrompt (feedbackPrompt query numQuestions))
  = Some (t, Returned content) ->
  parse_questions (cleanJsonResponse content) = None ->
  exists questions,
    generateFeedback upstream Math_random systemPrompt parse_questions
      query numQuestions = Some (t, Returned questions)
    /\ forall q, In q questions -> quoted_question q /\ stands_quoted q content.
Proof.
  intros Eask Hparse. unfold generateFeedback. rewrite Eask. simpl.
  rewrite (o3MiniModel_nonempty _ _ _ _ _ Eask), Hparse. simpl.
  destruct (0 <? List.length (extract_questions content numQuestions)) eqn:El; simpl.
  - exists (extract_questions content numQuestions). rewrite !app_nil_r.
    split; [reflexivity|]. intros q Hq. now apply (extract_questions_spec content numQuestions).
  - exists []. rewrite !app_nil_r. split; [reflexivity|]. intros q [].
Qed.

Lemma generateFeedback_fallback_witness :
  o3MiniModel Samples.answers_prose Stub.half
    (formatMessages "You are a researcher." (feedbackPrompt "topic" 3))
  = Some ([EvSend DEFAULT_MODEL o3MiniConfig (feedbackPrompt "topic" 3)],
          Returned Samples.prose_answer)
  /\ Samples.no_json (cleanJsonResponse Samples.prose_answer) = None
  /\ exists questions,
       generateFeedback Samples.answers_prose Stub.half "You are a researcher."
         Samples.no_json "topic" 3
       = Some ([EvSend DEFAULT_MODEL o3MiniConfig (feedbackPrompt "topic" 3)],
               Returned questions)
       /\ forall q, In q questions ->
            quoted_question q /\ stands_quoted q Samples.prose_answer.
Proof.
  split; [vm_compute; reflexivity|]. split; [reflexivity|].
  apply (generateFeedback_fallback Samples.answers_prose Stub.half
           "You are a researcher." Samples.no_json "topic" 3
           [EvSend DEFAULT_MODEL o3MiniConfig (feedbackPrompt "topic" 3)]
           Samples.prose_answer);
    [vm_compute; reflexivity | reflexivity].
Defined.

Example feedback_from_prose :
  exists t,
    generateFeedback Samples.answers_prose Stub.half "You are a researcher."
      Samples.no_json "topic" 3
    = Some (t, Returned ["What is the scope?"; "Which years?"]).
Proof. eexists. vm_compute. reflexivity. Qed.

End FeedbackFacts.
